(** * Realtime connection client (GameFrontend/src/api/wsClient.js)

    A shallow embedding of the websocket client of the game front end:
    the destination resolution, the jittered backoff, the event emitter,
    the outbound queue and the connection manager with its two timers.

    Conventions of the embedding.
    - JavaScript strings are [string]s whose characters are code units
      below 256; numbers that the code keeps integral are [Z] or [nat],
      the jitter arithmetic is done in [Q].
    - Module level variables of wsClient.js are the fields of [Client.World];
      the browser objects the module talks to (sockets, timers, clock, random
      source) are further fields of the same record.
    - Code that may raise is written in a state and exception monad, with
      try/catch as a combinator.
    - Subscribers are observers: [Client.emit] records every call of
      emitter.emit in a trace; what dispatch does with the handler set is
      the subject of [Module Emitter]. *)

From Stdlib Require Import ZArith QArith Qround Lqa String Ascii List Lia DecimalString.
From stdpp Require Import base list gmap strings.
Import ListNotations.

Local Open Scope Z_scope.
Local Open Scope string_scope.

(** ** String primitives of the host language *)
Module Js.

(** White space and line terminators removed by String.prototype.trim. *)
Definition isWhite (c : ascii) : bool :=
  let n := nat_of_ascii c in
  ((9 <=? n)%nat && (n <=? 13)%nat) || (n =? 32)%nat || (n =? 160)%nat.

Fixpoint trimStart (l : list ascii) : list ascii :=
  match l with
  | c :: r => if isWhite c then trimStart r else l
  | [] => []
  end.

Definition trim (s : string) : string :=
  string_of_list_ascii
    (rev (trimStart (rev (trimStart (list_ascii_of_string s))))).

Definition startsWith (s p : string) : bool := String.prefix p s.

(** s.slice(n) for 0 <= n. *)
Definition slice (n : nat) (s : string) : string :=
  substring n (String.length s - n) s.

Definition isSlash (c : ascii) : bool := Ascii.eqb c "/"%char.

Fixpoint dropSlashes (l : list ascii) : list ascii :=
  match l with
  | c :: r => if isSlash c then dropSlashes r else l
  | [] => []
  end.

(** s.replace(/\/+$/, "") *)
Definition stripTrailingSlashes (s : string) : string :=
  string_of_list_ascii (rev (dropSlashes (rev (list_ascii_of_string s)))).

Definition isDigit (c : ascii) : bool :=
  let n := nat_of_ascii c in (48 <=? n)%nat && (n <=? 57)%nat.

(** The class [\w.-] (the i flag changes nothing for it). *)
Definition isHostChar (c : ascii) : bool :=
  let n := nat_of_ascii c in
  isDigit c
  || ((65 <=? n)%nat && (n <=? 90)%nat)
  || ((97 <=? n)%nat && (n <=? 122)%nat)
  || (n =? 95)%nat || (n =? 46)%nat || (n =? 45)%nat.

Fixpoint spanHost (l : list ascii) : list ascii * list ascii :=
  match l with
  | c :: r =>
      if isHostChar c then let '(h, t) := spanHost r in (c :: h, t)
      else ([], l)
  | [] => ([], [])
  end.

(** /^[\w.-]+(?::\d+)?$/i.test(s) *)
Definition isBareHostPort (s : string) : bool :=
  let '(h, t) := spanHost (list_ascii_of_string s) in
  match h with
  | [] => false
  | _ :: _ =>
      match t with
      | [] => true
      | c :: ds =>
          Ascii.eqb c ":"%char
          && match ds with [] => false | _ :: _ => forallb isDigit ds end
      end
  end.

(** Truthiness of a string. *)
Definition truthy (s : string) : bool := negb (String.eqb s "").

End Js.

(** ** Destination resolution *)
Module Url.

Record Location := { protocol : string; host : string }.

(** What the module reads of [window]. *)
Record Window := {
  location : option Location;
  hasWebSocket : bool   (* typeof window.WebSocket === "function" *)
}.

(** What the module reads of its surroundings: the build time variable
    process.env.REACT_APP_WS_URL and the global [window]. *)
Record Env := {
  REACT_APP_WS_URL : option string;
  window : option Window
}.

Definition safeTrim (s : option string) : string :=
  match s with
  | Some s => Js.trim s
  | None => ""
  end.

Definition hasWebSocketSupport (e : Env) : bool :=
  match window e with
  | Some w => hasWebSocket w
  | None => false
  end.

Definition resolveWsBaseUrlFromEnv (e : Env) : string :=
  let raw := safeTrim (REACT_APP_WS_URL e) in
  if Js.truthy raw then
    if Js.startsWith raw "ws://" || Js.startsWith raw "wss://"
    then Js.stripTrailingSlashes raw
    else if Js.startsWith raw "http://"
    then Js.stripTrailingSlashes ("ws://" ++ Js.slice 7 raw)
    else if Js.startsWith raw "https://"
    then Js.stripTrailingSlashes ("wss://" ++ Js.slice 8 raw)
    else if Js.isBareHostPort raw
    then Js.stripTrailingSlashes ("ws://" ++ raw)
    else Js.stripTrailingSlashes raw
  else
    match window e with
    | Some w =>
        match location w with
        | Some loc =>
            if Js.truthy (protocol loc) then
              let proto :=
                if String.eqb (protocol loc) "https:" then "wss:" else "ws:" in
              if Js.truthy (host loc)
              then Js.stripTrailingSlashes (proto ++ "//" ++ host loc)
              else ""
            else ""
        | None => ""
        end
    | None => ""
    end.

Definition joinUrl (base : string) (path : option string) : string :=
  let b := Js.stripTrailingSlashes (safeTrim (Some base)) in
  let p := safeTrim path in
  if negb (Js.truthy b) then ""
  else if negb (Js.truthy p) then b
  else b ++ (if Js.startsWith p "/" then "" else "/") ++ p.

(** The three local constants of internalConnect that pick the branch;
    [path] is connectOptions.path. *)
Definition connectUrl (e : Env) (path : option string) : string :=
  joinUrl (resolveWsBaseUrlFromEnv e)
          (Some (match path with Some p => if Js.truthy p then p else "" | None => "" end)).

Definition hasConfiguredUrl (e : Env) : bool :=
  Js.truthy (safeTrim (REACT_APP_WS_URL e)).

Definition canUseReal (e : Env) (path : option string) : bool :=
  hasWebSocketSupport e && Js.truthy (connectUrl e path).

End Url.

(** ** Reconnect backoff *)
Module Backoff.

Local Open Scope Q_scope.

(** Math.round: the nearest integer, halves upwards. *)
Definition round (x : Q) : Z := Qfloor (x + (1 # 2)).

Definition Qmax (a b : Q) : Q := if Qle_bool a b then b else a.
Definition Qmin (a b : Q) : Q := if Qle_bool a b then a else b.

(** [u] is the value Math.random() returns for this call. *)
Definition jitterDelay (ms jitterRatio u : Q) : Z :=
  let ratio := Qmax 0 (Qmin 1 jitterRatio) in
  let delta := ms * ratio in
  let min := ms - delta in
  let max := ms + delta in
  Z.max 0 (round (min + u * (max - min))).

End Backoff.

(** ** Constants *)
Module DEFAULTS.
Definition heartbeatIntervalMs : Z := 15000.
Definition staleThresholdMs : Z := 45000.
Definition reconnectInitialMs : Z := 500.
Definition reconnectMaxMs : Z := 20000.
Definition reconnectJitterRatio : Q := 25 # 100.
Definition maxQueueSize : nat := 200.
End DEFAULTS.

(** ** State and exceptions

  A computation reads and writes a state of type [S] and either returns
  a value or raises; the state written before a raise is kept, as the
  mutations a JavaScript function made before it threw are. *)
Module Eff.

Inductive Result (A : Type) : Type :=
| Ok (a : A)
| Throw (what : string).
Arguments Ok {A} a.
Arguments Throw {A} what.

Definition M (S A : Type) : Type := S -> Result A * S.

Definition ret {S A} (a : A) : M S A := fun s => (Ok a, s).

Definition bind {S A B} (m : M S A) (k : A -> M S B) : M S B :=
  fun s =>
    match m s with
    | (Ok a, s') => k a s'
    | (Throw e, s') => (Throw e, s')
    end.

Definition throw {S A} (what : string) : M S A := fun s => (Throw what, s).

(** try { m } catch (e) { h e } *)
Definition try_catch {S A} (m : M S A) (h : string -> M S A) : M S A :=
  fun s =>
    match m s with
    | (Ok a, s') => (Ok a, s')
    | (Throw e, s') => h e s'
    end.

Definition gets {S A} (f : S -> A) : M S A := fun s => (Ok (f s), s).
Definition modify {S} (f : S -> S) : M S unit := fun s => (Ok tt, f s).

(** Array.prototype.forEach: a raise of the callback ends the loop. *)
Fixpoint forEach {S A} (l : list A) (f : A -> M S unit) : M S unit :=
  match l with
  | [] => ret tt
  | x :: r => bind (f x) (fun _ => forEach r f)
  end.

Definition exec {S A} (m : M S A) (s : S) : S := snd (m s).
Definition outcome {S A} (m : M S A) (s : S) : Result A := fst (m s).

(** [m] keeps [P]: whether it returns or raises, the state it leaves
    satisfies [P] when the state it started from does. *)
Definition preserves {S A} (P : S -> Prop) (m : M S A) : Prop :=
  forall s, P s -> P (exec m s).

(** From a state that satisfies [P], [m] leaves one that satisfies [Q]. *)
Definition establishes {S A} (P : S -> Prop) (m : M S A) (Q : S -> Prop) : Prop :=
  forall s, P s -> Q (exec m s).

(** [m] returns: it does not raise, from any state. *)
Definition safe {S A} (m : M S A) : Prop :=
  forall s, exists a, outcome m s = Ok a.

End Eff.

Import Eff.

Declare Scope eff_scope.
Delimit Scope eff_scope with eff.
Notation "x <- m ;; k" := (bind m (fun x => k))
(at level 100, m at next level, k at level 200, right associativity) : eff_scope.
Notation "m ;; k" := (bind m (fun _ => k))
(at level 100, k at level 200, right associativity) : eff_scope.
Notation "'try' m 'catch' h" := (try_catch m h)
(at level 80, m at level 79, h at level 79) : eff_scope.

(** ** Event emitter (createEmitter) *)
Module Emitter.

Local Open Scope eff_scope.

(** Handler functions are known by identity. *)
Definition HandlerId := nat.

(** What a handler does when it is called, as far as the emitter can
    tell: it may subscribe and unsubscribe handlers (itself included)
    and it may raise, which ends it. *)
Inductive Effect :=
| Subscribe (eventName : string) (h : HandlerId)
| Unsubscribe (eventName : string) (h : HandlerId)
| Raise (what : string).

Definition Behaviour := HandlerId -> list Effect.

Record St := {
  handlers : gmap string (list HandlerId);  (* Map<string, Set<Function>> *)
  calls : list (string * HandlerId);        (* handler invocations, oldest first *)
  warnings : list (string * string)         (* console.warn *)
}.

Definition init : St := {| handlers := ∅; calls := []; warnings := [] |}.

Definition set_handlers (f : gmap string (list HandlerId) -> gmap string (list HandlerId))
    (st : St) : St :=
  {| handlers := f (handlers st); calls := calls st; warnings := warnings st |}.

(** Set.prototype.add and delete on an insertion ordered set. *)
Definition setAdd (h : HandlerId) (s : list HandlerId) : list HandlerId :=
  if decide (h ∈ s) then s else s ++ [h].
Definition setDelete (h : HandlerId) (s : list HandlerId) : list HandlerId :=
  filter (fun x => x <> h) s.

Definition getSet (name : string) : M St (list HandlerId) :=
  s <- gets (fun st => handlers st !! name) ;;
  match s with
  | None => modify (set_handlers (insert name [])) ;; ret []
  | Some s => ret s
  end.

Definition on (eventName : string) (handler : HandlerId) : M St unit :=
  s <- getSet eventName ;;
  modify (set_handlers (insert eventName (setAdd handler s))).

(** Both off(eventName, handler) and the closure that on returns. *)
Definition off (eventName : string) (handler : HandlerId) : M St unit :=
  s <- gets (fun st => handlers st !! eventName) ;;
  match s with
  | None => ret tt
  | Some s => modify (set_handlers (insert eventName (setDelete handler s)))
  end.

Fixpoint runEffects (es : list Effect) : M St unit :=
  match es with
  | [] => ret tt
  | Subscribe n h :: r => on n h ;; runEffects r
  | Unsubscribe n h :: r => off n h ;; runEffects r
  | Raise e :: _ => throw e
  end.

(** fn(payload) *)
Definition call (b : Behaviour) (eventName : string) (fn : HandlerId) : M St unit :=
  modify (fun st => {| handlers := handlers st;
                       calls := calls st ++ [(eventName, fn)];
                       warnings := warnings st |}) ;;
  runEffects (b fn).

Definition warn (eventName what : string) : M St unit :=
  modify (fun st => {| handlers := handlers st;
                       calls := calls st;
                       warnings := warnings st ++ [(eventName, what)] |}).

Definition emit (b : Behaviour) (eventName : string) : M St unit :=
  s <- gets (fun st => handlers st !! eventName) ;;
  match s with
  | None => ret tt
  | Some s =>
      if (length s =? 0)%nat then ret tt
      else forEach s (fun fn => try call b eventName fn catch (warn eventName))
  end.

(** The operations a client of the emitter can perform. *)
Inductive Op :=
| OpOn (eventName : string) (h : HandlerId)
| OpOff (eventName : string) (h : HandlerId)
| OpEmit (eventName : string).

Definition perform (b : Behaviour) (o : Op) : M St unit :=
  match o with
  | OpOn n h => on n h
  | OpOff n h => off n h
  | OpEmit n => emit b n
  end.

Definition run (b : Behaviour) (ops : list Op) : St :=
  fold_left (fun st o => exec (perform b o) st) ops init.

(** The handlers subscribed to an event, in the order dispatch sees them. *)
Definition subscribed (st : St) (eventName : string) : list HandlerId :=
  default [] (handlers st !! eventName).

(** The handler invocations made after the first [n]. *)
Definition callsSince (n : nat) (st : St) : list (string * HandlerId) :=
  drop n (calls st).

(** Three handlers of one event: the first unsubscribes itself and the
    third, the second raises, the third subscribes a fourth. *)
Definition unruly : Behaviour := fun h =>
  match h with
  | 1%nat => [Unsubscribe "tick" 1%nat; Unsubscribe "tick" 3%nat]
  | 2%nat => [Raise "boom"]
  | 3%nat => [Subscribe "tick" 4%nat]
  | _ => []
  end.

(** How often handler [h] was invoked for event [eventName] in [l]. *)
Definition invocations (eventName : string) (h : HandlerId)
    (l : list (string * HandlerId)) : nat :=
  length (filter (fun c => c = (eventName, h)) l).

(** A Set holds a value at most once. *)
Definition setsDistinct (st : St) : Prop :=
  forall name s, handlers st !! name = Some s -> NoDup s.

End Emitter.

(** ** Connection manager *)
Module Client.

Local Open Scope eff_scope.

Inductive ConnectionState :=
| Idle | Mock | Connecting | Open | Closing | Closed | Error.

Record ConnectOptions := {
  path : option string;
  protocols : option string;
  autoReconnect : option bool   (* None: absent, or not a boolean *)
}.

(** WebSocket.readyState *)
Definition CONNECTING : Z := 0.
Definition OPEN : Z := 1.
Definition CLOSING : Z := 2.
Definition CLOSED : Z := 3.

(** A WebSocket object as the module sees it. The four handler properties
    hold either null or the closure internalConnect assigns; that closure
    reads [url] and [options.protocols], which are the constructor's
    arguments kept in [sk_url] and [sk_protocols]. *)
Record Socket := {
  sk_url : string;
  sk_protocols : option string;
  readyState : Z;
  onopen : bool;
  onclose : bool;
  onerror : bool;
  onmessage : bool;
  sent : list string;              (* frames the transport accepted *)
  closeCalls : list (Z * string)   (* arguments of close() *)
}.

(** The closure variables of one createMockSocket call. *)
Record MockSocket := {
  mk_open : bool;
  mk_closed : bool;
  mk_id : nat
}.

(** The functions handed to setTimeout and setInterval. *)
Inductive Callback :=
| CbMockOpen (m : nat)
| CbMockEcho (m : nat) (payload : string)
| CbReconnect (delay : Z) (reason : string)
| CbHeartbeat.

Record Timer := {
  t_id : nat;
  t_callback : Callback;
  t_delay : Z;
  t_repeat : bool   (* setInterval *)
}.

Inductive ErrorKind :=
| SendFailed            (* "Failed to send WebSocket frame" *)
| Stale (staleFor : Z)  (* "Stale WebSocket connection detected ..." *)
| ConstructFailed       (* "Failed to construct WebSocket" *)
| SocketError           (* "WebSocket error" *)
| SerializeFailed.      (* "Failed to serialize message as JSON" *)

Inductive Payload :=
| PStatus (st : ConnectionState) (url : option string) (isMock : bool)
| POpenMock
| POpen (url : string) (protocols : option string)
| PClose (code : Z) (reason : string) (wasClean isMock : bool)
| PError (kind : ErrorKind) (isMock : bool)
| PMessage (data : string) (isMock : bool)
| PData (data : string).

(** One call emitter.emit(name, payload). *)
Abbreviation Event := (string * Payload)%type.

(** What the surroundings decide: the configured address and [window],
    whether the WebSocket constructor rejects an address, whether close()
    delivers the close event before it returns (the test double of the
    repository does, browsers deliver it later), which frames the transport
    refuses, and what Math.random() returns at its n-th call. *)
Record Host := {
  env : Url.Env;
  ctorThrows : string -> bool;
  syncClose : bool;
  sendThrows : string -> bool;
  random : nat -> Q
}.

Record World := {
  host : Host;   (* the surroundings, never written *)
  ws : option nat;   (* the index of the current socket in [sockets], or null *)
  mockWs : option nat;   (* the index of the current mock in [mocks], or null *)
  state : ConnectionState;
  connectOptions : ConnectOptions;
  lastUrl : string;
  shouldReconnect : bool;
  reconnectAttempt : nat;
  reconnectTimer : option nat;
  heartbeatTimer : option nat;
  lastInboundAt : Z;
  lastOpenAt : Z;
  explicitlyDisconnected : bool;
  outboundQueue : list string;
  sockets : list Socket;   (* every WebSocket constructed so far *)
  mocks : list MockSocket;   (* every mock socket created so far *)
  timers : list Timer;   (* pending timeouts and intervals *)
  nextTimerId : nat;   (* the id the next setTimeout or setInterval returns *)
  now : Z;   (* Date.now() *)
  randomCalls : nat;   (* calls of Math.random() so far *)
  trace : list Event   (* calls of emitter.emit, oldest first *)
}.

(** Assignment to one variable. *)
Definition set_ws (v : option nat) (w : World) : World :=
  {| host := host w; ws := v; mockWs := mockWs w; state := state w;
     connectOptions := connectOptions w; lastUrl := lastUrl w;
     shouldReconnect := shouldReconnect w; reconnectAttempt := reconnectAttempt w;
     reconnectTimer := reconnectTimer w; heartbeatTimer := heartbeatTimer w;
     lastInboundAt := lastInboundAt w; lastOpenAt := lastOpenAt w;
     explicitlyDisconnected := explicitlyDisconnected w;
     outboundQueue := outboundQueue w; sockets := sockets w; mocks := mocks w;
     timers := timers w; nextTimerId := nextTimerId w; now := now w;
     randomCalls := randomCalls w; trace := trace w |}.
Definition set_mockWs (v : option nat) (w : World) : World :=
  {| host := host w; ws := ws w; mockWs := v; state := state w;
     connectOptions := connectOptions w; lastUrl := lastUrl w;
     shouldReconnect := shouldReconnect w; reconnectAttempt := reconnectAttempt w;
     reconnectTimer := reconnectTimer w; heartbeatTimer := heartbeatTimer w;
     lastInboundAt := lastInboundAt w; lastOpenAt := lastOpenAt w;
     explicitlyDisconnected := explicitlyDisconnected w;
     outboundQueue := outboundQueue w; sockets := sockets w; mocks := mocks w;
     timers := timers w; nextTimerId := nextTimerId w; now := now w;
     randomCalls := randomCalls w; trace := trace w |}.
Definition set_state (v : ConnectionState) (w : World) : World :=
  {| host := host w; ws := ws w; mockWs := mockWs w; state := v;
     connectOptions := connectOptions w; lastUrl := lastUrl w;
     shouldReconnect := shouldReconnect w; reconnectAttempt := reconnectAttempt w;
     reconnectTimer := reconnectTimer w; heartbeatTimer := heartbeatTimer w;
     lastInboundAt := lastInboundAt w; lastOpenAt := lastOpenAt w;
     explicitlyDisconnected := explicitlyDisconnected w;
     outboundQueue := outboundQueue w; sockets := sockets w; mocks := mocks w;
     timers := timers w; nextTimerId := nextTimerId w; now := now w;
     randomCalls := randomCalls w; trace := trace w |}.
Definition set_connectOptions (v : ConnectOptions) (w : World) : World :=
  {| host := host w; ws := ws w; mockWs := mockWs w; state := state w;
     connectOptions := v; lastUrl := lastUrl w; shouldReconnect := shouldReconnect w;
     reconnectAttempt := reconnectAttempt w; reconnectTimer := reconnectTimer w;
     heartbeatTimer := heartbeatTimer w; lastInboundAt := lastInboundAt w;
     lastOpenAt := lastOpenAt w; explicitlyDisconnected := explicitlyDisconnected w;
     outboundQueue := outboundQueue w; sockets := sockets w; mocks := mocks w;
     timers := timers w; nextTimerId := nextTimerId w; now := now w;
     randomCalls := randomCalls w; trace := trace w |}.
Definition set_lastUrl (v : string) (w : World) : World :=
  {| host := host w; ws := ws w; mockWs := mockWs w; state := state w;
     connectOptions := connectOptions w; lastUrl := v;
     shouldReconnect := shouldReconnect w; reconnectAttempt := reconnectAttempt w;
     reconnectTimer := reconnectTimer w; heartbeatTimer := heartbeatTimer w;
     lastInboundAt := lastInboundAt w; lastOpenAt := lastOpenAt w;
     explicitlyDisconnected := explicitlyDisconnected w;
     outboundQueue := outboundQueue w; sockets := sockets w; mocks := mocks w;
     timers := timers w; nextTimerId := nextTimerId w; now := now w;
     randomCalls := randomCalls w; trace := trace w |}.
Definition set_shouldReconnect (v : bool) (w : World) : World :=
  {| host := host w; ws := ws w; mockWs := mockWs w; state := state w;
     connectOptions := connectOptions w; lastUrl := lastUrl w; shouldReconnect := v;
     reconnectAttempt := reconnectAttempt w; reconnectTimer := reconnectTimer w;
     heartbeatTimer := heartbeatTimer w; lastInboundAt := lastInboundAt w;
     lastOpenAt := lastOpenAt w; explicitlyDisconnected := explicitlyDisconnected w;
     outboundQueue := outboundQueue w; sockets := sockets w; mocks := mocks w;
     timers := timers w; nextTimerId := nextTimerId w; now := now w;
     randomCalls := randomCalls w; trace := trace w |}.
Definition set_reconnectAttempt (v : nat) (w : World) : World :=
  {| host := host w; ws := ws w; mockWs := mockWs w; state := state w;
     connectOptions := connectOptions w; lastUrl := lastUrl w;
     shouldReconnect := shouldReconnect w; reconnectAttempt := v;
     reconnectTimer := reconnectTimer w; heartbeatTimer := heartbeatTimer w;
     lastInboundAt := lastInboundAt w; lastOpenAt := lastOpenAt w;
     explicitlyDisconnected := explicitlyDisconnected w;
     outboundQueue := outboundQueue w; sockets := sockets w; mocks := mocks w;
     timers := timers w; nextTimerId := nextTimerId w; now := now w;
     randomCalls := randomCalls w; trace := trace w |}.
Definition set_reconnectTimer (v : option nat) (w : World) : World :=
  {| host := host w; ws := ws w; mockWs := mockWs w; state := state w;
     connectOptions := connectOptions w; lastUrl := lastUrl w;
     shouldReconnect := shouldReconnect w; reconnectAttempt := reconnectAttempt w;
     reconnectTimer := v; heartbeatTimer := heartbeatTimer w;
     lastInboundAt := lastInboundAt w; lastOpenAt := lastOpenAt w;
     explicitlyDisconnected := explicitlyDisconnected w;
     outboundQueue := outboundQueue w; sockets := sockets w; mocks := mocks w;
     timers := timers w; nextTimerId := nextTimerId w; now := now w;
     randomCalls := randomCalls w; trace := trace w |}.
Definition set_heartbeatTimer (v : option nat) (w : World) : World :=
  {| host := host w; ws := ws w; mockWs := mockWs w; state := state w;
     connectOptions := connectOptions w; lastUrl := lastUrl w;
     shouldReconnect := shouldReconnect w; reconnectAttempt := reconnectAttempt w;
     reconnectTimer := reconnectTimer w; heartbeatTimer := v;
     lastInboundAt := lastInboundAt w; lastOpenAt := lastOpenAt w;
     explicitlyDisconnected := explicitlyDisconnected w;
     outboundQueue := outboundQueue w; sockets := sockets w; mocks := mocks w;
     timers := timers w; nextTimerId := nextTimerId w; now := now w;
     randomCalls := randomCalls w; trace := trace w |}.
Definition set_lastInboundAt (v : Z) (w : World) : World :=
  {| host := host w; ws := ws w; mockWs := mockWs w; state := state w;
     connectOptions := connectOptions w; lastUrl := lastUrl w;
     shouldReconnect := shouldReconnect w; reconnectAttempt := reconnectAttempt w;
     reconnectTimer := reconnectTimer w; heartbeatTimer := heartbeatTimer w;
     lastInboundAt := v; lastOpenAt := lastOpenAt w;
     explicitlyDisconnected := explicitlyDisconnected w;
     outboundQueue := outboundQueue w; sockets := sockets w; mocks := mocks w;
     timers := timers w; nextTimerId := nextTimerId w; now := now w;
     randomCalls := randomCalls w; trace := trace w |}.
Definition set_lastOpenAt (v : Z) (w : World) : World :=
  {| host := host w; ws := ws w; mockWs := mockWs w; state := state w;
     connectOptions := connectOptions w; lastUrl := lastUrl w;
     shouldReconnect := shouldReconnect w; reconnectAttempt := reconnectAttempt w;
     reconnectTimer := reconnectTimer w; heartbeatTimer := heartbeatTimer w;
     lastInboundAt := lastInboundAt w; lastOpenAt := v;
     explicitlyDisconnected := explicitlyDisconnected w;
     outboundQueue := outboundQueue w; sockets := sockets w; mocks := mocks w;
     timers := timers w; nextTimerId := nextTimerId w; now := now w;
     randomCalls := randomCalls w; trace := trace w |}.
Definition set_explicitlyDisconnected (v : bool) (w : World) : World :=
  {| host := host w; ws := ws w; mockWs := mockWs w; state := state w;
     connectOptions := connectOptions w; lastUrl := lastUrl w;
     shouldReconnect := shouldReconnect w; reconnectAttempt := reconnectAttempt w;
     reconnectTimer := reconnectTimer w; heartbeatTimer := heartbeatTimer w;
     lastInboundAt := lastInboundAt w; lastOpenAt := lastOpenAt w;
     explicitlyDisconnected := v; outboundQueue := outboundQueue w;
     sockets := sockets w; mocks := mocks w; timers := timers w;
     nextTimerId := nextTimerId w; now := now w; randomCalls := randomCalls w;
     trace := trace w |}.
Definition set_outboundQueue (v : list string) (w : World) : World :=
  {| host := host w; ws := ws w; mockWs := mockWs w; state := state w;
     connectOptions := connectOptions w; lastUrl := lastUrl w;
     shouldReconnect := shouldReconnect w; reconnectAttempt := reconnectAttempt w;
     reconnectTimer := reconnectTimer w; heartbeatTimer := heartbeatTimer w;
     lastInboundAt := lastInboundAt w; lastOpenAt := lastOpenAt w;
     explicitlyDisconnected := explicitlyDisconnected w; outboundQueue := v;
     sockets := sockets w; mocks := mocks w; timers := timers w;
     nextTimerId := nextTimerId w; now := now w; randomCalls := randomCalls w;
     trace := trace w |}.
Definition set_sockets (v : list Socket) (w : World) : World :=
  {| host := host w; ws := ws w; mockWs := mockWs w; state := state w;
     connectOptions := connectOptions w; lastUrl := lastUrl w;
     shouldReconnect := shouldReconnect w; reconnectAttempt := reconnectAttempt w;
     reconnectTimer := reconnectTimer w; heartbeatTimer := heartbeatTimer w;
     lastInboundAt := lastInboundAt w; lastOpenAt := lastOpenAt w;
     explicitlyDisconnected := explicitlyDisconnected w;
     outboundQueue := outboundQueue w; sockets := v; mocks := mocks w;
     timers := timers w; nextTimerId := nextTimerId w; now := now w;
     randomCalls := randomCalls w; trace := trace w |}.
Definition set_mocks (v : list MockSocket) (w : World) : World :=
  {| host := host w; ws := ws w; mockWs := mockWs w; state := state w;
     connectOptions := connectOptions w; lastUrl := lastUrl w;
     shouldReconnect := shouldReconnect w; reconnectAttempt := reconnectAttempt w;
     reconnectTimer := reconnectTimer w; heartbeatTimer := heartbeatTimer w;
     lastInboundAt := lastInboundAt w; lastOpenAt := lastOpenAt w;
     explicitlyDisconnected := explicitlyDisconnected w;
     outboundQueue := outboundQueue w; sockets := sockets w; mocks := v;
     timers := timers w; nextTimerId := nextTimerId w; now := now w;
     randomCalls := randomCalls w; trace := trace w |}.
Definition set_timers (v : list Timer) (w : World) : World :=
  {| host := host w; ws := ws w; mockWs := mockWs w; state := state w;
     connectOptions := connectOptions w; lastUrl := lastUrl w;
     shouldReconnect := shouldReconnect w; reconnectAttempt := reconnectAttempt w;
     reconnectTimer := reconnectTimer w; heartbeatTimer := heartbeatTimer w;
     lastInboundAt := lastInboundAt w; lastOpenAt := lastOpenAt w;
     explicitlyDisconnected := explicitlyDisconnected w;
     outboundQueue := outboundQueue w; sockets := sockets w; mocks := mocks w;
     timers := v; nextTimerId := nextTimerId w; now := now w;
     randomCalls := randomCalls w; trace := trace w |}.
Definition set_nextTimerId (v : nat) (w : World) : World :=
  {| host := host w; ws := ws w; mockWs := mockWs w; state := state w;
     connectOptions := connectOptions w; lastUrl := lastUrl w;
     shouldReconnect := shouldReconnect w; reconnectAttempt := reconnectAttempt w;
     reconnectTimer := reconnectTimer w; heartbeatTimer := heartbeatTimer w;
     lastInboundAt := lastInboundAt w; lastOpenAt := lastOpenAt w;
     explicitlyDisconnected := explicitlyDisconnected w;
     outboundQueue := outboundQueue w; sockets := sockets w; mocks := mocks w;
     timers := timers w; nextTimerId := v; now := now w; randomCalls := randomCalls w;
     trace := trace w |}.
Definition set_now (v : Z) (w : World) : World :=
  {| host := host w; ws := ws w; mockWs := mockWs w; state := state w;
     connectOptions := connectOptions w; lastUrl := lastUrl w;
     shouldReconnect := shouldReconnect w; reconnectAttempt := reconnectAttempt w;
     reconnectTimer := reconnectTimer w; heartbeatTimer := heartbeatTimer w;
     lastInboundAt := lastInboundAt w; lastOpenAt := lastOpenAt w;
     explicitlyDisconnected := explicitlyDisconnected w;
     outboundQueue := outboundQueue w; sockets := sockets w; mocks := mocks w;
     timers := timers w; nextTimerId := nextTimerId w; now := v;
     randomCalls := randomCalls w; trace := trace w |}.
Definition set_randomCalls (v : nat) (w : World) : World :=
  {| host := host w; ws := ws w; mockWs := mockWs w; state := state w;
     connectOptions := connectOptions w; lastUrl := lastUrl w;
     shouldReconnect := shouldReconnect w; reconnectAttempt := reconnectAttempt w;
     reconnectTimer := reconnectTimer w; heartbeatTimer := heartbeatTimer w;
     lastInboundAt := lastInboundAt w; lastOpenAt := lastOpenAt w;
     explicitlyDisconnected := explicitlyDisconnected w;
     outboundQueue := outboundQueue w; sockets := sockets w; mocks := mocks w;
     timers := timers w; nextTimerId := nextTimerId w; now := now w; randomCalls := v;
     trace := trace w |}.
Definition set_trace (v : list Event) (w : World) : World :=
  {| host := host w; ws := ws w; mockWs := mockWs w; state := state w;
     connectOptions := connectOptions w; lastUrl := lastUrl w;
     shouldReconnect := shouldReconnect w; reconnectAttempt := reconnectAttempt w;
     reconnectTimer := reconnectTimer w; heartbeatTimer := heartbeatTimer w;
     lastInboundAt := lastInboundAt w; lastOpenAt := lastOpenAt w;
     explicitlyDisconnected := explicitlyDisconnected w;
     outboundQueue := outboundQueue w; sockets := sockets w; mocks := mocks w;
     timers := timers w; nextTimerId := nextTimerId w; now := now w;
     randomCalls := randomCalls w; trace := v |}.

Definition init (h : Host) : World :=
  {| host := h; ws := None; mockWs := None; state := Idle;
     connectOptions := {| path := None; protocols := None; autoReconnect := None |};
     lastUrl := ""; shouldReconnect := true; reconnectAttempt := 0;
     reconnectTimer := None; heartbeatTimer := None; lastInboundAt := 0;
     lastOpenAt := 0; explicitlyDisconnected := false; outboundQueue := [];
     sockets := []; mocks := []; timers := []; nextTimerId := 1; now := 0;
     randomCalls := 0; trace := [] |}.

(** *** The browser *)

Definition nowMs : M World Z := gets now.

Definition Math_random : M World Q :=
  u <- gets (fun w => random (host w) (randomCalls w)) ;;
  modify (fun w => set_randomCalls (S (randomCalls w)) w) ;;
  ret u.

Definition setTimer (cb : Callback) (delay : Z) (repeat : bool) : M World nat :=
  id <- gets nextTimerId ;;
  modify (fun w => set_timers (timers w ++ [{| t_id := id; t_callback := cb;
                                               t_delay := delay; t_repeat := repeat |}]) w) ;;
  modify (set_nextTimerId (S id)) ;;
  ret id.

(** clearTimeout and clearInterval *)
Definition clearTimer (id : nat) : M World unit :=
  modify (fun w => set_timers (filter (fun t => t_id t <> id) (timers w)) w).

Definition alterSocket (i : nat) (f : Socket -> Socket) : M World unit :=
  modify (fun w => set_sockets (alter f i (sockets w)) w).

Definition alterMock (m : nat) (f : MockSocket -> MockSocket) : M World unit :=
  modify (fun w => set_mocks (alter f m (mocks w)) w).

Definition set_readyState (v : Z) (s : Socket) : Socket :=
  {| sk_url := sk_url s; sk_protocols := sk_protocols s; readyState := v;
     onopen := onopen s; onclose := onclose s; onerror := onerror s;
     onmessage := onmessage s; sent := sent s; closeCalls := closeCalls s |}.

Definition set_handlersOf (v : bool) (s : Socket) : Socket :=
  {| sk_url := sk_url s; sk_protocols := sk_protocols s; readyState := readyState s;
     onopen := v; onclose := v; onerror := v; onmessage := v;
     sent := sent s; closeCalls := closeCalls s |}.

Definition push_sent (frame : string) (s : Socket) : Socket :=
  {| sk_url := sk_url s; sk_protocols := sk_protocols s; readyState := readyState s;
     onopen := onopen s; onclose := onclose s; onerror := onerror s;
     onmessage := onmessage s; sent := sent s ++ [frame]; closeCalls := closeCalls s |}.

Definition push_closeCall (code : Z) (reason : string) (s : Socket) : Socket :=
  {| sk_url := sk_url s; sk_protocols := sk_protocols s; readyState := readyState s;
     onopen := onopen s; onclose := onclose s; onerror := onerror s;
     onmessage := onmessage s; sent := sent s;
     closeCalls := closeCalls s ++ [(code, reason)] |}.

(** new WebSocket(url, protocols) *)
Definition newWebSocket (url : string) (protos : option string) : M World nat :=
  h <- gets host ;;
  if ctorThrows h url then throw "SyntaxError"
  else
    i <- gets (fun w => length (sockets w)) ;;
    modify (fun w => set_sockets (sockets w ++
      [{| sk_url := url; sk_protocols := protos; readyState := CONNECTING;
          onopen := false; onclose := false; onerror := false; onmessage := false;
          sent := []; closeCalls := [] |}]) w) ;;
    ret i.

(** socket.send(frame): raises unless the socket is open, and when the
    transport refuses the frame. *)
Definition ws_send (i : nat) (frame : string) : M World unit :=
  s <- gets (fun w => sockets w !! i) ;;
  h <- gets host ;;
  match s with
  | None => throw "TypeError"
  | Some s =>
      if negb (Z.eqb (readyState s) OPEN) then throw "InvalidStateError"
      else if sendThrows h frame then throw "NetworkError"
      else alterSocket i (push_sent frame)
  end.

(** *** Emitter, as seen from the manager *)

Definition emit (eventName : string) (payload : Payload) : M World unit :=
  modify (fun w => set_trace (trace w ++ [(eventName, payload)]) w).

Definition orNull (s : string) : option string :=
  if Js.truthy s then Some s else None.

Definition emitStatus (isMock : bool) : M World unit :=
  st <- gets state ;;
  url <- gets lastUrl ;;
  emit "status" (PStatus st (orNull url) isMock).

(** *** createMockSocket *)

Definition mock_timeout (m : nat) : M World unit :=
  k <- gets (fun w => mocks w !! m) ;;
  match k with
  | None => ret tt
  | Some k =>
      if mk_closed k then ret tt
      else
        alterMock m (fun k => {| mk_open := true; mk_closed := mk_closed k; mk_id := mk_id k |}) ;;
        emit "open" POpenMock
  end.

Definition createMockSocket : M World nat :=
  m <- gets (fun w => length (mocks w)) ;;
  id <- setTimer (CbMockOpen m) 10 false ;;
  modify (fun w => set_mocks (mocks w ++
    [{| mk_open := false; mk_closed := false; mk_id := id |}]) w) ;;
  ret m.

Definition mock_close (m : nat) : M World unit :=
  k <- gets (fun w => mocks w !! m) ;;
  match k with
  | None => throw "TypeError"
  | Some k =>
      if mk_closed k then ret tt
      else
        alterMock m (fun k => {| mk_open := mk_open k; mk_closed := true; mk_id := mk_id k |}) ;;
        clearTimer (mk_id k) ;;
        (if mk_open k
         then emit "close" (PClose 1000 "mock closed" true true)
         else ret tt) ;;
        alterMock m (fun k => {| mk_open := false; mk_closed := mk_closed k; mk_id := mk_id k |})
  end.

Definition mock_echo (m : nat) (payload : string) : M World unit :=
  k <- gets (fun w => mocks w !! m) ;;
  match k with
  | None => ret tt
  | Some k =>
      if negb (mk_open k) || mk_closed k then ret tt
      else emit "message" (PMessage payload true)
  end.

Definition mock_send (m : nat) (data : string) : M World unit :=
  k <- gets (fun w => mocks w !! m) ;;
  match k with
  | None => throw "TypeError"
  | Some k =>
      if negb (mk_open k) || mk_closed k then ret tt
      else
        _ <- setTimer (CbMockEcho m data) 0 false ;;
        ret tt
  end.

Definition mock_readyState (k : MockSocket) : Z :=
  if mk_closed k then 3 else if mk_open k then 1 else 0.

(** *** The module's functions *)

(** ws && ws.readyState === WebSocket.OPEN *)
Definition socketIsOpen (w : World) : bool :=
  match ws w with
  | Some i =>
      match sockets w !! i with
      | Some s => Z.eqb (readyState s) OPEN
      | None => false
      end
  | None => false
  end.

(** mockWs && typeof mockWs.readyState === "number" && mockWs.readyState === 1 *)
Definition mockIsOpen (w : World) : bool :=
  match mockWs w with
  | Some m =>
      match mocks w !! m with
      | Some k => Z.eqb (mock_readyState k) 1
      | None => false
      end
  | None => false
  end.

(** Boolean(mockWs) *)
Definition hasMock (w : World) : bool :=
  match mockWs w with Some _ => true | None => false end.

(** array.slice(-n) *)
Definition sliceFromEnd {A} (n : nat) (l : list A) : list A :=
  if (n =? 0)%nat then l else drop (length l - n) l.

(** Math.floor(DEFAULTS.maxQueueSize * 0.8) *)
Definition keptOnOverflow : nat :=
  Z.to_nat (Qfloor (inject_Z (Z.of_nat DEFAULTS.maxQueueSize) * (8 # 10))).

Definition push (frame : string) : M World unit :=
  modify (fun w => set_outboundQueue (outboundQueue w ++ [frame]) w).

(** if (ws) ws.send(frame); else if (mockWs) mockWs.send(frame); *)
Definition transmit (frame : string) : M World unit :=
  s <- gets ws ;;
  match s with
  | Some i => ws_send i frame
  | None =>
      k <- gets mockWs ;;
      match k with
      | Some m => mock_send m frame
      | None => ret tt
      end
  end.

(** [frame] is None for a value that is not a string. *)
Definition sendFrame (frame : option string) : M World unit :=
  match frame with
  | None => ret tt
  | Some frame =>
      isOpen <- gets (fun w => socketIsOpen w || mockIsOpen w) ;;
      if negb isOpen then
        q <- gets outboundQueue ;;
        (if (DEFAULTS.maxQueueSize <=? length q)%nat
         then modify (set_outboundQueue (sliceFromEnd keptOnOverflow q))
         else ret tt) ;;
        push frame
      else
        try transmit frame
        catch (fun _ =>
          push frame ;;
          isMock <- gets hasMock ;;
          emit "error" (PError SendFailed isMock))
  end.

Definition flushQueue : M World unit :=
  frames <- gets outboundQueue ;;
  if (length frames =? 0)%nat then ret tt
  else
    modify (set_outboundQueue []) ;;
    forEach frames (fun f => sendFrame (Some f)).

Definition clearReconnectTimer : M World unit :=
  t <- gets reconnectTimer ;;
  match t with
  | Some id => clearTimer id ;; modify (set_reconnectTimer None)
  | None => ret tt
  end.

Definition clearHeartbeatTimer : M World unit :=
  t <- gets heartbeatTimer ;;
  match t with
  | Some id => clearTimer id ;; modify (set_heartbeatTimer None)
  | None => ret tt
  end.

Definition startHeartbeat : M World unit :=
  clearHeartbeatTimer ;;
  t <- nowMs ;;
  modify (set_lastInboundAt t) ;;
  id <- setTimer CbHeartbeat DEFAULTS.heartbeatIntervalMs true ;;
  modify (set_heartbeatTimer (Some id)).

(** Math.min(reconnectMaxMs, reconnectInitialMs * Math.pow(2, attempt)) *)
Definition backoffBase (attempt : nat) : Z :=
  Z.min DEFAULTS.reconnectMaxMs (DEFAULTS.reconnectInitialMs * 2 ^ Z.of_nat attempt).

Definition scheduleReconnect (reason : string) : M World unit :=
  sr <- gets shouldReconnect ;;
  ed <- gets explicitlyDisconnected ;;
  if negb sr || ed then ret tt
  else
    clearReconnectTimer ;;
    attempt <- gets reconnectAttempt ;;
    u <- Math_random ;;
    let delay :=
      Backoff.jitterDelay (inject_Z (backoffBase attempt)) DEFAULTS.reconnectJitterRatio u in
    id <- setTimer (CbReconnect delay reason) delay false ;;
    modify (set_reconnectTimer (Some id)).

(** The handlers internalConnect assigns to a socket. *)

Definition ws_onopen (url : string) (protos : option string) : M World unit :=
  modify (set_state Open) ;;
  modify (set_reconnectAttempt 0) ;;
  t <- nowMs ;;
  modify (set_lastOpenAt t) ;;
  t <- nowMs ;;
  modify (set_lastInboundAt t) ;;
  emitStatus false ;;
  emit "open" (POpen url protos) ;;
  startHeartbeat ;;
  flushQueue.

Definition ws_onclose (code : Z) (reason : string) (wasClean : bool) : M World unit :=
  clearHeartbeatTimer ;;
  isExplicit <- gets explicitlyDisconnected ;;
  modify (set_state Closed) ;;
  emitStatus false ;;
  emit "close" (PClose code reason wasClean false) ;;
  sr <- gets shouldReconnect ;;
  if negb isExplicit && sr then scheduleReconnect "close" else ret tt.

Definition ws_onerror : M World unit :=
  modify (set_state Error) ;;
  emitStatus false ;;
  emit "error" (PError SocketError false) ;;
  scheduleReconnect "error".

(** An inbound frame: its text, and what JSON.parse makes of it as far as
    the handler looks: [me_event] is the event field when the text parses to
    an object whose event field is a string, [me_data] the data field. *)
Record MessageEvent := {
  me_text : string;
  me_event : option string;
  me_data : string
}.

Definition ws_onmessage (ev : MessageEvent) : M World unit :=
  t <- nowMs ;;
  modify (set_lastInboundAt t) ;;
  emit "message" (PMessage (me_text ev) false) ;;
  let evtName := Url.safeTrim (me_event ev) in
  if Js.truthy evtName then emit evtName (PData (me_data ev)) else ret tt.

(** socket.close(code, reason). A browser moves an open or connecting socket
    to CLOSING and delivers the close event later; the test double sets
    CLOSED and calls onclose before it returns. *)
Definition ws_close (i : nat) (code : Z) (reason : string) : M World unit :=
  s <- gets (fun w => sockets w !! i) ;;
  h <- gets host ;;
  match s with
  | None => throw "TypeError"
  | Some s =>
      alterSocket i (push_closeCall code reason) ;;
      if syncClose h then
        alterSocket i (set_readyState CLOSED) ;;
        if onclose s then ws_onclose code reason true else ret tt
      else if Z.eqb (readyState s) CLOSING || Z.eqb (readyState s) CLOSED then ret tt
      else alterSocket i (set_readyState CLOSING)
  end.

Definition quote : string := String (ascii_of_nat 34) EmptyString.

(** JSON.stringify({ type: "ping", t }) *)
Definition pingFrame (t : Z) : string :=
  "{" ++ quote ++ "type" ++ quote ++ ":" ++ quote ++ "ping" ++ quote ++ ","
      ++ quote ++ "t" ++ quote ++ ":" ++ NilZero.string_of_int (Z.to_int t) ++ "}".

(** The function startHeartbeat hands to setInterval. *)
Definition heartbeatTick : M World unit :=
  t <- nowMs ;;
  isOpen <- gets socketIsOpen ;;
  if isOpen then
    last <- gets lastInboundAt ;;
    let staleFor := t - last in
    sendFrame (Some (pingFrame t)) ;;
    if Z.ltb DEFAULTS.staleThresholdMs staleFor then
      emit "error" (PError (Stale staleFor) false) ;;
      try
        (s <- gets ws ;;
         match s with
         | Some i => ws_close i 4000 "stale"
         | None => throw "TypeError"
         end)
      catch (fun _ => ret tt)
    else ret tt
  else ret tt.

Definition cleanupSocketRefs : M World unit :=
  s <- gets ws ;;
  (match s with
   | Some i => try alterSocket i (set_handlersOf false) catch (fun _ => ret tt)
   | None => ret tt
   end) ;;
  modify (set_ws None) ;;
  k <- gets mockWs ;;
  (match k with
   | Some m => try mock_close m catch (fun _ => ret tt)
   | None => ret tt
   end) ;;
  modify (set_mockWs None).

Definition internalConnect (options : ConnectOptions) : M World unit :=
  modify (set_connectOptions options) ;;
  modify (set_explicitlyDisconnected false) ;;
  h <- gets host ;;
  let url := Url.connectUrl (env h) (path options) in
  modify (set_lastUrl url) ;;
  let hasConfiguredUrl := Url.hasConfiguredUrl (env h) in
  let canUseReal := Url.canUseReal (env h) (path options) in
  if negb canUseReal || negb hasConfiguredUrl then
    modify (set_state Mock) ;;
    modify (set_shouldReconnect false) ;;
    modify (set_reconnectAttempt 0) ;;
    clearReconnectTimer ;;
    clearHeartbeatTimer ;;
    cleanupSocketRefs ;;
    m <- createMockSocket ;;
    modify (set_mockWs (Some m)) ;;
    emitStatus true
  else if negb (Url.hasWebSocketSupport (env h)) then
    modify (set_state Idle) ;;
    modify (set_shouldReconnect false) ;;
    emitStatus false
  else
    modify (set_shouldReconnect
              (match autoReconnect options with Some b => b | None => true end)) ;;
    modify (set_state Connecting) ;;
    emitStatus false ;;
    cleanupSocketRefs ;;
    clearHeartbeatTimer ;;
    constructed <-
      try
        (i <- newWebSocket url (protocols options) ;;
         modify (set_ws (Some i)) ;;
         ret (Some i))
      catch (fun _ =>
        modify (set_state Error) ;;
        emitStatus false ;;
        emit "error" (PError ConstructFailed false) ;;
        scheduleReconnect "constructor_failed" ;;
        ret None) ;;
    match constructed with
    | Some i => alterSocket i (set_handlersOf true)
    | None => ret tt
    end.

(** The function scheduleReconnect hands to setTimeout. *)
Definition reconnectTick : M World unit :=
  modify (fun w => set_reconnectAttempt (S (reconnectAttempt w)) w) ;;
  options <- gets connectOptions ;;
  internalConnect options.

Definition connect (options : ConnectOptions) : M World unit :=
  clearReconnectTimer ;;
  modify (set_connectOptions options) ;;
  modify (set_explicitlyDisconnected false) ;;
  options <- gets connectOptions ;;
  internalConnect options.

Definition disconnect : M World unit :=
  modify (set_explicitlyDisconnected true) ;;
  modify (set_shouldReconnect false) ;;
  clearReconnectTimer ;;
  clearHeartbeatTimer ;;
  modify (set_state Closing) ;;
  isMock <- gets hasMock ;;
  emitStatus isMock ;;
  s <- gets ws ;;
  (match s with
   | Some i => try ws_close i 1000 "client_disconnect" catch (fun _ => ret tt)
   | None => ret tt
   end) ;;
  k <- gets mockWs ;;
  (match k with
   | Some m => try mock_close m catch (fun _ => ret tt)
   | None => ret tt
   end) ;;
  cleanupSocketRefs ;;
  modify (set_state Closed) ;;
  isMock <- gets hasMock ;;
  emitStatus isMock.

(** What JSON.stringify does with an object. *)
Inductive Stringified :=
| JsonText (s : string)
| JsonUndefined
| JsonThrows (what : string).

(** An argument of send; an object is known by what JSON.stringify makes of it. *)
Inductive Message :=
| MNull
| MUndefined
| MString (s : string)
| MObject (json : Stringified)
| MOther.   (* number, boolean, function, symbol, bigint *)

Definition JSON_stringify (j : Stringified) : M World (option string) :=
  match j with
  | JsonText s => ret (Some s)
  | JsonUndefined => ret None
  | JsonThrows e => throw e
  end.

Definition send (message : Message) : M World unit :=
  match message with
  | MNull | MUndefined => ret tt
  | MString s => sendFrame (Some s)
  | MObject j =>
      try (frame <- JSON_stringify j ;; sendFrame frame)
      catch (fun _ =>
        isMock <- gets hasMock ;;
        emit "error" (PError SerializeFailed isMock))
  | MOther => ret tt
  end.

Record Status := {
  st_state : ConnectionState;
  st_url : option string;
  st_isMock : bool;
  st_reconnectAttempt : nat;
  st_lastOpenAt : option Z;
  st_lastInboundAt : option Z;
  st_queued : nat
}.

Definition getStatus (w : World) : Status :=
  {| st_state := state w;
     st_url := orNull (lastUrl w);
     st_isMock := match state w with Mock => true | _ => hasMock w end;
     st_reconnectAttempt := reconnectAttempt w;
     st_lastOpenAt := if Z.eqb (lastOpenAt w) 0 then None else Some (lastOpenAt w);
     st_lastInboundAt := if Z.eqb (lastInboundAt w) 0 then None else Some (lastInboundAt w);
     st_queued := length (outboundQueue w) |}.

(** *** One turn of the event loop *)

Definition runCallback (cb : Callback) : M World unit :=
  match cb with
  | CbMockOpen m => mock_timeout m
  | CbMockEcho m payload => mock_echo m payload
  | CbReconnect _ _ => reconnectTick
  | CbHeartbeat => heartbeatTick
  end.

(** The pending timer [id] comes due: a timeout leaves the pending list
    before its function runs, an interval stays. *)
Definition fire (id : nat) : M World unit :=
  t <- gets (fun w => find (fun t => (t_id t =? id)%nat) (timers w)) ;;
  match t with
  | None => ret tt
  | Some t =>
      (if t_repeat t then ret tt else clearTimer id) ;;
      runCallback (t_callback t)
  end.

(** The transport raises an event on socket [i]; the handler property runs
    when it is not null. *)
Definition transportOpen (i : nat) : M World unit :=
  alterSocket i (set_readyState OPEN) ;;
  s <- gets (fun w => sockets w !! i) ;;
  match s with
  | Some s => if onopen s then ws_onopen (sk_url s) (sk_protocols s) else ret tt
  | None => ret tt
  end.

Definition transportClose (i : nat) (code : Z) (reason : string) (wasClean : bool)
    : M World unit :=
  alterSocket i (set_readyState CLOSED) ;;
  s <- gets (fun w => sockets w !! i) ;;
  match s with
  | Some s => if onclose s then ws_onclose code reason wasClean else ret tt
  | None => ret tt
  end.

Definition transportError (i : nat) : M World unit :=
  s <- gets (fun w => sockets w !! i) ;;
  match s with
  | Some s => if onerror s then ws_onerror else ret tt
  | None => ret tt
  end.

Definition transportMessage (i : nat) (ev : MessageEvent) : M World unit :=
  s <- gets (fun w => sockets w !! i) ;;
  match s with
  | Some s => if onmessage s then ws_onmessage ev else ret tt
  | None => ret tt
  end.

Inductive Label :=
| Connect (options : ConnectOptions)
| Disconnect
| Send (message : Message)
| Fire (id : nat)
| TransportOpen (i : nat)
| TransportClose (i : nat) (code : Z) (reason : string) (wasClean : bool)
| TransportError (i : nat)
| TransportMessage (i : nat) (ev : MessageEvent)
| Elapse (dt : Z).

Definition step (l : Label) : M World unit :=
  match l with
  | Connect o => connect o
  | Disconnect => disconnect
  | Send m => send m
  | Fire id => fire id
  | TransportOpen i => transportOpen i
  | TransportClose i code reason wasClean => transportClose i code reason wasClean
  | TransportError i => transportError i
  | TransportMessage i ev => transportMessage i ev
  | Elapse dt => modify (fun w => set_now (now w + Z.max 0 dt) w)
  end.

Definition run (ls : list Label) (w : World) : World :=
  fold_left (fun w l => exec (step l) w) ls w.


(** The events of name [n] emitted after the first [k] of the trace. *)
Definition emittedSince (k : nat) (n : string) (w : World) : list Event :=
  filter (fun e => fst e = n) (drop k (trace w)).

(** The frame a message becomes, when it becomes one. *)
Definition frameOf (m : Message) : option string :=
  match m with
  | MString s => Some s
  | MObject (JsonText s) => Some s
  | _ => None
  end.


(** The queue after sendFrame has queued [frame] behind [q]. *)
Definition enqueued (q : list string) (frame : string) : list string :=
  (if (DEFAULTS.maxQueueSize <=? length q)%nat
   then sliceFromEnd keptOnOverflow q else q) ++ [frame].


(** What the open handler relies on while it runs. *)
Definition flushing (i : nat) (s : Socket) (q : list string) (h : Host) (w : World) : Prop :=
  ws w = Some i /\ sockets w !! i = Some s /\ outboundQueue w = q /\ host w = h
  /\ state w = Open.


(** The destination as the specification words it, for a call of
    connect() in the initial state: without a configured address the
    address inferred from the page origin is the one the real connection
    uses, and Mock is entered only when network support is missing or no
    address is usable. *)
Definition resolvesAsSpecified (h : Host) (o : ConnectOptions) : Prop :=
  let e := env h in
  let w' := exec (connect o) (init h) in
  (Url.hasConfiguredUrl e = false ->
   Url.hasWebSocketSupport e = true ->
   Url.connectUrl e (path o) <> "" ->
   exists i s, ws w' = Some i /\ sockets w' !! i = Some s
               /\ sk_url s = Url.connectUrl e (path o))
  /\ (state w' = Mock ->
      Url.hasWebSocketSupport e = false \/ Url.connectUrl e (path o) = "").

(** *** Invariants of the manager's state *)

Definition wired (s : Socket) : bool :=
  onopen s && onclose s && onerror s && onmessage s.

Definition anyHandler (s : Socket) : bool :=
  onopen s || onclose s || onerror s || onmessage s.

Definition isReconnect (cb : Callback) : bool :=
  match cb with CbReconnect _ _ => true | _ => false end.

Definition isHeartbeat (cb : Callback) : bool :=
  match cb with CbHeartbeat => true | _ => false end.

(** Only the current socket has handlers, and it has all four. *)
Definition SocketsInv (w : World) : Prop :=
  (forall j s, sockets w !! j = Some s -> anyHandler s = true -> ws w = Some j)
  /\ (forall i, ws w = Some i -> exists s, sockets w !! i = Some s /\ wired s = true).

(** Every mock but the current one is closed. *)
Definition MocksInv (w : World) : Prop :=
  forall m k, mocks w !! m = Some k -> mk_closed k = false -> mockWs w = Some m.

(** At most one transport. *)
Definition OneTransport (w : World) : Prop :=
  ws w = None \/ mockWs w = None.

(** The only pending reconnect timer is the one in reconnectTimer, the
    only pending heartbeat the one in heartbeatTimer. *)
Definition TimersInv (w : World) : Prop :=
  forall t, t ∈ timers w ->
    (isReconnect (t_callback t) = true -> reconnectTimer w = Some (t_id t))
    /\ (isHeartbeat (t_callback t) = true -> heartbeatTimer w = Some (t_id t)).

Definition Inv (w : World) : Prop :=
  SocketsInv w /\ MocksInv w /\ OneTransport w /\ TimersInv w.

(** No transport is left that could call back into the manager. *)
Definition Detached (w : World) : Prop :=
  (forall j s, sockets w !! j = Some s -> anyHandler s = false)
  /\ ws w = None
  /\ (forall m k, mocks w !! m = Some k -> mk_closed k = true)
  /\ mockWs w = None.



(** What disconnect() has done to the variables that drive the timers. *)
Definition Halted (w : World) : Prop :=
  explicitlyDisconnected w = true
  /\ reconnectTimer w = None
  /\ heartbeatTimer w = None.


(** An update of a socket that leaves its handler properties alone. *)
Definition keepsHandlers (f : Socket -> Socket) : Prop :=
  forall s, onopen (f s) = onopen s /\ onclose (f s) = onclose s
            /\ onerror (f s) = onerror s /\ onmessage (f s) = onmessage s.

(** An update of a mock that does not reopen it. *)
Definition keepsClosed (f : MockSocket -> MockSocket) : Prop :=
  forall k, mk_closed (f k) = false -> mk_closed k = false.

(** The states the manager can be in: those some sequence of calls, timer
    firings and transport events leads to from the initial one. *)
Definition reachable (w : World) : Prop :=
  exists h ls, w = run ls (init h).

(** *** Pieces of internalConnect and further invariants *)

(** The last statement of the real branch of internalConnect: the try
    around the construction of the socket, and the assignment of the four
    handlers to the socket constructed. *)
Definition constructSocket (url : string) (protos : option string) : M World unit :=
  (constructed <-
     try
       (i <- newWebSocket url protos ;;
        modify (set_ws (Some i)) ;;
        ret (Some i))
     catch (fun _ =>
       modify (set_state Error) ;;
       emitStatus false ;;
       emit "error" (PError ConstructFailed false) ;;
       scheduleReconnect "constructor_failed" ;;
       ret None) ;;
   match constructed with
   | Some i => alterSocket i (set_handlersOf true)
   | None => ret tt
   end)%eff.

(** The socket internalConnect leaves in [ws] when the constructor returns. *)
Definition freshSocket (url : string) (protos : option string) : Socket :=
  {| sk_url := url; sk_protocols := protos; readyState := CONNECTING;
     onopen := true; onclose := true; onerror := true; onmessage := true;
     sent := []; closeCalls := [] |}.

(** The condition under which internalConnect takes the real branch. *)
Definition realHost (h : Host) (p : option string) : bool :=
  Url.canUseReal (env h) p && Url.hasConfiguredUrl (env h).

(** Timer ids are handed out in increasing order: a pending timer has an
    id below the next one, and no two pending timers share an id. *)
Definition TimerFresh (w : World) : Prop :=
  (forall t, t ∈ timers w -> (t_id t < nextTimerId w)%nat)
  /\ NoDup (map t_id (timers w)).

(** The pending timers whose function is of one kind. *)
Definition pending (kind : Callback -> bool) (w : World) : list Timer :=
  List.filter (fun t => kind (t_callback t)) (timers w).

(** The variables that neither the timers nor the bookkeeping of the
    transports touch are the same in two states. *)
Definition sameSettings (w w' : World) : Prop :=
  host w' = host w /\ state w' = state w /\ connectOptions w' = connectOptions w
  /\ lastUrl w' = lastUrl w /\ shouldReconnect w' = shouldReconnect w
  /\ reconnectAttempt w' = reconnectAttempt w
  /\ explicitlyDisconnected w' = explicitlyDisconnected w
  /\ outboundQueue w' = outboundQueue w /\ lastInboundAt w' = lastInboundAt w
  /\ lastOpenAt w' = lastOpenAt w /\ now w' = now w
  /\ randomCalls w' = randomCalls w /\ nextTimerId w' = nextTimerId w.

(** The state internalConnect has made when it reaches the branch. *)
Definition entered (o : ConnectOptions) (w : World) : World :=
  set_lastUrl (Url.connectUrl (env (host w)) (path o))
    (set_explicitlyDisconnected false (set_connectOptions o w)).

(** The transport takes every frame, the invariants of the manager hold
    and the queue is within its capacity. *)
Definition Bounded (w : World) : Prop :=
  (forall f, sendThrows (host w) f = false)
  /\ Inv w
  /\ (length (outboundQueue w) <= DEFAULTS.maxQueueSize)%nat.


(** The state the last status event emitted by emitStatus carried, if there
    was one. (An inbound frame can ask for an event of any name, "status"
    included; its payload is the frame's data, not a status.) *)
Definition announcedState (tr : list Event) : option ConnectionState :=
  last (omap (fun e : Event =>
                match snd e with PStatus st _ _ => Some st | _ => None end) tr).

(** The subscribers of status know the state: the last status event carries
    it, or the state is still the initial one and no status was emitted. *)
Definition Announced (w : World) : Prop :=
  match announcedState (trace w) with
  | Some st => st = state w
  | None => state w = Idle
  end.

(** A payload other than that of a status event. *)
Definition notStatus (p : Payload) : Prop :=
  match p with PStatus _ _ _ => False | _ => True end.

End Client.

(** ** once()

    once(eventName) subscribes a closure of its own, known here by the
    identity [h]: called, it unsubscribes itself and resolves the promise.
    subscribe and unsubscribe are emitter.on and emitter.off. *)
Module Once.

Import Emitter.

(** What the closure does when the emitter calls it. *)
Definition handler (eventName : string) (h : HandlerId) : list Effect :=
  [Unsubscribe eventName h].

Definition once (eventName : string) (h : HandlerId) : M St unit :=
  on eventName h.

End Once.


(** ** Concrete surroundings used in examples *)
Module Examples.

Import Client.

(** A page served from http://localhost, as the test environment has it. *)
Definition page : Url.Window :=
  {| Url.location := Some {| Url.protocol := "http:"; Url.host := "localhost" |};
     Url.hasWebSocket := true |}.

(** No address configured. *)
Definition offline : Host :=
  {| env := {| Url.REACT_APP_WS_URL := None; Url.window := Some page |};
     ctorThrows := fun _ => false;
     syncClose := true;
     sendThrows := fun _ => false;
     random := fun _ => 1 # 2 |}.

(** REACT_APP_WS_URL = "ws://example.test" and a transport that works. *)
Definition online : Host :=
  {| env := {| Url.REACT_APP_WS_URL := Some "ws://example.test"; Url.window := Some page |};
     ctorThrows := fun _ => false;
     syncClose := false;
     sendThrows := fun _ => false;
     random := fun _ => 1 # 2 |}.

(** The same address, and a transport whose send raises on every frame. *)
Definition refusing : Host :=
  {| env := {| Url.REACT_APP_WS_URL := Some "ws://example.test"; Url.window := Some page |};
     ctorThrows := fun _ => false;
     syncClose := false;
     sendThrows := fun _ => true;
     random := fun _ => 1 # 2 |}.

Definition defaultOptions : ConnectOptions :=
  {| path := None; protocols := None; autoReconnect := None |}.

Definition wsPath : ConnectOptions :=
  {| path := Some "/ws"; protocols := None; autoReconnect := None |}.

End Examples.

(** * Proofs *)

Local Open Scope list_scope.

(** ** Reasoning about computations *)
Section EffFacts.

Context {S : Type}.

Lemma exec_bind {A B} (m : M S A) (k : A -> M S B) s :
  exec (bind m k) s =
  match outcome m s with
  | Ok a => exec (k a) (exec m s)
  | Throw _ => exec m s
  end.
Proof. unfold exec, outcome, bind. destruct (m s) as [[a|e] s']; reflexivity. Qed.

Lemma outcome_bind {A B} (m : M S A) (k : A -> M S B) s :
  outcome (bind m k) s =
  match outcome m s with
  | Ok a => outcome (k a) (exec m s)
  | Throw e => Throw e
  end.
Proof. unfold exec, outcome, bind. destruct (m s) as [[a|e] s']; reflexivity. Qed.

Lemma exec_try {A} (m : M S A) (h : string -> M S A) s :
  exec (try_catch m h) s =
  match outcome m s with
  | Ok _ => exec m s
  | Throw e => exec (h e) (exec m s)
  end.
Proof. unfold exec, outcome, try_catch. destruct (m s) as [[a|e] s']; reflexivity. Qed.

Lemma outcome_try {A} (m : M S A) (h : string -> M S A) s :
  outcome (try_catch m h) s =
  match outcome m s with
  | Ok a => Ok a
  | Throw e => outcome (h e) (exec m s)
  end.
Proof. unfold exec, outcome, try_catch. destruct (m s) as [[a|e] s']; reflexivity. Qed.

Lemma preserves_ret {A} (P : S -> Prop) (a : A) : preserves P (ret a).
Proof. intros s H. exact H. Qed.

Lemma preserves_throw {A} (P : S -> Prop) e : preserves P (@throw S A e).
Proof. intros s H. exact H. Qed.

Lemma preserves_gets {A} (P : S -> Prop) (f : S -> A) : preserves P (gets f).
Proof. intros s H. exact H. Qed.

Lemma preserves_modify (P : S -> Prop) (f : S -> S) :
  (forall s, P s -> P (f s)) -> preserves P (modify f).
Proof. intros Hf s H. apply Hf, H. Qed.

Lemma preserves_bind {A B} (P : S -> Prop) (m : M S A) (k : A -> M S B) :
  preserves P m -> (forall a, preserves P (k a)) -> preserves P (bind m k).
Proof.
  intros Hm Hk s H. rewrite exec_bind.
  destruct (outcome m s); [apply Hk|]; apply Hm, H.
Qed.


Lemma preserves_try {A} (P : S -> Prop) (m : M S A) (h : string -> M S A) :
  preserves P m -> (forall e, preserves P (h e)) -> preserves P (try_catch m h).
Proof.
  intros Hm Hh s H. rewrite exec_try.
  destruct (outcome m s); [|apply Hh]; apply Hm, H.
Qed.

Lemma preserves_forEach {A} (P : S -> Prop) (l : list A) (f : A -> M S unit) :
  (forall x, preserves P (f x)) -> preserves P (forEach l f).
Proof.
  intros Hf. induction l as [|x l IH]; cbn [forEach].
  - apply preserves_ret.
  - apply preserves_bind; [apply Hf | intros _; exact IH].
Qed.

Lemma preserves_and {A} (P Q : S -> Prop) (m : M S A) :
  preserves P m -> preserves Q m -> preserves (fun s => P s /\ Q s) m.
Proof. intros HP HQ s [H1 H2]. split; [apply HP | apply HQ]; assumption. Qed.

Lemma safe_ret {A} (a : A) : safe (@ret S A a).
Proof. intros s. exists a. reflexivity. Qed.

Lemma safe_gets {A} (f : S -> A) : safe (gets f).
Proof. intros s. exists (f s). reflexivity. Qed.

Lemma safe_modify (f : S -> S) : safe (modify f).
Proof. intros s. exists tt. reflexivity. Qed.

Lemma safe_bind {A B} (m : M S A) (k : A -> M S B) :
  safe m -> (forall a, safe (k a)) -> safe (bind m k).
Proof.
  intros Hm Hk s. rewrite outcome_bind.
  destruct (Hm s) as [a ->]. apply Hk.
Qed.

(** A handler that returns makes the whole try statement return. *)
Lemma safe_try {A} (m : M S A) (h : string -> M S A) :
  (forall e, safe (h e)) -> safe (try_catch m h).
Proof.
  intros Hh s. rewrite outcome_try.
  destruct (outcome m s) as [a|e]; [exists a; reflexivity | apply Hh].
Qed.

Lemma safe_forEach {A} (l : list A) (f : A -> M S unit) :
  (forall x, safe (f x)) -> safe (forEach l f).
Proof.
  intros Hf. induction l as [|x l IH]; cbn [forEach].
  - apply safe_ret.
  - apply safe_bind; [apply Hf | intros _; exact IH].
Qed.

Lemma establishes_bind {A B} (P Q : S -> Prop) (m : M S A) (k : A -> M S B) :
  safe m -> preserves P m -> (forall a, establishes P (k a) Q) ->
  establishes P (bind m k) Q.
Proof.
  intros Hs Hm Hk s H. rewrite exec_bind. destruct (Hs s) as [a ->].
  apply Hk, Hm, H.
Qed.

Lemma establishes_then {A B} (P R Q : S -> Prop) (m : M S A) (k : A -> M S B) :
  safe m -> establishes P m R -> (forall a, preserves R (k a)) ->
  (forall s, R s -> Q s) ->
  establishes P (bind m k) Q.
Proof.
  intros Hs Hm Hk HQ s H. rewrite exec_bind. destruct (Hs s) as [a ->].
  apply HQ, Hk, Hm, H.
Qed.

Lemma safe_unit (m : M S unit) s : safe m -> outcome m s = Ok tt.
Proof. intros H. destruct (H s) as [[] ->]. reflexivity. Qed.

End EffFacts.

(** Splits a goal [preserves P m] or [safe m] along the structure of [m];
    what is left are the calls of named functions and the assignments. *)
Ltac eff_step :=
  match goal with
  | |- preserves _ (bind _ _) => apply preserves_bind; [|intros ?]
  | |- preserves _ (ret _) => apply preserves_ret
  | |- preserves _ (throw _) => apply preserves_throw
  | |- preserves _ (gets _) => apply preserves_gets
  | |- preserves _ (try_catch _ _) => apply preserves_try; [|intros ?]
  | |- preserves _ (forEach _ _) => apply preserves_forEach; intros ?
  | |- preserves _ (match ?x with _ => _ end) => destruct x
  | |- safe (bind _ _) => apply safe_bind; [|intros ?]
  | |- safe (ret _) => apply safe_ret
  | |- safe (gets _) => apply safe_gets
  | |- safe (modify _) => apply safe_modify
  | |- safe (try_catch _ _) => apply safe_try; intros ?
  | |- safe (forEach _ _) => apply safe_forEach; intros ?
  | |- safe (match ?x with _ => _ end) => destruct x
  end.

Ltac eff := repeat eff_step.

(** The function a term applies. *)
Ltac head t := lazymatch t with ?f _ => head f | _ => t end.

(** Runs a computation written with the combinators on a symbolic state. *)
Ltac eff_run :=
  unfold preserves, safe, exec, outcome, bind, ret, gets, modify, throw, try_catch in *;
  cbn [fst snd] in *.

(** ** Event emitter *)
Section EmitterFacts.

Import Emitter.

Lemma setAdd_NoDup h s : NoDup s -> NoDup (setAdd h s).
Proof.
  intros H. unfold setAdd. destruct (decide (h ∈ s)) as [|Hn]; [exact H|].
  apply NoDup_app. split; [exact H|]. split.
  - intros x Hx Hx'. apply list_elem_of_singleton in Hx'. subst. contradiction.
  - apply NoDup_singleton.
Qed.

Lemma setDelete_NoDup h s : NoDup s -> NoDup (setDelete h s).
Proof. intros H. unfold setDelete. apply NoDup_filter, H. Qed.

Lemma on_distinct n h : preserves setsDistinct (on n h).
Proof.
  unfold on, getSet. eff_run. intros st H.
  destruct (handlers st !! n) as [s|] eqn:E; cbn [fst snd];
    intros n' s'; unfold set_handlers; cbn [handlers];
    rewrite lookup_insert; destruct (decide (n = n')) as [->|Hne];
    try (rewrite lookup_insert_ne by exact Hne); try apply H.
  - intros [= <-]. apply setAdd_NoDup. apply (H _ _ E).
  - intros [= <-]. apply setAdd_NoDup, NoDup_nil_2.
Qed.

Lemma off_distinct n h : preserves setsDistinct (off n h).
Proof.
  unfold off. eff_run. intros st H.
  destruct (handlers st !! n) as [s|] eqn:E; cbn [fst snd]; [|exact H].
  intros n' s'. unfold set_handlers; cbn [handlers]. rewrite lookup_insert. destruct (decide (n = n')) as [->|Hne].
  - intros [= <-]. apply setDelete_NoDup. apply (H _ _ E).
  - apply H.
Qed.

Lemma runEffects_distinct es : preserves setsDistinct (runEffects es).
Proof.
  induction es as [|[n h|n h|e] es IH]; cbn [runEffects]; eff;
    auto using on_distinct, off_distinct.
Qed.

Lemma emit_distinct b n : preserves setsDistinct (emit b n).
Proof.
  unfold emit. eff.
  - unfold call. eff; [|apply runEffects_distinct].
    apply preserves_modify. intros st H. exact H.
  - unfold warn. apply preserves_modify. intros st H. exact H.
Qed.

Lemma run_distinct b ops : setsDistinct (run b ops).
Proof.
  unfold run.
  assert (Hinit : setsDistinct init).
  { intros n s. cbn. rewrite lookup_empty. discriminate. }
  revert Hinit. generalize init. induction ops as [|o ops IH]; intros st H; cbn.
  - exact H.
  - apply IH. destruct o; cbn [perform].
    + apply on_distinct, H.
    + apply off_distinct, H.
    + apply emit_distinct, H.
Qed.

(** Whatever a handler does to the registry, the log of invocations is
    the emitter's own. *)
Lemma runEffects_calls es c :
  preserves (fun st => calls st = c) (runEffects es).
Proof.
  induction es as [|[n h|n h|e] es IH]; cbn [runEffects]; eff; try exact IH.
  - unfold on, getSet. eff; apply preserves_modify; intros st H; exact H.
  - unfold off. eff; apply preserves_modify; intros st H; exact H.
Qed.

(** One round of the dispatch loop: the handler is invoked once, and the
    round returns whether the handler raises or not. *)
Lemma dispatch_one b n fn st :
  let body := try_catch (call b n fn) (warn n) in
  outcome body st = Ok tt /\ calls (exec body st) = calls st ++ [(n, fn)].
Proof.
  cbn zeta. rewrite outcome_try, exec_try.
  assert (Hc : calls (exec (call b n fn) st) = calls st ++ [(n, fn)]).
  { unfold call. rewrite exec_bind. cbn [outcome modify fst].
    apply (runEffects_calls (b fn)). reflexivity. }
  destruct (outcome (call b n fn) st) as [[]|e]; split; auto.
Qed.

Lemma dispatch_all b n l : forall st,
  let loop := forEach l (fun fn => try_catch (call b n fn) (warn n)) in
  outcome loop st = Ok tt /\ calls (exec loop st) = calls st ++ map (pair n) l.
Proof.
  induction l as [|fn l IH]; intros st; cbn zeta; cbn [forEach map].
  - split; [reflexivity|]. cbn. rewrite app_nil_r. reflexivity.
  - rewrite outcome_bind, exec_bind.
    destruct (dispatch_one b n fn st) as [-> Hc].
    destruct (IH (exec (try_catch (call b n fn) (warn n)) st)) as [Ho Hc'].
    split; [exact Ho|]. rewrite Hc', Hc, <- app_assoc. reflexivity.
Qed.

Lemma emit_calls b n st :
  outcome (emit b n) st = Ok tt
  /\ calls (exec (emit b n) st) = calls st ++ map (pair n) (subscribed st n).
Proof.
  unfold emit, subscribed. rewrite outcome_bind, exec_bind. cbn [outcome gets fst exec snd].
  destruct (handlers st !! n) as [s|]; cbn [default].
  - destruct s as [|h s]; [cbn; rewrite app_nil_r; auto|].
    cbn [length Nat.eqb]. apply dispatch_all.
  - cbn. rewrite app_nil_r. auto.
Qed.

Lemma invocations_distinct n h s :
  NoDup s ->
  invocations n h (map (pair n) s) = if decide (h ∈ s) then 1%nat else 0%nat.
Proof.
  unfold invocations. induction 1 as [|x s Hx Hs IH]; [reflexivity|].
  cbn [map]. rewrite filter_cons.
  destruct (decide ((n, x) = (n, h))) as [[= ->]|Hne].
  - cbn [length]. rewrite IH.
    destruct (decide (h ∈ s)); [contradiction|].
    destruct (decide (h ∈ h :: s)) as [|Hn]; [reflexivity|].
    exfalso. apply Hn. left.
  - rewrite IH. destruct (decide (h ∈ s)) as [Hin|Hnin].
    + destruct (decide (h ∈ x :: s)) as [|Hn]; [reflexivity|].
      exfalso. apply Hn. right. exact Hin.
    + destruct (decide (h ∈ x :: s)) as [Hin|]; [|reflexivity].
      apply elem_of_cons in Hin as [->|Hin]; [congruence | contradiction].
Qed.

(** A handler that raises does end its own call with the exception. *)
Lemma call_raises b n fn st what rest :
  b fn = Raise what :: rest -> outcome (call b n fn) st = Throw what.
Proof. intros H. unfold call. rewrite outcome_bind. cbn. rewrite H. reflexivity. Qed.

(** One dispatch of three unruly handlers: all three are invoked, in the
    order of the snapshot; the raise of the second is logged and goes no
    further; the handler subscribed meanwhile is not invoked, and the
    registry afterwards holds what the handlers left. *)
Example unruly_dispatch :
  let st := run unruly [OpOn "tick" 1%nat; OpOn "tick" 2%nat; OpOn "tick" 3%nat] in
  outcome (emit unruly "tick") st = Ok tt
  /\ calls (exec (emit unruly "tick") st)
     = [("tick", 1%nat); ("tick", 2%nat); ("tick", 3%nat)]
  /\ warnings (exec (emit unruly "tick") st) = [("tick", "boom")]
  /\ subscribed (exec (emit unruly "tick") st) "tick" = [2%nat; 4%nat].
Proof. vm_compute. repeat split. Qed.

(** C9. In any registry that subscriptions, removals and dispatches can
    produce, a dispatch invokes the handlers of the snapshot taken when it
    began, in that order and nothing else: each handler subscribed at that
    moment exactly once, a handler that was not subscribed then not at all,
    whatever the handlers subscribe or unsubscribe while it runs. *)
Theorem emit_invokes_snapshot_once
    (b : Behaviour) (ops : list Op) (eventName : string) (h : HandlerId) :
  let st := run b ops in
  let st' := exec (emit b eventName) st in
  callsSince (length (calls st)) st' = map (pair eventName) (subscribed st eventName)
  /\ invocations eventName h (callsSince (length (calls st)) st')
     = if decide (h ∈ subscribed st eventName) then 1%nat else 0%nat.
Proof.
  cbn zeta. unfold callsSince.
  destruct (emit_calls b eventName (run b ops)) as [_ ->].
  rewrite drop_app_length. split; [reflexivity|].
  apply invocations_distinct. unfold subscribed.
  destruct (handlers (run b ops) !! eventName) as [s|] eqn:E; cbn.
  - apply (run_distinct b ops _ _ E).
  - apply NoDup_nil_2.
Qed.

(** C10. Whatever the handlers do, raising included, dispatch returns to
    the code that emitted the event, and it has invoked every handler of
    the event: a raise ends the handler that raised, not the loop. *)
Theorem emit_contains_handler_errors
    (b : Behaviour) (st : St) (eventName : string) :
  outcome (emit b eventName) st = Ok tt
  /\ callsSince (length (calls st)) (exec (emit b eventName) st)
     = map (pair eventName) (subscribed st eventName).
Proof.
  destruct (emit_calls b eventName st) as [Ho Hc]. split; [exact Ho|].
  unfold callsSince. rewrite Hc, drop_app_length. reflexivity.
Qed.

End EmitterFacts.

(** Reads a variable back through the assignments made to the state. *)
Ltac wsimpl :=
  cbn [fst snd
       Client.host Client.ws Client.mockWs Client.state Client.connectOptions
       Client.lastUrl Client.shouldReconnect Client.reconnectAttempt
       Client.reconnectTimer Client.heartbeatTimer Client.lastInboundAt
       Client.lastOpenAt Client.explicitlyDisconnected Client.outboundQueue
       Client.sockets Client.mocks Client.timers Client.nextTimerId Client.now
       Client.randomCalls Client.trace Client.set_ws Client.set_mockWs
       Client.set_state Client.set_connectOptions Client.set_lastUrl
       Client.set_shouldReconnect Client.set_reconnectAttempt
       Client.set_reconnectTimer Client.set_heartbeatTimer Client.set_lastInboundAt
       Client.set_lastOpenAt Client.set_explicitlyDisconnected
       Client.set_outboundQueue Client.set_sockets Client.set_mocks
       Client.set_timers Client.set_nextTimerId Client.set_now
       Client.set_randomCalls Client.set_trace Client.sk_url Client.sk_protocols
       Client.readyState Client.onopen Client.onclose Client.onerror
       Client.onmessage Client.sent Client.closeCalls Client.set_readyState
       Client.set_handlersOf Client.push_sent Client.push_closeCall Client.mk_open
       Client.mk_closed Client.mk_id Client.t_id Client.t_callback Client.t_delay
       Client.t_repeat] in *.

(** Runs a function of the manager on a symbolic state. *)
Ltac crun := eff_run; wsimpl.


(** ** Connection manager: sending *)
Section SendFacts.

Import Client.

Lemma emit_safe n p : safe (emit n p).
Proof. unfold emit. eff. Qed.

Lemma push_safe f : safe (push f).
Proof. unfold push. eff. Qed.

Lemma sendFrame_safe frame : safe (sendFrame frame).
Proof.
  unfold sendFrame. eff; auto using push_safe, emit_safe.
Qed.

Lemma send_safe message : safe (send message).
Proof.
  unfold send. eff; auto using sendFrame_safe, emit_safe.
Qed.

(** A transmission that raises has changed nothing. *)
Lemma transmit_throw frame what w :
  outcome (transmit frame) w = Throw what -> exec (transmit frame) w = w.
Proof.
  unfold transmit, ws_send, mock_send, setTimer, alterSocket. crun.
  destruct (ws w) as [i|]; wsimpl.
  - destruct (sockets w !! i) as [s|]; wsimpl; [|reflexivity].
    destruct (negb _); wsimpl; [reflexivity|].
    destruct (sendThrows _ _); wsimpl; [reflexivity | discriminate].
  - destruct (mockWs w) as [m|]; wsimpl; [|discriminate].
    destruct (mocks w !! m) as [k|]; wsimpl; [|reflexivity].
    destruct (_ || _); wsimpl; discriminate.
Qed.

(** C8. send returns for every message. A message that cannot be
    serialized leaves the queue as it was and becomes one error event; a
    frame whose transmission raises is appended to the queue and becomes
    one error event. *)
Theorem send_never_throws (w : World) (message : Message) :
  outcome (send message) w = Ok tt
  /\ (forall what, message = MObject (JsonThrows what) ->
        trace (exec (send message) w)
          = trace w ++ [("error", PError SerializeFailed (hasMock w))]
        /\ outboundQueue (exec (send message) w) = outboundQueue w)
  /\ (forall frame what,
        frameOf message = Some frame ->
        socketIsOpen w || mockIsOpen w = true ->
        outcome (transmit frame) w = Throw what ->
        outboundQueue (exec (send message) w) = outboundQueue w ++ [frame]
        /\ trace (exec (send message) w)
             = trace w ++ [("error", PError SendFailed (hasMock w))]).
Proof.
  split; [apply safe_unit, send_safe|]. split.
  - intros what ->. split; reflexivity.
  - intros frame what Hf Hopen Hthrow.
    assert (Hs : exec (send message) w = exec (sendFrame (Some frame)) w).
    { destruct message as [| |s|[s| |e]|]; try discriminate Hf;
        injection Hf as <-; [reflexivity|].
      unfold send. rewrite exec_try, outcome_bind. cbn [JSON_stringify outcome ret fst].
      rewrite exec_bind. cbn [JSON_stringify outcome ret fst exec snd].
      rewrite (safe_unit _ _ (sendFrame_safe (Some s))). reflexivity. }
    rewrite Hs. unfold sendFrame. rewrite exec_bind.
    cbn [outcome gets fst exec snd]. rewrite Hopen. cbn [negb].
    rewrite exec_try, Hthrow, (transmit_throw _ _ _ Hthrow).
    split; reflexivity.
Qed.

Lemma send_never_throws_witness :
  let w := exec (transportOpen 0) (exec (connect Examples.wsPath) (init Examples.refusing)) in
  outcome (transmit "hello") w = Throw "NetworkError"
  /\ outboundQueue (exec (send (MString "hello")) w) = outboundQueue w ++ ["hello"]
  /\ trace (exec (send (MString "hello")) w)
       = trace w ++ [("error", PError SendFailed (hasMock w))].
Proof.
  cbn zeta. split; [reflexivity|].
  apply (proj2 (proj2 (send_never_throws _ (MString "hello"))) "hello" "NetworkError");
    reflexivity.
Defined.

(** C3, at the input where the code leaves the bound. With a transport
    that is open and refuses every frame, the 201st send leaves 201 frames
    in the queue: the failure branch of sendFrame appends without looking
    at the capacity. *)
Theorem requeue_on_failure_exceeds_capacity :
  let w := run (Connect Examples.wsPath :: TransportOpen 0
                  :: repeat (Send (MString "x")) 201) (init Examples.refusing) in
  state w = Open
  /\ length (outboundQueue w) = 201%nat
  /\ (DEFAULTS.maxQueueSize < length (outboundQueue w))%nat.
Proof. vm_compute. repeat split. lia. Qed.

(** Enqueueing while the transport is not open does keep the bound, drops
    from the front only and keeps the frame that was just submitted. *)
Lemma enqueue_bounded (w : World) (frame : string) :
  socketIsOpen w || mockIsOpen w = false ->
  let q := outboundQueue w in
  let q' := outboundQueue (exec (sendFrame (Some frame)) w) in
  q' = (if (DEFAULTS.maxQueueSize <=? length q)%nat
        then sliceFromEnd keptOnOverflow q else q) ++ [frame]
  /\ ((length q <= DEFAULTS.maxQueueSize)%nat -> (length q' <= DEFAULTS.maxQueueSize)%nat).
Proof.
  intros Hopen. cbn zeta. unfold sendFrame, push. crun. rewrite Hopen. cbn [negb].
  destruct (DEFAULTS.maxQueueSize <=? length (outboundQueue w))%nat eqn:E; wsimpl.
  - split; [reflexivity|]. intros _. rewrite length_app. cbn [length].
    unfold sliceFromEnd. change keptOnOverflow with 160%nat. cbn [Nat.eqb].
    rewrite length_drop. unfold DEFAULTS.maxQueueSize. lia.
  - split; [reflexivity|]. intros _. rewrite length_app. cbn [length].
    apply Nat.leb_gt in E. lia.
Qed.

(** C1, at the input where the code falls short. No address is
    configured; connect() starts the mock, two frames are queued before the
    mock opens, the mock's timer fires and announces open. Nothing flushes
    the queue: both frames stay in it, no timer is pending that could echo
    them, and no message event has been emitted. *)
Theorem mock_open_does_not_flush (a b : string) :
  let w := run [Connect Examples.defaultOptions; Send (MString a); Send (MString b)]
               (init Examples.offline) in
  let w' := exec (fire 1) w in
  state w = Mock
  /\ outboundQueue w = [a; b]
  /\ emittedSince 0 "open" w' = [("open", POpenMock)]
  /\ mockIsOpen w' = true
  /\ outboundQueue w' = [a; b]
  /\ timers w' = []
  /\ emittedSince 0 "message" w' = [].
Proof. cbn zeta. repeat split. Qed.

End SendFacts.

(** ** Backoff *)
Section BackoffFacts.

Import Client.






End BackoffFacts.

(** ** Connection manager: general facts *)

Create HintDb client discriminated.

#[local] Hint Unfold
  Client.emit Client.emitStatus Client.nowMs Client.Math_random Client.setTimer
  Client.clearTimer Client.alterSocket Client.alterMock Client.newWebSocket
  Client.ws_send Client.mock_timeout Client.createMockSocket Client.mock_close
  Client.mock_echo Client.mock_send Client.transmit Client.push Client.sendFrame
  Client.flushQueue Client.clearReconnectTimer Client.clearHeartbeatTimer
  Client.startHeartbeat Client.scheduleReconnect Client.ws_onopen Client.ws_onclose
  Client.ws_onerror Client.ws_onmessage Client.ws_close Client.heartbeatTick
  Client.cleanupSocketRefs Client.internalConnect Client.reconnectTick Client.connect
  Client.disconnect Client.JSON_stringify Client.send Client.runCallback Client.fire
  Client.transportOpen Client.transportClose Client.transportError
  Client.transportMessage Client.step : client.

(** Proves [safe m] for a function of the manager whose raises are all
    inside try statements. *)
Ltac safety := repeat first [ eff_step | progress autounfold with client ].

(** Proves [preserves P m] along the structure of [m]; [leaf] has to show
    that an assignment keeps [P]. *)
Ltac frame_with leaf :=
  repeat lazymatch goal with
  | |- preserves _ (modify _) => apply preserves_modify; intros ? ?; wsimpl; leaf
  | |- preserves _ ?m => first [ eff_step | let h := head m in unfold h ]
  end.

(** The case where [P] speaks of variables [m] does not write. *)
Ltac frame := frame_with ltac:(auto; fail).

Section ClientFacts.

Import Client.

(** Nothing the manager does escapes as an exception: every turn of the
    event loop returns. *)
Lemma step_safe l : safe (step l).
Proof. destruct l; safety. Qed.


Lemma internalConnect_safe o : safe (internalConnect o).
Proof. safety. Qed.

Lemma disconnect_safe : safe disconnect.
Proof. safety. Qed.

Lemma flushQueue_safe : safe flushQueue.
Proof. safety. Qed.

Lemma startHeartbeat_safe : safe startHeartbeat.
Proof. safety. Qed.

Lemma scheduleReconnect_safe r : safe (scheduleReconnect r).
Proof. safety. Qed.

Lemma ws_onclose_safe c r k : safe (ws_onclose c r k).
Proof. safety. Qed.

Lemma cleanupSocketRefs_safe : safe cleanupSocketRefs.
Proof. safety. Qed.

Lemma clearReconnectTimer_safe : safe clearReconnectTimer.
Proof. safety. Qed.

Lemma clearHeartbeatTimer_safe : safe clearHeartbeatTimer.
Proof. safety. Qed.

Lemma emitStatus_safe b : safe (emitStatus b).
Proof. safety. Qed.

Lemma createMockSocket_safe : safe createMockSocket.
Proof. safety. Qed.

Lemma exec_seq {A} (m : M World unit) (k : M World A) w :
  safe m -> exec (m ;; k)%eff w = exec k (exec m w).
Proof. intros H. rewrite exec_bind, (safe_unit _ _ H). reflexivity. Qed.

Lemma exec_gets {A B} (f : World -> A) (k : A -> M World B) w :
  exec (x <- gets f ;; k x)%eff w = exec (k (f w)) w.
Proof. reflexivity. Qed.

Lemma exec_modify {A} (f : World -> World) (k : M World A) w :
  exec (modify f ;; k)%eff w = exec k (f w).
Proof. reflexivity. Qed.

(** The surroundings are never written. *)
Lemma host_stable l h : preserves (fun w => host w = h) (step l).
Proof. destruct l; frame. Qed.

End ClientFacts.

(** ** Destination resolution *)
Section UrlFacts.

Import Client.

Lemma startsWith_cons c r a p :
  Js.startsWith (String c r) (String a p) = true -> a = c /\ Js.startsWith r p = true.
Proof.
  unfold Js.startsWith. cbn [String.prefix].
  destruct (ascii_dec a c); [auto | discriminate].
Qed.

(** Reads off the characters a successful startsWith fixes. *)
Ltac peel :=
  repeat match goal with
  | H : Js.startsWith ?s (String _ _) = true |- _ =>
      destruct s; [discriminate H|]; apply startsWith_cons in H as [<- H]
  end.

Lemma resolve_http e :
  let raw := Url.safeTrim (Url.REACT_APP_WS_URL e) in
  Js.startsWith raw "http://" = true ->
  Url.resolveWsBaseUrlFromEnv e = Js.stripTrailingSlashes ("ws://" ++ Js.slice 7 raw)%string.
Proof.
  cbn zeta. unfold Url.resolveWsBaseUrlFromEnv.
  generalize (Url.safeTrim (Url.REACT_APP_WS_URL e)). intros raw H.
  peel. unfold Js.startsWith in *.
  cbn -[Js.stripTrailingSlashes Js.slice append]. rewrite H. reflexivity.
Qed.

Lemma resolve_https e :
  let raw := Url.safeTrim (Url.REACT_APP_WS_URL e) in
  Js.startsWith raw "https://" = true ->
  Url.resolveWsBaseUrlFromEnv e = Js.stripTrailingSlashes ("wss://" ++ Js.slice 8 raw)%string.
Proof.
  cbn zeta. unfold Url.resolveWsBaseUrlFromEnv.
  generalize (Url.safeTrim (Url.REACT_APP_WS_URL e)). intros raw H.
  peel. unfold Js.startsWith in *.
  cbn -[Js.stripTrailingSlashes Js.slice append]. rewrite H. reflexivity.
Qed.

Lemma resolve_ws e :
  let raw := Url.safeTrim (Url.REACT_APP_WS_URL e) in
  Js.startsWith raw "ws://" = true \/ Js.startsWith raw "wss://" = true ->
  Url.resolveWsBaseUrlFromEnv e = Js.stripTrailingSlashes raw.
Proof.
  cbn zeta. unfold Url.resolveWsBaseUrlFromEnv.
  generalize (Url.safeTrim (Url.REACT_APP_WS_URL e)). intros raw H.
  assert (Ht : Js.truthy raw = true) by (destruct H as [H|H]; peel; reflexivity).
  rewrite Ht. destruct H as [-> | ->]; [|rewrite orb_true_r]; reflexivity.
Qed.

Lemma bare_has_no_scheme raw p :
  Js.isBareHostPort raw = true ->
  In p ["ws://"; "wss://"; "http://"; "https://"] ->
  Js.startsWith raw p = false.
Proof.
  intros Hb Hp. destruct (Js.startsWith raw p) eqn:H; [exfalso | reflexivity].
  cbn in Hp. destruct Hp as [<-|[<-|[<-|[<-|[]]]]]; peel; cbn in Hb;
    rewrite ?andb_false_r in Hb; discriminate Hb.
Qed.

Lemma resolve_bare e :
  let raw := Url.safeTrim (Url.REACT_APP_WS_URL e) in
  Js.isBareHostPort raw = true ->
  Url.resolveWsBaseUrlFromEnv e = Js.stripTrailingSlashes ("ws://" ++ raw)%string.
Proof.
  cbn zeta. unfold Url.resolveWsBaseUrlFromEnv.
  generalize (Url.safeTrim (Url.REACT_APP_WS_URL e)). intros raw H.
  rewrite !(bare_has_no_scheme raw) by (exact H || (cbn; tauto)).
  rewrite H. destruct raw; [discriminate H | reflexivity].
Qed.

End UrlFacts.

(** ** Connection manager: invariants *)
Import Client.

(** Case analysis on what the code branches on, innermost first. *)
Ltac cases :=
  repeat match goal with
  | |- context [match ?x with _ => _ end] =>
      lazymatch x with
      | context [match _ with _ => _ end] => fail
      | _ => destruct x eqn:?
      end; wsimpl
  end.

Section InvariantFacts.

Lemma clearTimer_inv id : preserves Inv (clearTimer id).
Proof.
  unfold clearTimer. apply preserves_modify.
  intros w HInv. pose proof HInv as (HS & HM & HO & HT).
  split; [exact HS|]. split; [exact HM|]. split; [exact HO|].
  intros t Ht. wsimpl. apply list_elem_of_filter in Ht as [_ Ht]. apply HT, Ht.
Qed.

Lemma clearReconnectTimer_inv : preserves Inv clearReconnectTimer.
Proof.
  intros w HInv. pose proof HInv as (HS & HM & HO & HT). unfold clearReconnectTimer, clearTimer. crun.
  destruct (reconnectTimer w) as [id|] eqn:E; wsimpl; [|exact HInv].
  split; [exact HS|]. split; [exact HM|]. split; [exact HO|].
  intros t Ht. wsimpl. apply list_elem_of_filter in Ht as [Hid Ht].
  destruct (HT t Ht) as [Hr Hh]. split; [|exact Hh].
  intros Hc. specialize (Hr Hc). congruence.
Qed.

Lemma clearHeartbeatTimer_inv : preserves Inv clearHeartbeatTimer.
Proof.
  intros w HInv. pose proof HInv as (HS & HM & HO & HT). unfold clearHeartbeatTimer, clearTimer. crun.
  destruct (heartbeatTimer w) as [id|] eqn:E; wsimpl; [|exact HInv].
  split; [exact HS|]. split; [exact HM|]. split; [exact HO|].
  intros t Ht. wsimpl. apply list_elem_of_filter in Ht as [Hid Ht].
  destruct (HT t Ht) as [Hr Hh]. split; [exact Hr|].
  intros Hc. specialize (Hh Hc). congruence.
Qed.


Lemma startHeartbeat_inv : preserves Inv startHeartbeat.
Proof.
  intros w HInv. pose proof HInv as (HS & HM & HO & HT).
  unfold startHeartbeat, clearHeartbeatTimer, clearTimer, nowMs, setTimer. crun.
  destruct (heartbeatTimer w) as [id|] eqn:E; wsimpl.
  all: split; [exact HS|]; split; [exact HM|]; split; [exact HO|].
  all: intros t Ht; wsimpl; apply elem_of_app in Ht as [Ht|Ht].
  all: try (apply list_elem_of_singleton in Ht as ->; cbn; split; [discriminate | reflexivity]).
  - apply list_elem_of_filter in Ht as [Hid Ht].
    destruct (HT t Ht) as [Hr Hh]. split; [exact Hr|].
    intros Hc. specialize (Hh Hc). congruence.
  - destruct (HT t Ht) as [Hr Hh]. split; [exact Hr|].
    intros Hc. specialize (Hh Hc). congruence.
Qed.

Lemma scheduleReconnect_inv r : preserves Inv (scheduleReconnect r).
Proof.
  intros w HInv. pose proof HInv as (HS & HM & HO & HT).
  unfold scheduleReconnect, clearReconnectTimer, clearTimer, Math_random, setTimer. crun.
  destruct (negb (shouldReconnect w) || explicitlyDisconnected w); wsimpl; [exact HInv|].
  destruct (reconnectTimer w) as [id|] eqn:E; wsimpl.
  all: split; [exact HS|]; split; [exact HM|]; split; [exact HO|].
  all: intros t Ht; wsimpl; apply elem_of_app in Ht as [Ht|Ht].
  all: try (apply list_elem_of_singleton in Ht as ->; cbn; split; [reflexivity | discriminate]).
  - apply list_elem_of_filter in Ht as [Hid Ht].
    destruct (HT t Ht) as [Hr Hh]. split; [|exact Hh].
    intros Hc. specialize (Hr Hc). congruence.
  - destruct (HT t Ht) as [Hr Hh]. split; [|exact Hh].
    intros Hc. specialize (Hr Hc). congruence.
Qed.

Lemma mock_send_inv m d : preserves Inv (mock_send m d).
Proof.
  intros w HInv. pose proof HInv as (HS & HM & HO & HT).
  unfold mock_send, setTimer. crun.
  destruct (mocks w !! m) as [k|]; wsimpl; [|exact HInv].
  destruct (negb (mk_open k) || mk_closed k); wsimpl; [exact HInv|].
  split; [exact HS|]. split; [exact HM|]. split; [exact HO|].
  intros t Ht. wsimpl. apply elem_of_app in Ht as [Ht|Ht]; [apply HT, Ht|].
  apply list_elem_of_singleton in Ht as ->. cbn. split; discriminate.
Qed.

Lemma alterSocket_inv i f : keepsHandlers f -> preserves Inv (alterSocket i f).
Proof.
  intros Hf w HInv. pose proof HInv as ((HS1 & HS2) & HM & HO & HT).
  assert (Hany : forall s, anyHandler (f s) = anyHandler s).
  { intros s. destruct (Hf s) as (H1 & H2 & H3 & H4). unfold anyHandler. congruence. }
  assert (Hw : forall s, wired (f s) = wired s).
  { intros s. destruct (Hf s) as (H1 & H2 & H3 & H4). unfold wired. congruence. }
  unfold alterSocket. crun.
  split; [|split; [exact HM|split; [exact HO|exact HT]]].
  split; wsimpl.
  - intros j s. rewrite list_lookup_alter. destruct (decide (i = j)) as [->|Hne].
    + destruct (sockets w !! j) as [s0|] eqn:E; cbn; [|discriminate].
      intros [= <-]. rewrite Hany. apply HS1, E.
    + apply HS1.
  - intros j Hj. destruct (HS2 j Hj) as (s & Hs & Hws).
    rewrite list_lookup_alter. destruct (decide (i = j)) as [->|Hne].
    + rewrite Hs. cbn. eexists. split; [reflexivity|]. rewrite Hw. exact Hws.
    + eauto.
Qed.

Lemma alterMock_inv m f : keepsClosed f -> preserves Inv (alterMock m f).
Proof.
  intros Hf w HInv. pose proof HInv as (HS & HM & HO & HT).
  unfold alterMock. crun.
  split; [exact HS|]. split; [|split; [exact HO|exact HT]].
  intros m' k'. wsimpl. rewrite list_lookup_alter. destruct (decide (m = m')) as [->|Hne].
  - destruct (mocks w !! m') as [k0|] eqn:E; cbn; [|discriminate].
    intros [= <-] Hc. apply (HM _ _ E), Hf, Hc.
  - apply HM.
Qed.


Lemma bool_not_true b : (b = true -> False) -> b = false.
Proof. destruct b; intros H; [exfalso; apply H|]; reflexivity. Qed.

(** Detaching the handlers of the only socket that may have some leaves
    no socket with a handler. *)
Lemma unwire_current (l : list Socket) (i : nat) :
  (forall j s, l !! j = Some s -> anyHandler s = true -> Some i = Some j) ->
  forall j s, alter (set_handlersOf false) i l !! j = Some s -> anyHandler s = false.
Proof.
  intros H j s. rewrite list_lookup_alter. destruct (decide (i = j)) as [->|Hne].
  - destruct (l !! j); cbn; [|discriminate]. intros [= <-]. reflexivity.
  - intros Hs. apply bool_not_true. intros Ha. specialize (H _ _ Hs Ha). congruence.
Qed.

Lemma no_current_unwired (l : list Socket) :
  (forall j s, l !! j = Some s -> anyHandler s = true -> None = Some j) ->
  forall j s, l !! j = Some s -> anyHandler s = false.
Proof.
  intros H j s Hs. apply bool_not_true. intros Ha. specialize (H _ _ Hs Ha). discriminate.
Qed.

(** Closing the only mock that may be open leaves every mock closed. *)
Lemma close_current (l : list MockSocket) (m : nat) (f : MockSocket -> MockSocket) :
  (forall m' k, l !! m' = Some k -> mk_closed k = false -> Some m = Some m') ->
  (forall k, mk_closed (f k) = true) ->
  forall m' k, alter f m l !! m' = Some k -> mk_closed k = true.
Proof.
  intros H Hf m' k. rewrite list_lookup_alter. destruct (decide (m = m')) as [->|Hne].
  - destruct (l !! m'); cbn; [|discriminate]. intros [= <-]. apply Hf.
  - intros Hk. destruct (mk_closed k) eqn:E; [reflexivity|].
    specialize (H _ _ Hk E). congruence.
Qed.

Lemma close_current_twice (l : list MockSocket) (m : nat) (f g : MockSocket -> MockSocket) :
  (forall m' k, l !! m' = Some k -> mk_closed k = false -> Some m = Some m') ->
  (forall k, mk_closed (f (g k)) = true) ->
  forall m' k, alter f m (alter g m l) !! m' = Some k -> mk_closed k = true.
Proof.
  intros H Hf m' k. destruct (decide (m = m')) as [->|Hne].
  - rewrite !list_lookup_alter_eq.
    destruct (l !! m'); cbn; [|discriminate]. intros [= <-]. apply Hf.
  - rewrite !list_lookup_alter_ne by exact Hne.
    intros Hk. destruct (mk_closed k) eqn:E; [reflexivity|].
    specialize (H _ _ Hk E). congruence.
Qed.

Lemma current_closed (l : list MockSocket) (m : nat) (k0 : MockSocket) :
  (forall m' k, l !! m' = Some k -> mk_closed k = false -> Some m = Some m') ->
  l !! m = Some k0 -> mk_closed k0 = true ->
  forall m' k, l !! m' = Some k -> mk_closed k = true.
Proof.
  intros H H0 Hc m' k Hk. destruct (mk_closed k) eqn:E; [reflexivity|].
  specialize (H _ _ Hk E). congruence.
Qed.

Lemma no_current_closed (l : list MockSocket) (o : option nat) :
  (forall m' k, l !! m' = Some k -> mk_closed k = false -> o = Some m') ->
  (forall m, o = Some m -> l !! m = None) ->
  forall m' k, l !! m' = Some k -> mk_closed k = true.
Proof.
  intros H Ho m' k Hk. destruct (mk_closed k) eqn:E; [reflexivity|].
  specialize (H _ _ Hk E). specialize (Ho _ H). congruence.
Qed.

Lemma TimersInv_filter (P : Timer -> Prop) `{forall t, Decision (P t)} w w' :
  TimersInv w -> timers w' = filter P (timers w) ->
  reconnectTimer w' = reconnectTimer w -> heartbeatTimer w' = heartbeatTimer w ->
  TimersInv w'.
Proof.
  intros HT E Er Eh t Ht. rewrite E in Ht. apply list_elem_of_filter in Ht as [_ Ht].
  rewrite Er, Eh. apply HT, Ht.
Qed.

Lemma cleanupSocketRefs_detaches w :
  Inv w -> Detached (exec cleanupSocketRefs w) /\ TimersInv (exec cleanupSocketRefs w).
Proof.
  intros HInv. pose proof HInv as ((HS1 & HS2) & HM & HO & HT).
  unfold MocksInv in HM.
  unfold cleanupSocketRefs, alterSocket, mock_close, alterMock, clearTimer, emit. crun.
  cases.
  all: (split; [|first [exact HT | eapply (TimersInv_filter _ w); [exact HT|reflexivity..]]]).
  all: (split; [wsimpl; first [apply unwire_current, HS1 | apply no_current_unwired, HS1]|]).
  all: (split; [reflexivity|]; split; [wsimpl|reflexivity]).
  all: try (eapply close_current_twice; [exact HM | reflexivity]).
  all: try (eapply current_closed; [exact HM | eassumption..]).
  all: try (eapply no_current_closed; [exact HM | congruence]).
Qed.

Lemma run_unit (m : M World unit) w : safe m -> m w = (Ok tt, exec m w).
Proof.
  intros H. pose proof (safe_unit m w H) as Ho. unfold outcome, exec in *.
  destruct (m w) as [r w']. cbn in *. congruence.
Qed.

Lemma alter_snoc {A} (f : A -> A) (l : list A) (x : A) :
  alter f (length l) (l ++ [x]) = l ++ [f x].
Proof.
  replace (length l) with (length l + 0)%nat by lia. rewrite alter_app_r. reflexivity.
Qed.

Lemma Detached_Inv w : Detached w -> TimersInv w -> Inv w.
Proof.
  intros (Hs & Hws & Hm & Hmk) HT. split; [split|split; [|split; [left; exact Hws|exact HT]]].
  - intros j s Hj Ha. rewrite (Hs _ _ Hj) in Ha. discriminate.
  - intros i Hi. congruence.
  - intros m k Hk Hc. rewrite (Hm _ _ Hk) in Hc. discriminate.
Qed.

Lemma clearHeartbeatTimer_detached : preserves Detached clearHeartbeatTimer.
Proof. frame. Qed.

Lemma scheduleReconnect_detached r : preserves Detached (scheduleReconnect r).
Proof. frame. Qed.

(** Starting the mock from a state without transports. *)
Lemma startMock_inv w :
  Detached w -> TimersInv w ->
  Inv (exec (m <- createMockSocket ;; modify (set_mockWs (Some m)) ;; emitStatus true)%eff w).
Proof.
  intros (Hs & Hws & Hm & Hmk) HT.
  unfold createMockSocket, setTimer, emitStatus, emit. crun.
  split; [split|split; [|split; [left; exact Hws|]]]; wsimpl.
  - intros j s Hj Ha. rewrite (Hs _ _ Hj) in Ha. discriminate.
  - intros i Hi. congruence.
  - intros m k Hk Hc. apply lookup_app_Some in Hk as [Hk|[Hl Hk]].
    + rewrite (Hm _ _ Hk) in Hc. discriminate.
    + destruct (m - length (mocks w))%nat as [|x] eqn:E; [|destruct x; discriminate Hk].
      wsimpl. f_equal. lia.
  - intros t Ht. wsimpl. apply elem_of_app in Ht as [Ht|Ht]; [apply HT, Ht|].
    apply list_elem_of_singleton in Ht as ->. cbn. split; discriminate.
Qed.

(** Constructing the socket and assigning its handlers, from a state
    without transports. *)
Lemma startSocket_inv w url protos :
  Detached w -> TimersInv w ->
  Inv (exec
    (constructed <-
       try_catch
         (i <- newWebSocket url protos ;;
          modify (set_ws (Some i)) ;;
          ret (Some i))
         (fun _ =>
            modify (set_state Error) ;;
            emitStatus false ;;
            emit "error" (PError ConstructFailed false) ;;
            scheduleReconnect "constructor_failed" ;;
            ret None) ;;
     match constructed with
     | Some i => alterSocket i (set_handlersOf true)
     | None => ret tt
     end)%eff w).
Proof.
  intros HD HT. pose proof HD as (Hs & Hws & Hm & Hmk).
  unfold newWebSocket, emitStatus, emit, alterSocket. crun.
  destruct (ctorThrows (host w) url) eqn:Ec; wsimpl.
  - rewrite (run_unit (scheduleReconnect _)) by apply scheduleReconnect_safe. wsimpl.
    apply scheduleReconnect_inv, Detached_Inv; assumption.
  - rewrite alter_snoc. cbn [set_handlersOf sk_url sk_protocols readyState sent closeCalls].
    split; [split|split; [|split; [right; exact Hmk|exact HT]]]; wsimpl.
    + intros j s Hj Ha. apply lookup_app_Some in Hj as [Hj|[Hl Hj]].
      * rewrite (Hs _ _ Hj) in Ha. discriminate.
      * destruct (j - length (sockets w))%nat as [|x] eqn:E; [|destruct x; discriminate Hj].
        f_equal. lia.
    + intros i [= <-]. eexists. split; [apply list_lookup_middle; reflexivity | reflexivity].
    + intros m k Hk Hc. rewrite (Hm _ _ Hk) in Hc. discriminate.
Qed.

Lemma internalConnect_inv o : preserves Inv (internalConnect o).
Proof.
  intros w HInv. unfold internalConnect.
  rewrite !exec_modify, exec_gets. cbn zeta. rewrite exec_modify.
  match goal with |- Inv (exec _ ?w0) => assert (H0 : Inv w0) by exact HInv; revert H0; generalize w0 end.
  clear HInv. intros w0 HInv.
  match goal with |- context [if ?c then _ else _] => destruct c end.
  - rewrite !exec_modify.
    rewrite (exec_seq clearReconnectTimer) by apply clearReconnectTimer_safe.
    rewrite (exec_seq clearHeartbeatTimer) by apply clearHeartbeatTimer_safe.
    rewrite (exec_seq cleanupSocketRefs) by apply cleanupSocketRefs_safe.
    match goal with |- context [exec cleanupSocketRefs ?w1] =>
      destruct (cleanupSocketRefs_detaches w1) as [HD HT] end.
    { apply clearHeartbeatTimer_inv, clearReconnectTimer_inv. exact HInv. }
    apply startMock_inv; assumption.
  - match goal with |- context [if ?c then _ else _] => destruct c end.
    + rewrite !exec_modify. apply (ltac:(frame) : preserves Inv (emitStatus false)). exact HInv.
    + rewrite !exec_modify.
      rewrite (exec_seq (emitStatus false)) by apply emitStatus_safe.
      rewrite (exec_seq cleanupSocketRefs) by apply cleanupSocketRefs_safe.
      rewrite (exec_seq clearHeartbeatTimer) by apply clearHeartbeatTimer_safe.
      match goal with |- context [exec cleanupSocketRefs ?w1] =>
        destruct (cleanupSocketRefs_detaches w1) as [HD HT] end.
      { apply (ltac:(frame) : preserves Inv (emitStatus false)). exact HInv. }
      apply startSocket_inv.
      * apply clearHeartbeatTimer_detached, HD.
      * apply clearHeartbeatTimer_inv, Detached_Inv; assumption.
Qed.

Lemma cleanupSocketRefs_inv : preserves Inv cleanupSocketRefs.
Proof.
  intros w H. destruct (cleanupSocketRefs_detaches w H). apply Detached_Inv; assumption.
Qed.

End InvariantFacts.


Ltac inv_step :=
  lazymatch goal with
  | |- preserves _ (clearTimer _) => apply clearTimer_inv
  | |- preserves _ clearReconnectTimer => apply clearReconnectTimer_inv
  | |- preserves _ clearHeartbeatTimer => apply clearHeartbeatTimer_inv
  | |- preserves _ startHeartbeat => apply startHeartbeat_inv
  | |- preserves _ (scheduleReconnect _) => apply scheduleReconnect_inv
  | |- preserves _ (mock_send _ _) => apply mock_send_inv
  | |- preserves _ (internalConnect _) => apply internalConnect_inv
  | |- preserves _ cleanupSocketRefs => apply cleanupSocketRefs_inv
  | |- preserves _ (alterSocket _ _) => apply alterSocket_inv; intros ?; cbn; tauto
  | |- preserves _ (alterMock _ _) => apply alterMock_inv; intros ?; cbn; congruence
  | |- preserves _ (modify _) => apply preserves_modify; intros ? ?; assumption
  | |- preserves _ ?m =>
      first [ eff_step | let h := head m in unfold h ]
  end.

Section StepFacts.

Lemma step_inv l : preserves Inv (step l).
Proof. destruct l; cbn [step]; repeat inv_step. Qed.
End StepFacts.
(** ** After disconnect() *)


Section QuietFacts.

Lemma init_inv h : Inv (init h).
Proof.
  split; [split|split; [|split; [left; reflexivity|]]]; cbn.
  - intros j s H. destruct j; discriminate H.
  - discriminate.
  - intros m k H. destruct m; discriminate H.
  - intros t H. apply elem_of_nil in H. contradiction.
Qed.

Lemma run_inv ls : forall w, Inv w -> Inv (run ls w).
Proof.
  induction ls as [|l ls IH]; intros w H; cbn; [exact H|].
  apply IH, step_inv, H.
Qed.

Lemma reachable_inv w : reachable w -> Inv w.
Proof. intros (h & ls & ->). apply run_inv, init_inv. Qed.







End QuietFacts.


Section QuietSteps.









Lemma unwired_handlers s :
  anyHandler s = false ->
  onopen s = false /\ onclose s = false /\ onerror s = false /\ onmessage s = false.
Proof. unfold anyHandler. destruct (onopen s), (onclose s), (onerror s), (onmessage s); cbn; auto. Qed.








(** What disconnect() leaves behind. *)

Lemma scheduleReconnect_halted r : preserves Halted (scheduleReconnect r).
Proof.
  intros w HH. pose proof HH as (He & _). unfold scheduleReconnect. crun.
  rewrite He, orb_true_r. exact HH.
Qed.

Lemma disconnect_detaches : establishes Inv disconnect Detached.
Proof.
  unfold disconnect.
  repeat lazymatch goal with
  | |- establishes _ (bind cleanupSocketRefs _) _ => fail
  | |- establishes _ (bind _ _) _ =>
      apply establishes_bind; [safety | repeat inv_step | intros ?]
  end.
  apply (establishes_then Inv Detached).
  - apply cleanupSocketRefs_safe.
  - intros w H. apply (cleanupSocketRefs_detaches w H).
  - intros _. frame.
  - auto.
Qed.

End QuietSteps.

Ltac halted_step :=
  lazymatch goal with
  | |- preserves _ (scheduleReconnect _) => apply scheduleReconnect_halted
  | |- preserves _ (modify _) =>
      apply preserves_modify; intros ? (?&?&?); repeat split; wsimpl; auto
  | |- preserves _ ?m =>
      first [ eff_step | let h := head m in unfold h ]
  end.

Section DisconnectFacts.

Lemma disconnect_halts : establishes Inv disconnect Halted.
Proof.
  unfold disconnect. intros w HInv.
  rewrite !exec_modify.
  rewrite (exec_seq clearReconnectTimer) by apply clearReconnectTimer_safe.
  rewrite (exec_seq clearHeartbeatTimer) by apply clearHeartbeatTimer_safe.
  match goal with |- Halted (exec ?rest ?w1) =>
    assert (H1 : Halted w1); [|revert H1; generalize w1; change (preserves Halted rest)]
  end.
  - unfold clearHeartbeatTimer, clearReconnectTimer, clearTimer. crun.
    destruct (reconnectTimer w) eqn:Er; wsimpl;
      destruct (heartbeatTimer w) eqn:Eh; wsimpl; repeat split; wsimpl; auto.
  - repeat halted_step.
Qed.

Lemma disconnect_closed w : state (exec disconnect w) = Closed.
Proof.
  apply (ltac:(
    unfold disconnect;
    repeat lazymatch goal with
    | |- establishes _ (bind (modify (set_state Closed)) _) _ => fail
    | |- establishes _ (bind _ _) _ =>
        apply establishes_bind; [safety | intros ? ?; exact I | intros ?]
    end;
    apply (establishes_then _ (fun w => state w = Closed));
      [safety | intros ? _; reflexivity | intros _; frame | auto])
    : establishes (fun _ => True) disconnect (fun w => state w = Closed)).
  exact I.
Qed.



End DisconnectFacts.

(** ** Queueing and flushing *)
Section QueueFacts.

Lemma sendFrame_closed w f :
  socketIsOpen w || mockIsOpen w = false ->
  exec (sendFrame (Some f)) w = set_outboundQueue (enqueued (outboundQueue w) f) w.
Proof.
  intros H. unfold sendFrame, push, enqueued. crun. rewrite H. cbn [negb].
  destruct (DEFAULTS.maxQueueSize <=? length (outboundQueue w))%nat; reflexivity.
Qed.






(** The socket after it has accepted [fs]. *)
Lemma sent_pushed fs : forall s,
  sent (fold_left (fun s f => push_sent f s) fs s) = sent s ++ fs
  /\ readyState (fold_left (fun s f => push_sent f s) fs s) = readyState s.
Proof.
  induction fs as [|f fs IH]; intros s; cbn [fold_left].
  - rewrite app_nil_r. auto.
  - destruct (IH (push_sent f s)) as [-> ->]. cbn [push_sent sent readyState].
    rewrite <- app_assoc. auto.
Qed.

Lemma sendFrame_open w i s f :
  ws w = Some i -> sockets w !! i = Some s -> readyState s = OPEN ->
  sendThrows (host w) f = false ->
  exec (sendFrame (Some f)) w = set_sockets (alter (push_sent f) i (sockets w)) w.
Proof.
  intros Hw Hs Hr Hf.
  unfold sendFrame, transmit, ws_send, alterSocket, socketIsOpen. crun.
  repeat (wsimpl;
          first [ rewrite Hw | rewrite Hs | rewrite Hr | rewrite Hf
                | progress change (OPEN =? OPEN)%Z with true
                | progress cbn [orb negb] ]).
  reflexivity.
Qed.

Lemma flush_loop i fs : forall w s,
  ws w = Some i -> sockets w !! i = Some s -> readyState s = OPEN ->
  (forall f, f ∈ fs -> sendThrows (host w) f = false) ->
  let w' := exec (forEach fs (fun f => sendFrame (Some f))) w in
  sockets w' !! i = Some (fold_left (fun s f => push_sent f s) fs s)
  /\ outboundQueue w' = outboundQueue w
  /\ state w' = state w.
Proof.
  induction fs as [|f fs IH]; intros w s Hw Hs Hr Hf; cbn zeta; cbn [forEach fold_left].
  - auto.
  - rewrite exec_seq by apply sendFrame_safe.
    rewrite (sendFrame_open w i s f Hw Hs Hr) by (apply Hf; left).
    match goal with |- context [exec _ ?w1] =>
      destruct (IH w1 (push_sent f s)) as (H1 & H2 & H3) end; try assumption.
    + wsimpl. rewrite list_lookup_alter_eq, Hs. reflexivity.
    + intros g Hg. apply Hf. right. exact Hg.
    + auto.
Qed.


Lemma flushQueue_flushes i s q h w :
  readyState s = OPEN ->
  (forall f, f ∈ q -> sendThrows h f = false) ->
  flushing i s q h w ->
  sockets (exec flushQueue w) !! i = Some (fold_left (fun s f => push_sent f s) q s)
  /\ outboundQueue (exec flushQueue w) = []
  /\ state (exec flushQueue w) = Open.
Proof.
  intros Hr Hf (Hw & Hs & Hq & Hh & Hst). unfold flushQueue. rewrite exec_gets, Hq.
  destruct q as [|f q]; cbn [length Nat.eqb].
  - cbn. rewrite Hq. auto.
  - rewrite exec_modify.
    destruct (flush_loop i (f :: q) (set_outboundQueue [] w) s) as (H1 & H2 & H3);
      try assumption.
    + wsimpl. rewrite Hh. exact Hf.
    + rewrite H1, H2, H3. auto.
Qed.

Lemma transportOpen_handler w i s :
  sockets w !! i = Some s -> onopen s = true ->
  exec (transportOpen i) w
  = exec (ws_onopen (sk_url s) (sk_protocols s))
      (set_sockets (alter (set_readyState OPEN) i (sockets w)) w).
Proof.
  intros Hs Ho. unfold transportOpen.
  rewrite exec_seq by safety. unfold alterSocket at 1.
  change (exec (modify ?f) w) with (f w). rewrite exec_gets. wsimpl.
  rewrite list_lookup_alter_eq, Hs.
  cbn [fmap option_fmap option_map set_readyState onopen sk_url sk_protocols].
  rewrite Ho. reflexivity.
Qed.

Ltac flushing_leaf :=
  idtac;
  match goal with
  | H : flushing _ _ _ _ _ |- _ =>
      destruct H as (?&?&?&?&?); repeat split; wsimpl; auto
  end.

Lemma ws_onopen_flushes i s q h url protos w :
  readyState s = OPEN ->
  (forall f, f ∈ q -> sendThrows h f = false) ->
  ws w = Some i -> sockets w !! i = Some s -> outboundQueue w = q -> host w = h ->
  let w2 := exec (ws_onopen url protos) w in
  sockets w2 !! i = Some (fold_left (fun s f => push_sent f s) q s)
  /\ outboundQueue w2 = []
  /\ state w2 = Open.
Proof.
  intros Hr Hf Hw Hs Hq Hh. cbn zeta. unfold ws_onopen. rewrite exec_modify.
  match goal with |- context [exec ?m ?w1] =>
    assert (HE : establishes (flushing i s q h) m
                   (fun w' =>
                      sockets w' !! i = Some (fold_left (fun s f => push_sent f s) q s)
                      /\ outboundQueue w' = [] /\ state w' = Open));
    [|apply (HE w1); repeat split; assumption]
  end.
  repeat lazymatch goal with
  | |- establishes _ (bind startHeartbeat _) _ => fail
  | |- establishes _ (bind _ _) _ =>
      apply establishes_bind; [safety | frame_with flushing_leaf | intros ?]
  end.
  apply establishes_bind; [safety | frame_with flushing_leaf | intros _].
  intros w' H'. apply (flushQueue_flushes i s q h); assumption.
Qed.

Lemma transportOpen_flushes w i s :
  ws w = Some i -> sockets w !! i = Some s -> onopen s = true ->
  (forall f, f ∈ outboundQueue w -> sendThrows (host w) f = false) ->
  let w2 := exec (transportOpen i) w in
  sockets w2 !! i
    = Some (fold_left (fun s f => push_sent f s) (outboundQueue w) (set_readyState OPEN s))
  /\ outboundQueue w2 = []
  /\ state w2 = Open.
Proof.
  intros Hw Hs Ho Hf. cbn zeta. rewrite (transportOpen_handler w i s Hs Ho).
  apply (ws_onopen_flushes i _ _ (host w)); try assumption; try reflexivity.
  wsimpl. rewrite list_lookup_alter_eq, Hs. reflexivity.
Qed.


Lemma wired_onopen s : wired s = true -> onopen s = true.
Proof. unfold wired. destruct (onopen s); [reflexivity | discriminate]. Qed.



End QueueFacts.

(** ** Heartbeat *)
Section HeartbeatFacts.





Lemma transportClose_handler w i s code reason wasClean :
  sockets w !! i = Some s -> onclose s = true ->
  exec (transportClose i code reason wasClean) w
  = exec (ws_onclose code reason wasClean)
      (set_sockets (alter (set_readyState CLOSED) i (sockets w)) w).
Proof.
  intros Hs Ho. unfold transportClose.
  rewrite exec_seq by safety. unfold alterSocket at 1.
  change (exec (modify ?f) w) with (f w). rewrite exec_gets. wsimpl.
  rewrite list_lookup_alter_eq, Hs.
  cbn [fmap option_fmap option_map set_readyState onclose].
  rewrite Ho. reflexivity.
Qed.



Lemma wired_onclose s : wired s = true -> onclose s = true.
Proof.
  unfold wired. destruct (onopen s), (onclose s); cbn; congruence.
Qed.

Lemma socketIsOpen_inv w i :
  ws w = Some i -> socketIsOpen w = true ->
  exists s, sockets w !! i = Some s /\ readyState s = OPEN.
Proof.
  unfold socketIsOpen. intros ->. destruct (sockets w !! i) as [s|]; [|discriminate].
  intros H. exists s. split; [reflexivity|]. apply Z.eqb_eq, H.
Qed.




End HeartbeatFacts.

(** ** What connect() resolves to *)
Section ConnectFacts.

Lemma lookup_snoc_length {A} (l : list A) (x : A) (k : nat) :
  k = length l -> (l ++ [x]) !! k = Some x.
Proof. intros ->. apply list_lookup_middle. reflexivity. Qed.

Lemma internalConnect_outcome o w :
  let e := env (host w) in
  let url := Url.connectUrl e (path o) in
  let w' := exec (internalConnect o) w in
  lastUrl w' = url
  /\ if negb (Url.canUseReal e (path o)) || negb (Url.hasConfiguredUrl e)
     then state w' = Mock /\ ws w' = None /\ mockWs w' = Some (length (mocks w))
          /\ length (sockets w') = length (sockets w)
     else if ctorThrows (host w) url
     then state w' = Error /\ ws w' = None /\ mockWs w' = None
          /\ length (sockets w') = length (sockets w)
     else state w' = Connecting /\ ws w' = Some (length (sockets w)) /\ mockWs w' = None
          /\ exists s, sockets w' !! length (sockets w) = Some s
                       /\ sk_url s = url /\ readyState s = CONNECTING /\ wired s = true.
Proof.
  cbn zeta.
  unfold internalConnect, clearReconnectTimer, clearHeartbeatTimer, scheduleReconnect,
    clearReconnectTimer, Math_random, cleanupSocketRefs, alterSocket, mock_close, alterMock,
    clearTimer, emitStatus, emit, createMockSocket, newWebSocket, setTimer.
  crun.
  destruct (negb (Url.canUseReal (env (host w)) (path o))
            || negb (Url.hasConfiguredUrl (env (host w)))) eqn:Ec; wsimpl.
  - cases. all: repeat split; wsimpl; rewrite ?length_alter; reflexivity.
  - assert (Hs : Url.hasWebSocketSupport (env (host w)) = true).
    { unfold Url.canUseReal in Ec.
      destruct (Url.hasWebSocketSupport (env (host w))); [reflexivity | discriminate]. }
    rewrite Hs. cbn [negb]. wsimpl.
    destruct (ctorThrows (host w) (Url.connectUrl (env (host w)) (path o))) eqn:Et.
    + cases. all: try (exfalso; congruence).
      all: repeat split; wsimpl; rewrite ?length_alter; reflexivity.
    + cases. all: try (exfalso; congruence).
      all: wsimpl.
      all: split; [reflexivity|]; split; [reflexivity|];
        (split; [rewrite ?length_alter; reflexivity|]); split; [reflexivity|].
      all: rewrite alter_snoc; eexists;
        (split; [apply lookup_snoc_length; rewrite ?length_alter; reflexivity|]);
        repeat split.
Qed.


Lemma connect_enters (o : ConnectOptions) (w : World) :
  exec (connect o) w
  = exec (internalConnect o)
      (set_explicitlyDisconnected false (set_connectOptions o (exec clearReconnectTimer w))).
Proof.
  unfold connect. rewrite exec_seq by apply clearReconnectTimer_safe.
  rewrite !exec_modify, exec_gets. reflexivity.
Qed.

Lemma clearReconnectTimer_keeps w :
  host (exec clearReconnectTimer w) = host w
  /\ sockets (exec clearReconnectTimer w) = sockets w
  /\ mocks (exec clearReconnectTimer w) = mocks w.
Proof.
  unfold clearReconnectTimer, clearTimer. crun. destruct (reconnectTimer w); auto.
Qed.

Lemma truthy_false s : Js.truthy s = false <-> s = "".
Proof.
  unfold Js.truthy. destruct (String.eqb_spec s ""); cbn; split; congruence.
Qed.

(** C7, as the code has it. (a) A configured address is normalized:
    http becomes ws, https becomes wss, a bare host:port gets ws, a ws or
    wss address is kept, each without trailing slashes. (b) connect()
    records the resolved address, which without a configured address is the
    one inferred from the page origin. (c) The manager enters Mock exactly
    when no address is configured, or network support is missing, or the
    resolved address is empty; then it constructs no socket. Otherwise it
    constructs a socket for the resolved address and is Connecting, or is
    in Error when the constructor raised. *)
Theorem connect_resolution (w : World) (options : ConnectOptions) :
  let e := env (host w) in
  let raw := Url.safeTrim (Url.REACT_APP_WS_URL e) in
  let url := Url.connectUrl e (path options) in
  let w' := exec (connect options) w in
  (Js.startsWith raw "http://" = true ->
     Url.resolveWsBaseUrlFromEnv e
     = Js.stripTrailingSlashes ("ws://" ++ Js.slice 7 raw)%string)
  /\ (Js.startsWith raw "https://" = true ->
     Url.resolveWsBaseUrlFromEnv e
     = Js.stripTrailingSlashes ("wss://" ++ Js.slice 8 raw)%string)
  /\ (Js.startsWith raw "ws://" = true \/ Js.startsWith raw "wss://" = true ->
     Url.resolveWsBaseUrlFromEnv e = Js.stripTrailingSlashes raw)
  /\ (Js.isBareHostPort raw = true ->
     Url.resolveWsBaseUrlFromEnv e = Js.stripTrailingSlashes ("ws://" ++ raw)%string)
  /\ lastUrl w' = url
  /\ (state w' = Mock <->
      Url.hasConfiguredUrl e = false \/ Url.hasWebSocketSupport e = false \/ url = "")
  /\ (state w' = Mock ->
      ws w' = None /\ mockWs w' = Some (length (mocks w))
      /\ length (sockets w') = length (sockets w))
  /\ (state w' <> Mock ->
      (ctorThrows (host w) url = false /\ state w' = Connecting
       /\ ws w' = Some (length (sockets w))
       /\ exists s, sockets w' !! length (sockets w) = Some s /\ sk_url s = url)
      \/ (ctorThrows (host w) url = true /\ state w' = Error /\ ws w' = None)).
Proof.
  cbn zeta.
  split; [apply resolve_http|]. split; [apply resolve_https|].
  split; [apply resolve_ws|]. split; [apply resolve_bare|].
  rewrite connect_enters.
  destruct (clearReconnectTimer_keeps w) as (Hh & Hs & Hm).
  match goal with |- context [exec (internalConnect options) ?w1] =>
    pose proof (internalConnect_outcome options w1) as H; cbn zeta in H;
    change (host w1) with (host (exec clearReconnectTimer w)) in H;
    change (sockets w1) with (sockets (exec clearReconnectTimer w)) in H;
    change (mocks w1) with (mocks (exec clearReconnectTimer w)) in H;
    rewrite Hh, Hs, Hm in H;
    generalize dependent (exec (internalConnect options) w1)
  end.
  intros w' (Hurl & H). split; [exact Hurl|].
  assert (Hcond : negb (Url.canUseReal (env (host w)) (path options))
                  || negb (Url.hasConfiguredUrl (env (host w))) = true
                  <-> (Url.hasConfiguredUrl (env (host w)) = false
                       \/ Url.hasWebSocketSupport (env (host w)) = false
                       \/ Url.connectUrl (env (host w)) (path options) = "")).
  { unfold Url.canUseReal. rewrite <- truthy_false.
    destruct (Url.hasConfiguredUrl _), (Url.hasWebSocketSupport _), (Js.truthy _);
      cbn; intuition congruence. }
  destruct (negb _ || negb _) eqn:Ec.
  - destruct H as (H1 & H2 & H3 & H4).
    split; [split; [intros _; apply Hcond; reflexivity | intros _; exact H1]|].
    split; [auto | congruence].
  - assert (Hnm : state w' <> Mock).
    { destruct (ctorThrows _ _); destruct H as (-> & _); discriminate. }
    split; [split; [contradiction | intros Hx; apply Hcond in Hx; discriminate]|].
    split; [contradiction|]. intros _.
    destruct (ctorThrows _ _); destruct H as (H1 & H2 & H3 & H4).
    + right. auto.
    + left. destruct H4 as (s & Hl & Hu & _). eauto 10.
Qed.

(** C7 as the specification words it fails where no address is configured
    and the page has an origin: the inferred address ws://localhost/ws is
    recorded, but the manager goes to Mock and constructs no socket. *)
Lemma origin_address_runs_mock :
  ~ resolvesAsSpecified Examples.offline Examples.wsPath.
Proof.
  intros [_ H]. destruct H as [H|H]; [reflexivity | discriminate H | discriminate H].
Qed.

Lemma connect_resolution_witness :
  let w' := exec (connect Examples.wsPath) (init Examples.offline) in
  state w' = Mock /\ ws w' = None /\ mockWs w' = Some 0%nat.
Proof.
  cbn zeta.
  destruct (connect_resolution (init Examples.offline) Examples.wsPath)
    as (_ & _ & _ & _ & _ & [_ Hm] & Hk & _).
  assert (H : state (exec (connect Examples.wsPath) (init Examples.offline)) = Mock)
    by (apply Hm; left; reflexivity).
  destruct (Hk H) as (H1 & H2 & _). split; [exact H|]. split; [exact H1 | exact H2].
Defined.

End ConnectFacts.

(** ** Shape of the resolved addresses *)
Section UrlShape.

Lemma dropSlashes_head l c :
  head (Js.dropSlashes l) = Some c -> Js.isSlash c = false.
Proof.
  induction l as [|a l IH]; cbn; [discriminate|].
  destruct (Js.isSlash a) eqn:E; [exact IH|].
  cbn. intros [= <-]. exact E.
Qed.

Lemma dropSlashes_fixed l :
  (forall c, head l = Some c -> Js.isSlash c = false) -> Js.dropSlashes l = l.
Proof.
  destruct l as [|a l]; cbn; [reflexivity|].
  intros H. rewrite (H a eq_refl). reflexivity.
Qed.

Lemma dropSlashes_slashes l :
  exists k, l = repeat "/"%char k ++ Js.dropSlashes l.
Proof.
  induction l as [|a l [k IH]]; cbn.
  - exists 0%nat. reflexivity.
  - destruct (Js.isSlash a) eqn:E.
    + apply Ascii.eqb_eq in E as ->. exists (S k). cbn. f_equal. exact IH.
    + exists 0%nat. reflexivity.
Qed.

Lemma strip_list s :
  list_ascii_of_string (Js.stripTrailingSlashes s)
  = rev (Js.dropSlashes (rev (list_ascii_of_string s))).
Proof. apply list_ascii_of_string_of_list_ascii. Qed.

Lemma last_rev_head {A} (l : list A) : last (rev l) = head l.
Proof.
  destruct l as [|a l]; [reflexivity|].
  cbn [rev]. rewrite last_snoc. reflexivity.
Qed.

Lemma strip_last s c :
  last (list_ascii_of_string (Js.stripTrailingSlashes s)) = Some c -> c <> "/"%char.
Proof.
  rewrite strip_list, last_rev_head. intros H%dropSlashes_head ->. discriminate.
Qed.

Lemma strip_idem s :
  Js.stripTrailingSlashes (Js.stripTrailingSlashes s) = Js.stripTrailingSlashes s.
Proof.
  unfold Js.stripTrailingSlashes at 1. rewrite strip_list, rev_involutive.
  rewrite dropSlashes_fixed; [reflexivity|]. apply dropSlashes_head.
Qed.

Lemma strip_slashes s :
  exists k, s = (Js.stripTrailingSlashes s
                 ++ string_of_list_ascii (repeat "/"%char k))%string.
Proof.
  destruct (dropSlashes_slashes (rev (list_ascii_of_string s))) as [k Hk].
  exists k. unfold Js.stripTrailingSlashes.
  rewrite <- (string_of_list_ascii_of_string s) at 1.
  rewrite <- (rev_involutive (list_ascii_of_string s)), Hk at 1.
  rewrite rev_app_distr.
  assert (Hr : rev (repeat "/"%char k) = repeat "/"%char k).
  { clear. induction k as [|k IH]; [reflexivity|].
    cbn [repeat rev]. rewrite IH. clear.
    induction k as [|k IH]; [reflexivity|]. cbn. f_equal. exact IH. }
  rewrite Hr. clear.
  generalize (rev (Js.dropSlashes (rev (list_ascii_of_string s)))) as a.
  induction a as [|x a IH]; [reflexivity|].
  cbn [app string_of_list_ascii]. rewrite IH. reflexivity.
Qed.

(** X1 (resolveWsBaseUrlFromEnv): whatever the configured address and the
    page are, the resolved base address is either empty or ends in a
    character other than a slash; stripping it again changes nothing. *)
Theorem resolved_base_has_no_trailing_slash (e : Url.Env) :
  let b := Url.resolveWsBaseUrlFromEnv e in
  Js.stripTrailingSlashes b = b
  /\ (forall c, last (list_ascii_of_string b) = Some c -> c <> "/"%char).
Proof.
  cbv zeta.
  assert (H : exists s, Url.resolveWsBaseUrlFromEnv e = Js.stripTrailingSlashes s).
  { unfold Url.resolveWsBaseUrlFromEnv.
    repeat match goal with
    | |- context [if ?x then _ else _] => destruct x
    | |- context [match ?x with _ => _ end] => destruct x
    end; try (eexists; reflexivity); exists ""; reflexivity. }
  destruct H as [s ->]. split; [apply strip_idem | apply strip_last].
Qed.



Lemma spanHost_spec l :
  l = fst (Js.spanHost l) ++ snd (Js.spanHost l)
  /\ forallb Js.isHostChar (fst (Js.spanHost l)) = true
  /\ (forall c, head (snd (Js.spanHost l)) = Some c -> Js.isHostChar c = false).
Proof.
  induction l as [|a l (IH1&IH2&IH3)]; cbn [Js.spanHost].
  - repeat split. discriminate.
  - destruct (Js.isHostChar a) eqn:E.
    + destruct (Js.spanHost l) as [h t]. cbn [fst snd] in *.
      repeat split; [cbn; f_equal; exact IH1 | cbn; rewrite E; exact IH2 | exact IH3].
    + cbn [fst snd]. repeat split. cbn. intros c [= <-]. exact E.
Qed.

Lemma spanHost_app h t :
  forallb Js.isHostChar h = true ->
  (forall c, head t = Some c -> Js.isHostChar c = false) ->
  Js.spanHost (h ++ t) = (h, t).
Proof.
  intros Hh Ht. induction h as [|a h IH]; cbn [app].
  - destruct t as [|c t]; [reflexivity|]. cbn. rewrite (Ht c eq_refl). reflexivity.
  - cbn in Hh. apply andb_prop in Hh as [Ha Hh]. cbn. rewrite Ha, (IH Hh). reflexivity.
Qed.

(** X3 (resolveWsBaseUrlFromEnv, the host:port test): the regular expression
    accepts exactly the strings made of one or more characters of the class
    [A-Za-z0-9_.-], optionally followed by a colon and one or more digits. *)
Theorem isBareHostPort_spec (s : string) :
  Js.isBareHostPort s = true <->
  exists h, h <> [] /\ forallb Js.isHostChar h = true
    /\ (list_ascii_of_string s = h
        \/ exists p, p <> [] /\ forallb Js.isDigit p = true
                     /\ list_ascii_of_string s = h ++ ":"%char :: p).
Proof.
  unfold Js.isBareHostPort. split.
  - destruct (spanHost_spec (list_ascii_of_string s)) as (H1&H2&H3).
    destruct (Js.spanHost (list_ascii_of_string s)) as [h t]. cbn [fst snd] in *.
    destruct h as [|a h]; [discriminate|].
    destruct t as [|c ds].
    + intros _. exists (a :: h). rewrite app_nil_r in H1. repeat split; [discriminate|exact H2|auto].
    + intros [Hc Hd]%andb_prop. apply Ascii.eqb_eq in Hc as ->.
      destruct ds as [|d ds]; [discriminate|].
      exists (a :: h). repeat split; [discriminate|exact H2|].
      right. exists (d :: ds). repeat split; [discriminate|exact Hd|exact H1].
  - intros (h&Hne&Hh&[->|(p&Hp&Hd&->)]).
    + rewrite <- (app_nil_r h), spanHost_app by (auto; discriminate).
      destruct h; [congruence|reflexivity].
    + rewrite spanHost_app; [|exact Hh|cbn; intros c [= <-]; reflexivity].
      destruct h; [congruence|]. destruct p; [congruence|]. exact Hd.
Qed.

End UrlShape.

(** ** Subscriptions *)
Section SubscriptionFacts.

Import Emitter.

Lemma on_subscribed n h st n' :
  subscribed (exec (on n h) st) n'
  = if decide (n' = n) then setAdd h (subscribed st n) else subscribed st n'.
Proof.
  unfold on, getSet, subscribed. eff_run.
  destruct (decide (n' = n)) as [->|Hn];
    destruct (handlers st !! n) eqn:E; cbn;
    rewrite ?lookup_insert, ?decide_True, ?decide_False, ?E by congruence;
    reflexivity.
Qed.

Lemma off_subscribed n h st n' :
  subscribed (exec (off n h) st) n'
  = if decide (n' = n) then setDelete h (subscribed st n) else subscribed st n'.
Proof.
  unfold off, subscribed. eff_run.
  destruct (decide (n' = n)) as [->|Hn];
    destruct (handlers st !! n) eqn:E; cbn;
    rewrite ?lookup_insert, ?decide_True, ?decide_False, ?E by congruence;
    reflexivity.
Qed.

Lemma setAdd_elem h s x : x ∈ setAdd h s <-> x = h \/ x ∈ s.
Proof.
  unfold setAdd. destruct (decide (h ∈ s)).
  - split; [auto|]. intros [->|]; assumption.
  - rewrite elem_of_app, list_elem_of_singleton. tauto.
Qed.

Lemma setDelete_elem h s x : x ∈ setDelete h s <-> x <> h /\ x ∈ s.
Proof. unfold setDelete. rewrite list_elem_of_filter. tauto. Qed.

Lemma setDelete_absent h s : h ∉ s -> setDelete h s = s.
Proof.
  unfold setDelete. induction s as [|a s IH]; [reflexivity|].
  intros H. apply not_elem_of_cons in H as [Hn H].
  rewrite filter_cons, decide_True by congruence.
  f_equal. exact (IH H).
Qed.

Lemma setAdd_present h s : h ∈ s -> setAdd h s = s.
Proof. unfold setAdd. intros H. destruct (decide (h ∈ s)); [reflexivity|contradiction]. Qed.

(** X4 (createEmitter.on, createEmitter.off, subscribe, unsubscribe): a
    subscription makes the handler a member of the event's set, a second one
    of the same handler changes nothing, and unsubscribing removes it and
    nothing else: the other handlers of the event and all other events keep
    their sets, and the set is the one before the subscription when the
    handler was new. Unsubscribing a handler that is not subscribed changes
    no set. *)
Theorem subscription_round_trip (st : St) (n : string) (h : HandlerId) :
  let st1 := exec (on n h) st in
  let st2 := exec (off n h) st1 in
  (h ∈ subscribed st1 n)
  /\ (forall n', subscribed (exec (on n h) st1) n' = subscribed st1 n')
  /\ (h ∉ subscribed st2 n)
  /\ (forall h', h' <> h -> (h' ∈ subscribed st2 n <-> h' ∈ subscribed st n))
  /\ (forall n', n' <> n -> subscribed st2 n' = subscribed st n')
  /\ (h ∉ subscribed st n -> subscribed st2 n = subscribed st n)
  /\ (h ∉ subscribed st n ->
      forall n', subscribed (exec (off n h) st) n' = subscribed st n').
Proof.
  cbv zeta. repeat split.
  - rewrite on_subscribed, decide_True by reflexivity. apply setAdd_elem. auto.
  - intros n'. rewrite (on_subscribed n h (exec (on n h) st) n').
    destruct (decide (n' = n)) as [->|]; [|reflexivity].
    apply setAdd_present. rewrite on_subscribed, decide_True by reflexivity.
    apply setAdd_elem. auto.
  - rewrite off_subscribed, decide_True by reflexivity.
    rewrite setDelete_elem. tauto.
  - rewrite off_subscribed, decide_True, on_subscribed, decide_True by reflexivity.
    rewrite setDelete_elem, setAdd_elem. tauto.
  - rewrite off_subscribed, decide_True, on_subscribed, decide_True by reflexivity.
    rewrite setDelete_elem, setAdd_elem. tauto.
  - intros n' Hn. rewrite off_subscribed, decide_False, on_subscribed, decide_False by assumption.
    reflexivity.
  - intros Hh. rewrite off_subscribed, decide_True, on_subscribed, decide_True by reflexivity.
    unfold setAdd. rewrite decide_False by assumption.
    unfold setDelete. rewrite filter_app, filter_cons, decide_False, filter_nil by auto.
    rewrite app_nil_r. apply setDelete_absent. exact Hh.
  - intros Hh n'. rewrite off_subscribed.
    destruct (decide (n' = n)) as [->|]; [|reflexivity]. apply setDelete_absent. exact Hh.
Qed.

Lemma on_calls n h st : calls (exec (on n h) st) = calls st.
Proof. unfold on, getSet. eff_run. destruct (handlers st !! n); reflexivity. Qed.

Lemma off_calls n h st : calls (exec (off n h) st) = calls st.
Proof. unfold off. eff_run. destruct (handlers st !! n); reflexivity. Qed.

Lemma emitted_invocations b n h st :
  setsDistinct st ->
  invocations n h (callsSince (length (calls st)) (exec (emit b n) st))
  = if decide (h ∈ subscribed st n) then 1%nat else 0%nat.
Proof.
  intros Hd. unfold callsSince. destruct (emit_calls b n st) as [_ ->].
  rewrite drop_app_length.
  apply invocations_distinct. unfold subscribed.
  destruct (handlers st !! n) eqn:E; [exact (Hd _ _ E)|constructor].
Qed.


End SubscriptionFacts.



(** ** once() *)
Section OnceFacts.

Import Emitter.

Lemma runEffects_keeps_out es n h :
  Subscribe n h ∉ es ->
  preserves (fun st => h ∉ subscribed st n) (runEffects es).
Proof.
  induction es as [|e es IH]; intros Hn; cbn [runEffects].
  - apply preserves_ret.
  - apply not_elem_of_cons in Hn as [He Hn]. destruct e as [n' h'|n' h'|what].
    + apply preserves_bind; [|intros _; exact (IH Hn)].
      intros st Hst. rewrite on_subscribed.
      destruct (decide (n = n')) as [<-|]; [|exact Hst].
      rewrite setAdd_elem. intros [->|]; [congruence|contradiction].
    + apply preserves_bind; [|intros _; exact (IH Hn)].
      intros st Hst. rewrite off_subscribed.
      destruct (decide (n = n')) as [<-|]; [|exact Hst].
      rewrite setDelete_elem. tauto.
    + apply preserves_throw.
Qed.

Lemma call_keeps_out b n h n0 fn :
  Subscribe n h ∉ b fn ->
  preserves (fun st => h ∉ subscribed st n) (try_catch (call b n0 fn) (warn n0)).
Proof.
  intros Hn. apply preserves_try.
  - unfold call. apply preserves_bind; [|intros _; apply runEffects_keeps_out, Hn].
    apply preserves_modify. auto.
  - intros e. unfold warn. apply preserves_modify. auto.
Qed.

Lemma call_once_unsubscribes b n h st :
  b h = Once.handler n h ->
  h ∉ subscribed (exec (try_catch (call b n h) (warn n)) st) n.
Proof.
  intros Hb. unfold call. rewrite Hb. unfold Once.handler. cbn [runEffects].
  unfold off. eff_run. unfold subscribed. cbn [handlers].
  destruct (handlers st !! n) eqn:E; cbn [fst snd handlers set_handlers];
    [|rewrite E; apply not_elem_of_nil].
  rewrite lookup_insert, decide_True by reflexivity. cbn.
  rewrite setDelete_elem. tauto.
Qed.

Lemma dispatch_unsubscribes b n h l :
  b h = Once.handler n h ->
  (forall h', Subscribe n h ∉ b h') ->
  h ∈ l ->
  forall st,
    h ∉ subscribed (exec (forEach l (fun fn => try_catch (call b n fn) (warn n))) st) n.
Proof.
  intros Hb Hothers. induction l as [|x l IH]; intros Hin st.
  - apply elem_of_nil in Hin as [].
  - cbn [forEach]. rewrite exec_bind.
    destruct (dispatch_one b n x st) as [-> _].
    destruct (decide (x = h)) as [->|Hx].
    + apply preserves_forEach; [intros fn; apply call_keeps_out, Hothers|].
      apply call_once_unsubscribes, Hb.
    + apply IH. apply elem_of_cons in Hin as [->|]; [congruence|assumption].
Qed.

(** X6 (once): the handler once() subscribes unsubscribes itself when it is
    called. In every reachable registry, whatever the other handlers of the
    event do short of subscribing that private closure again, the next emit
    of the event invokes it exactly once and leaves it unsubscribed, and the
    emit after that does not invoke it: the promise is resolved by the first
    event only. *)
Theorem once_fires_once
    (b : Behaviour) (ops : list Op) (n : string) (h : HandlerId) :
  b h = Once.handler n h ->
  (forall h', Subscribe n h ∉ b h') ->
  let st := exec (Once.once n h) (run b ops) in
  let st1 := exec (emit b n) st in
  let st2 := exec (emit b n) st1 in
  invocations n h (callsSince (length (calls st)) st1) = 1%nat
  /\ (h ∉ subscribed st1 n)
  /\ invocations n h (callsSince (length (calls st1)) st2) = 0%nat.
Proof.
  intros Hb Hothers. cbv zeta. unfold Once.once.
  assert (Hd : setsDistinct (exec (on n h) (run b ops))) by apply on_distinct, run_distinct.
  assert (Hin : h ∈ subscribed (exec (on n h) (run b ops)) n).
  { rewrite on_subscribed, decide_True by reflexivity. apply setAdd_elem. auto. }
  assert (Hout : h ∉ subscribed (exec (emit b n) (exec (on n h) (run b ops))) n).
  { revert Hin. generalize (exec (on n h) (run b ops)) as st. intros st Hin.
    unfold subscribed in Hin. unfold emit. rewrite exec_bind. cbn [outcome gets fst].
    change (exec (gets (fun st0 => handlers st0 !! n)) st) with st.
    destruct (handlers st !! n) as [s|] eqn:E; cbn [default] in Hin;
      [|apply elem_of_nil in Hin as []].
    destruct s as [|x s]; [apply elem_of_nil in Hin as []|].
    cbn [length Nat.eqb]. apply dispatch_unsubscribes; assumption. }
  repeat split.
  - rewrite emitted_invocations by exact Hd. rewrite decide_True by exact Hin. reflexivity.
  - exact Hout.
  - rewrite emitted_invocations by (apply emit_distinct; exact Hd).
    rewrite decide_False by exact Hout. reflexivity.
Qed.

Lemma once_fires_once_witness :
  let b : Behaviour := fun h => [Unsubscribe "open" h] in
  let st := exec (Once.once "open" 7%nat) (run b [OpOn "open" 1%nat]) in
  invocations "open" 7%nat (callsSince (length (calls st)) (exec (emit b "open") st)) = 1%nat
  /\ (7%nat ∉ subscribed (exec (emit b "open") st) "open")
  /\ invocations "open" 7%nat
       (callsSince (length (calls (exec (emit b "open") st)))
          (exec (emit b "open") (exec (emit b "open") st))) = 0%nat.
Proof.
  cbv zeta.
  apply (once_fires_once (fun h => [Unsubscribe "open" h]) [OpOn "open" 1%nat] "open" 7%nat).
  - reflexivity.
  - intros h' H. apply list_elem_of_singleton in H. discriminate H.
Defined.

End OnceFacts.

(** ** Shape of the backoff *)
Section BackoffShape.

Import Client.

(** X7 (scheduleReconnect): the base delay before jitter starts at 500 ms,
    doubles with every attempt up to the sixth, never decreases and is capped
    at 20000 ms from the sixth attempt on. *)
Theorem backoffBase_doubles_to_cap (n : nat) :
  500 <= backoffBase n <= 20000
  /\ backoffBase n <= backoffBase (S n)
  /\ ((n < 6)%nat -> backoffBase n = 500 * 2 ^ Z.of_nat n
                     /\ ((n < 5)%nat -> backoffBase (S n) = 2 * backoffBase n))
  /\ ((6 <= n)%nat -> backoffBase n = 20000).
Proof.
  unfold backoffBase, DEFAULTS.reconnectMaxMs, DEFAULTS.reconnectInitialMs.
  assert (Hp : 1 <= 2 ^ Z.of_nat n) by (apply (Z.pow_le_mono_r 2 0); lia).
  assert (Hs : 2 ^ Z.of_nat (S n) = 2 * 2 ^ Z.of_nat n).
  { rewrite Nat2Z.inj_succ, Z.pow_succ_r by lia. reflexivity. }
  rewrite Hs. split; [lia|]. split; [lia|]. split.
  - intros Hn.
    assert (2 ^ Z.of_nat n <= 2 ^ 5) by (apply Z.pow_le_mono_r; lia).
    change (2 ^ 5) with 32 in *. split; [lia|]. intros Hn'.
    assert (2 ^ Z.of_nat n <= 2 ^ 4) by (apply Z.pow_le_mono_r; lia).
    change (2 ^ 4) with 16 in *. lia.
  - intros Hn.
    assert (2 ^ 6 <= 2 ^ Z.of_nat n) by (apply Z.pow_le_mono_r; lia).
    change (2 ^ 6) with 64 in *. lia.
Qed.






End BackoffShape.

(** ** The branches of connect() *)
Section ConnectPaths.

Lemma frame_eq {A B} (F : World -> A) (m : M World B) w :
  preserves (fun s => F s = F w) m -> F (exec m w) = F w.
Proof. intros H. apply H. reflexivity. Qed.

Lemma realHost_branch h p :
  realHost h p = true ->
  negb (Url.canUseReal (env h) p) || negb (Url.hasConfiguredUrl (env h)) = false
  /\ Url.hasWebSocketSupport (env h) = true.
Proof.
  unfold realHost, Url.canUseReal.
  destruct (Url.hasWebSocketSupport (env h)), (Js.truthy (Url.connectUrl (env h) p)),
    (Url.hasConfiguredUrl (env h)); cbn; intros; try discriminate; auto.
Qed.

Lemma constructSocket_ok url protos w :
  ctorThrows (host w) url = false ->
  exec (constructSocket url protos) w
  = set_sockets (sockets w ++ [freshSocket url protos])
      (set_ws (Some (length (sockets w))) w).
Proof.
  intros Ht. unfold constructSocket, newWebSocket, alterSocket. crun.
  rewrite Ht. wsimpl. rewrite alter_snoc. reflexivity.
Qed.


End ConnectPaths.

Section ConnectBranches.

Lemma sameSettings_refl w : sameSettings w w.
Proof. repeat split. Qed.

Lemma emitStatus_same w0 b : preserves (sameSettings w0) (emitStatus b).
Proof. frame_with ltac:(assumption). Qed.

Lemma clearReconnectTimer_same w0 : preserves (sameSettings w0) clearReconnectTimer.
Proof. frame_with ltac:(assumption). Qed.

Lemma clearHeartbeatTimer_same w0 : preserves (sameSettings w0) clearHeartbeatTimer.
Proof. frame_with ltac:(assumption). Qed.

Lemma cleanupSocketRefs_same w0 : preserves (sameSettings w0) cleanupSocketRefs.
Proof. frame_with ltac:(assumption). Qed.

Lemma cleanupSocketRefs_refs w :
  let w' := exec cleanupSocketRefs w in
  ws w' = None /\ mockWs w' = None
  /\ length (sockets w') = length (sockets w)
  /\ length (mocks w') = length (mocks w)
  /\ reconnectTimer w' = reconnectTimer w
  /\ heartbeatTimer w' = heartbeatTimer w
  /\ (forall t, t ∈ timers w' -> t ∈ timers w).
Proof.
  cbv zeta. unfold cleanupSocketRefs, mock_close, alterSocket, alterMock, clearTimer, emit.
  crun. cases.
  all: repeat split; wsimpl; rewrite ?length_alter; try reflexivity.
  all: intros t Ht; try apply list_elem_of_filter in Ht as [_ Ht]; exact Ht.
Qed.

Lemma clearHeartbeatTimer_refs w :
  let w' := exec clearHeartbeatTimer w in
  heartbeatTimer w' = None /\ reconnectTimer w' = reconnectTimer w
  /\ ws w' = ws w /\ mockWs w' = mockWs w
  /\ sockets w' = sockets w /\ mocks w' = mocks w /\ trace w' = trace w
  /\ (forall t, t ∈ timers w' -> t ∈ timers w).
Proof.
  cbv zeta. unfold clearHeartbeatTimer, clearTimer. crun. cases.
  all: repeat split; wsimpl; auto.
  all: intros t Ht; try apply list_elem_of_filter in Ht as [_ Ht]; exact Ht.
Qed.

Lemma clearReconnectTimer_refs w :
  let w' := exec clearReconnectTimer w in
  reconnectTimer w' = None /\ heartbeatTimer w' = heartbeatTimer w
  /\ ws w' = ws w /\ mockWs w' = mockWs w
  /\ sockets w' = sockets w /\ mocks w' = mocks w /\ trace w' = trace w
  /\ (forall t, t ∈ timers w' -> t ∈ timers w).
Proof.
  cbv zeta. unfold clearReconnectTimer, clearTimer. crun. cases.
  all: repeat split; wsimpl; auto.
  all: intros t Ht; try apply list_elem_of_filter in Ht as [_ Ht]; exact Ht.
Qed.

Lemma internalConnect_real_branch o w :
  realHost (host w) (path o) = true ->
  exec (internalConnect o) w
  = exec (constructSocket (Url.connectUrl (env (host w)) (path o)) (protocols o))
      (exec clearHeartbeatTimer
         (exec cleanupSocketRefs
            (exec (emitStatus false)
               (set_state Connecting
                  (set_shouldReconnect
                     (match autoReconnect o with Some b => b | None => true end)
                     (entered o w)))))).
Proof.
  intros [Ec Hs]%realHost_branch. unfold internalConnect.
  rewrite !exec_modify, exec_gets. cbv zeta. rewrite exec_modify. wsimpl.
  rewrite Ec, Hs. cbn [negb]. rewrite !exec_modify.
  rewrite (exec_seq (emitStatus false)) by apply emitStatus_safe.
  rewrite (exec_seq cleanupSocketRefs) by apply cleanupSocketRefs_safe.
  rewrite (exec_seq clearHeartbeatTimer) by apply clearHeartbeatTimer_safe.
  reflexivity.
Qed.

Lemma internalConnect_mock_branch o w :
  realHost (host w) (path o) = false ->
  exec (internalConnect o) w
  = exec (m <- createMockSocket ;; modify (set_mockWs (Some m)) ;; emitStatus true)%eff
      (exec cleanupSocketRefs
         (exec clearHeartbeatTimer
            (exec clearReconnectTimer
               (set_reconnectAttempt 0
                  (set_shouldReconnect false (set_state Mock (entered o w))))))).
Proof.
  intros Hr. unfold internalConnect.
  rewrite !exec_modify, exec_gets. cbv zeta. rewrite exec_modify. wsimpl.
  assert (Ec : negb (Url.canUseReal (env (host w)) (path o))
               || negb (Url.hasConfiguredUrl (env (host w))) = true).
  { unfold realHost in Hr.
    destruct (Url.canUseReal (env (host w)) (path o)),
      (Url.hasConfiguredUrl (env (host w))); cbn in *; congruence. }
  rewrite Ec, !exec_modify.
  rewrite (exec_seq clearReconnectTimer) by apply clearReconnectTimer_safe.
  rewrite (exec_seq clearHeartbeatTimer) by apply clearHeartbeatTimer_safe.
  rewrite (exec_seq cleanupSocketRefs) by apply cleanupSocketRefs_safe.
  reflexivity.
Qed.

End ConnectBranches.

Section ConnectOutcomes.

Lemma internalConnect_real o w :
  let url := Url.connectUrl (env (host w)) (path o) in
  realHost (host w) (path o) = true ->
  ctorThrows (host w) url = false ->
  let w' := exec (internalConnect o) w in
  ws w' = Some (length (sockets w))
  /\ mockWs w' = None
  /\ sockets w' !! length (sockets w) = Some (freshSocket url (protocols o))
  /\ reconnectTimer w' = reconnectTimer w
  /\ heartbeatTimer w' = None
  /\ (forall t, t ∈ timers w' -> t ∈ timers w)
  /\ sameSettings
       (set_state Connecting
          (set_shouldReconnect (match autoReconnect o with Some b => b | None => true end)
             (entered o w))) w'.
Proof.
  cbv zeta. intros Hr Ht. rewrite internalConnect_real_branch by exact Hr.
  set (w1 := set_state Connecting _).
  set (w2 := exec (emitStatus false) w1).
  set (w3 := exec cleanupSocketRefs w2).
  set (w4 := exec clearHeartbeatTimer w3).
  assert (H12 : sameSettings w1 w2) by apply emitStatus_same, sameSettings_refl.
  assert (H13 : sameSettings w1 w3) by apply cleanupSocketRefs_same, H12.
  assert (H14 : sameSettings w1 w4) by apply clearHeartbeatTimer_same, H13.
  destruct (cleanupSocketRefs_refs w2) as (C1&C2&C3&C4&C5&C6&C7).
  fold w3 in C1, C2, C3, C4, C5, C6, C7.
  destruct (clearHeartbeatTimer_refs w3) as (B1&B2&B3&B4&B5&B6&B7&B8).
  fold w4 in B1, B2, B3, B4, B5, B6, B7, B8.
  assert (Hh : host w4 = host w) by apply H14.
  assert (Hl : length (sockets w4) = length (sockets w)).
  { rewrite B5, C3. reflexivity. }
  rewrite constructSocket_ok by (rewrite Hh; exact Ht).
  wsimpl. rewrite Hl.
  repeat split; try apply H14.
  - congruence.
  - apply lookup_snoc_length. symmetry. exact Hl.
  - rewrite B2, C5. reflexivity.
  - exact B1.
  - intros t Hin. apply B8, C7 in Hin. exact Hin.
Qed.


Lemma startMock_exec w :
  exec (m <- createMockSocket ;; modify (set_mockWs (Some m)) ;; emitStatus true)%eff w
  = set_trace (trace w ++ [("status", PStatus (state w) (orNull (lastUrl w)) true)])
      (set_mockWs (Some (length (mocks w)))
         (set_mocks (mocks w ++ [{| mk_open := false; mk_closed := false;
                                    mk_id := nextTimerId w |}])
            (set_nextTimerId (S (nextTimerId w))
               (set_timers (timers w ++ [{| t_id := nextTimerId w;
                                            t_callback := CbMockOpen (length (mocks w));
                                            t_delay := 10; t_repeat := false |}]) w)))).
Proof. unfold createMockSocket, setTimer, emitStatus, emit. crun. reflexivity. Qed.

Lemma internalConnect_mock o w :
  realHost (host w) (path o) = false ->
  let w' := exec (internalConnect o) w in
  exists w3,
    w' = exec (m <- createMockSocket ;; modify (set_mockWs (Some m)) ;; emitStatus true)%eff w3
    /\ ws w3 = None /\ mockWs w3 = None
    /\ length (sockets w3) = length (sockets w)
    /\ length (mocks w3) = length (mocks w)
    /\ reconnectTimer w3 = None
    /\ heartbeatTimer w3 = None
    /\ (forall t, t ∈ timers w3 -> t ∈ timers w)
    /\ sameSettings
         (set_reconnectAttempt 0
            (set_shouldReconnect false (set_state Mock (entered o w)))) w3.
Proof.
  cbv zeta. intros Hr. rewrite internalConnect_mock_branch by exact Hr.
  set (w0 := set_reconnectAttempt 0 _).
  set (w1 := exec clearReconnectTimer w0).
  set (w2 := exec clearHeartbeatTimer w1).
  set (w3 := exec cleanupSocketRefs w2).
  assert (H1 : sameSettings w0 w1) by apply clearReconnectTimer_same, sameSettings_refl.
  assert (H2 : sameSettings w0 w2) by apply clearHeartbeatTimer_same, H1.
  assert (H3 : sameSettings w0 w3) by apply cleanupSocketRefs_same, H2.
  destruct (clearReconnectTimer_refs w0) as (A1&A2&A3&A4&A5&A6&A7&A8).
  fold w1 in A1, A2, A3, A4, A5, A6, A7, A8.
  destruct (clearHeartbeatTimer_refs w1) as (B1&B2&B3&B4&B5&B6&B7&B8).
  fold w2 in B1, B2, B3, B4, B5, B6, B7, B8.
  destruct (cleanupSocketRefs_refs w2) as (C1&C2&C3&C4&C5&C6&C7).
  fold w3 in C1, C2, C3, C4, C5, C6, C7.
  exists w3. repeat split; try apply H3; try assumption.
  - rewrite C3, B5, A5. reflexivity.
  - rewrite C4, B6, A6. reflexivity.
  - rewrite C5, B2. exact A1.
  - rewrite C6. exact B1.
  - intros t Hin. apply C7, B8, A8 in Hin. exact Hin.
Qed.

End ConnectOutcomes.

(** ** Timer ids *)
Section TimerFacts.

Lemma setTimer_fresh cb d r : preserves TimerFresh (setTimer cb d r).
Proof.
  unfold setTimer. intros w [Hlt Hnd]. crun. split; wsimpl.
  - intros t [Ht| ->%list_elem_of_singleton]%elem_of_app.
    + specialize (Hlt t Ht). lia.
    + cbn. lia.
  - rewrite map_app. cbn [map t_id]. apply NoDup_app. repeat split.
    + exact Hnd.
    + intros x Hx ->%list_elem_of_singleton.
      apply list_elem_of_fmap in Hx as (t&Hid&Ht). specialize (Hlt t Ht). lia.
    + apply NoDup_singleton.
Qed.

Lemma clearTimer_fresh id : preserves TimerFresh (clearTimer id).
Proof.
  unfold clearTimer. intros w [Hlt Hnd]. crun. split; wsimpl.
  - intros t [_ Ht]%list_elem_of_filter. exact (Hlt t Ht).
  - clear Hlt. induction (timers w) as [|t l IH]; [constructor|].
    cbn [map] in Hnd. apply NoDup_cons in Hnd as [Hn Hnd].
    rewrite filter_cons. destruct (decide (t_id t <> id)); [|exact (IH Hnd)].
    cbn [map]. apply NoDup_cons. split; [|exact (IH Hnd)].
    intros Hin. apply Hn.
    apply list_elem_of_fmap in Hin as (t'&Hid&[_ Ht']%list_elem_of_filter).
    apply list_elem_of_fmap. exists t'. auto.
Qed.

Ltac fresh_step :=
  lazymatch goal with
  | |- preserves _ (setTimer _ _ _) => apply setTimer_fresh
  | |- preserves _ (clearTimer _) => apply clearTimer_fresh
  | |- preserves _ (modify _) => apply preserves_modify; intros ? ?; assumption
  | |- preserves _ ?m => first [ eff_step | let h := head m in unfold h ]
  end.

Lemma step_fresh l : preserves TimerFresh (step l).
Proof. repeat fresh_step. Qed.

Lemma reachable_fresh w : reachable w -> TimerFresh w.
Proof.
  intros (h&ls&->).
  assert (H0 : TimerFresh (init h)).
  { split; [intros t Ht; apply elem_of_nil in Ht as []|constructor]. }
  revert H0. generalize (init h). induction ls as [|l ls IH]; intros w H; [exact H|].
  cbn [run fold_left]. apply IH, step_fresh, H.
Qed.

Lemma find_fresh (l : list Timer) (t : Timer) :
  NoDup (map t_id l) -> t ∈ l ->
  find (fun t' => (t_id t' =? t_id t)%nat) l = Some t.
Proof.
  induction l as [|a l IH]; intros Hnd Hin; [apply elem_of_nil in Hin as []|].
  cbn [map] in Hnd. apply NoDup_cons in Hnd as [Hn Hnd]. cbn [find].
  apply elem_of_cons in Hin as [->|Hin].
  - rewrite Nat.eqb_refl. reflexivity.
  - destruct (Nat.eqb_spec (t_id a) (t_id t)) as [E|_]; [|exact (IH Hnd Hin)].
    exfalso. apply Hn. rewrite E. apply list_elem_of_fmap. exists t. auto.
Qed.

Lemma filter_fresh (l : list Timer) (id : nat) :
  (forall t, t ∈ l -> (t_id t < id)%nat) ->
  filter (fun t => t_id t <> id) l = l.
Proof.
  induction l as [|a l IH]; intros H; [reflexivity|].
  rewrite filter_cons, decide_True.
  - f_equal. apply IH. intros t Ht. apply H. right. exact Ht.
  - specialize (H a). pose proof (H ltac:(left)). lia.
Qed.

Lemma pending_one kind w v :
  NoDup (map t_id (timers w)) ->
  (forall t, t ∈ timers w -> kind (t_callback t) = true -> v = Some (t_id t)) ->
  (length (pending kind w) <= 1)%nat.
Proof.
  unfold pending. intros Hnd Hv.
  induction (timers w) as [|a l IH]; [cbn; lia|].
  cbn [map] in Hnd. apply NoDup_cons in Hnd as [Hn Hnd].
  assert (IH' := IH Hnd (fun t Ht => Hv t (list_elem_of_further _ _ _ Ht))).
  cbn [List.filter]. destruct (kind (t_callback a)) eqn:Ea; [|exact IH'].
  destruct (List.filter (fun t => kind (t_callback t)) l) as [|b r] eqn:Ef; [cbn; lia|].
  exfalso. apply Hn.
  assert (Hb : In b (List.filter (fun t => kind (t_callback t)) l)) by (rewrite Ef; left; reflexivity).
  apply filter_In in Hb as [Hbl Hbk].
  assert (Hbl' : b ∈ l) by (apply list_elem_of_In; exact Hbl).
  pose proof (Hv a ltac:(left) Ea) as E1.
  pose proof (Hv b (list_elem_of_further _ _ _ Hbl') Hbk) as E2.
  assert (t_id a = t_id b) as -> by congruence.
  apply list_elem_of_fmap. exists b. auto.
Qed.

(** X9 (scheduleReconnect, startHeartbeat, clearReconnectTimer,
    clearHeartbeatTimer): in every reachable state at most one reconnect
    timer and at most one heartbeat interval are pending, and the pending one
    is the one whose id the variable holds: re-arming always cancels the
    timer armed before. No id is pending twice. *)
Theorem at_most_one_timer_of_a_kind (w : World) :
  reachable w ->
  (length (pending isReconnect w) <= 1)%nat
  /\ (length (pending isHeartbeat w) <= 1)%nat
  /\ (forall t, In t (pending isReconnect w) -> reconnectTimer w = Some (t_id t))
  /\ (forall t, In t (pending isHeartbeat w) -> heartbeatTimer w = Some (t_id t))
  /\ NoDup (map t_id (timers w)).
Proof.
  intros Hr. destruct (reachable_inv w Hr) as (_&_&_&Ht).
  destruct (reachable_fresh w Hr) as [_ Hnd].
  repeat split.
  - apply (pending_one _ _ (reconnectTimer w) Hnd). intros t Hin Hk. apply Ht; assumption.
  - apply (pending_one _ _ (heartbeatTimer w) Hnd). intros t Hin Hk. apply Ht; assumption.
  - intros t [Hin Hk]%filter_In. apply Ht; [apply list_elem_of_In|]; assumption.
  - intros t [Hin Hk]%filter_In. apply Ht; [apply list_elem_of_In|]; assumption.
  - exact Hnd.
Qed.

Lemma at_most_one_timer_of_a_kind_witness :
  let w := run [Connect Examples.wsPath; TransportOpen 0; TransportError 0;
                TransportClose 0 1006 "" false; Fire 2; TransportOpen 1]
               (init Examples.online) in
  (length (pending isReconnect w) <= 1)%nat
  /\ (length (pending isHeartbeat w) <= 1)%nat
  /\ (forall t, In t (pending isReconnect w) -> reconnectTimer w = Some (t_id t))
  /\ (forall t, In t (pending isHeartbeat w) -> heartbeatTimer w = Some (t_id t))
  /\ NoDup (map t_id (timers w)).
Proof.
  cbv zeta. apply at_most_one_timer_of_a_kind.
  exists Examples.online.
  exists [Connect Examples.wsPath; TransportOpen 0; TransportError 0;
          TransportClose 0 1006 "" false; Fire 2; TransportOpen 1].
  reflexivity.
Defined.

End TimerFacts.

(** ** Reconnection *)

(** Splits a [sameSettings] fact into its equations. *)
Ltac settings H := unfold sameSettings, entered in H; wsimpl; decompose [and] H; clear H.

Section ReconnectFacts.

Lemma scheduleReconnect_off w r :
  shouldReconnect w = false \/ explicitlyDisconnected w = true ->
  exec (scheduleReconnect r) w = w.
Proof.
  intros H. unfold scheduleReconnect. rewrite !exec_gets.
  destruct H as [-> | ->]; [reflexivity|]. rewrite orb_true_r. reflexivity.
Qed.


(** The state connect() hands to internalConnect. *)
Lemma connect_prefix o w :
  let wc := set_explicitlyDisconnected false
              (set_connectOptions o (exec clearReconnectTimer w)) in
  exec (connect o) w = exec (internalConnect o) wc
  /\ host wc = host w /\ reconnectTimer wc = None
  /\ sockets wc = sockets w /\ mocks wc = mocks w
  /\ ws wc = ws w /\ mockWs wc = mockWs w
  /\ reconnectAttempt wc = reconnectAttempt w
  /\ randomCalls wc = randomCalls w
  /\ nextTimerId wc = nextTimerId w
  /\ outboundQueue wc = outboundQueue w
  /\ heartbeatTimer wc = heartbeatTimer w
  /\ trace wc = trace w
  /\ (forall t, t ∈ timers wc -> t ∈ timers w).
Proof.
  cbv zeta. split; [apply connect_enters|].
  destruct (clearReconnectTimer_refs w) as (A1&A2&A3&A4&A5&A6&A7&A8).
  pose proof (clearReconnectTimer_same w w (sameSettings_refl w)) as S.
  unfold sameSettings in S. wsimpl. intuition.
Qed.




End ReconnectFacts.

(** ** The socket handlers *)
Section HandlerFacts.

Lemma transportError_handler w i s :
  sockets w !! i = Some s -> onerror s = true ->
  exec (transportError i) w = exec ws_onerror w.
Proof.
  intros Hs Ho. unfold transportError. rewrite exec_gets, Hs, Ho. reflexivity.
Qed.

Lemma transportMessage_handler w i s ev :
  sockets w !! i = Some s -> onmessage s = true ->
  exec (transportMessage i ev) w = exec (ws_onmessage ev) w.
Proof.
  intros Hs Ho. unfold transportMessage. rewrite exec_gets, Hs, Ho. reflexivity.
Qed.

Lemma exec_emitStatus b w :
  exec (emitStatus b) w
  = set_trace (trace w ++ [("status", PStatus (state w) (orNull (lastUrl w)) b)]) w.
Proof. reflexivity. Qed.

Lemma exec_emit n p w : exec (emit n p) w = set_trace (trace w ++ [(n, p)]) w.
Proof. reflexivity. Qed.

Lemma ws_onerror_exec w :
  exec ws_onerror w
  = exec (scheduleReconnect "error")
      (set_trace (trace w ++ [("status", PStatus Error (orNull (lastUrl w)) false);
                              ("error", PError SocketError false)])
         (set_state Error w)).
Proof.
  unfold ws_onerror. rewrite exec_modify.
  rewrite (exec_seq (emitStatus false)) by apply emitStatus_safe.
  rewrite (exec_seq (emit _ _)) by apply emit_safe.
  rewrite exec_emitStatus, exec_emit. wsimpl. rewrite <- app_assoc. reflexivity.
Qed.

Lemma ws_onclose_exec w code reason wasClean :
  let wh := exec clearHeartbeatTimer w in
  let w2 :=
    set_trace (trace wh ++ [("status", PStatus Closed (orNull (lastUrl wh)) false);
                            ("close", PClose code reason wasClean false)])
      (set_state Closed wh) in
  exec (ws_onclose code reason wasClean) w
  = if negb (explicitlyDisconnected wh) && shouldReconnect wh
    then exec (scheduleReconnect "close") w2 else w2.
Proof.
  cbv zeta. unfold ws_onclose.
  rewrite exec_seq by apply clearHeartbeatTimer_safe.
  rewrite exec_gets, exec_modify.
  rewrite (exec_seq (emitStatus false)) by apply emitStatus_safe.
  rewrite (exec_seq (emit _ _)) by apply emit_safe.
  rewrite exec_gets, exec_emitStatus, exec_emit. wsimpl. rewrite <- app_assoc. cbn [app].
  destruct (negb _ && _); reflexivity.
Qed.

Lemma ws_onclose_disabled w code reason wasClean :
  shouldReconnect w = false \/ explicitlyDisconnected w = true ->
  let w' := exec (ws_onclose code reason wasClean) w in
  state w' = Closed /\ reconnectTimer w' = reconnectTimer w /\ heartbeatTimer w' = None.
Proof.
  intros H. cbv zeta. rewrite ws_onclose_exec.
  pose proof (clearHeartbeatTimer_same w w (sameSettings_refl w)) as S.
  destruct (clearHeartbeatTimer_refs w) as (B1&B2&_).
  settings S.
  assert (E : negb (explicitlyDisconnected (exec clearHeartbeatTimer w))
              && shouldReconnect (exec clearHeartbeatTimer w) = false).
  { destruct H as [H|H]; [rewrite andb_false_iff; right|rewrite andb_false_iff; left];
      [|apply negb_false_iff]; congruence. }
  rewrite E. wsimpl. auto.
Qed.

Lemma pending_none kind w v :
  (forall t, t ∈ timers w -> kind (t_callback t) = true -> v = Some (t_id t)) ->
  v = None -> pending kind w = [].
Proof.
  unfold pending. intros H ->. induction (timers w) as [|a l IH]; [reflexivity|].
  cbn [List.filter]. destruct (kind (t_callback a)) eqn:E.
  - specialize (H a ltac:(left) E). discriminate.
  - apply IH. intros t Ht. apply H. right. exact Ht.
Qed.

Lemma pending_reconnect_none w :
  Inv w -> reconnectTimer w = None -> pending isReconnect w = [].
Proof.
  intros (_&_&_&Ht) Hn. apply (pending_none _ _ (reconnectTimer w)); [|exact Hn].
  intros t Hin Hk. apply Ht; assumption.
Qed.

Lemma connect_real o w :
  let url := Url.connectUrl (env (host w)) (path o) in
  realHost (host w) (path o) = true ->
  ctorThrows (host w) url = false ->
  let w' := exec (connect o) w in
  ws w' = Some (length (sockets w))
  /\ mockWs w' = None
  /\ sockets w' !! length (sockets w) = Some (freshSocket url (protocols o))
  /\ reconnectTimer w' = None
  /\ heartbeatTimer w' = None
  /\ state w' = Connecting
  /\ shouldReconnect w' = match autoReconnect o with Some b => b | None => true end
  /\ explicitlyDisconnected w' = false
  /\ connectOptions w' = o
  /\ reconnectAttempt w' = reconnectAttempt w
  /\ outboundQueue w' = outboundQueue w
  /\ host w' = host w
  /\ (forall t, t ∈ timers w' -> t ∈ timers w).
Proof.
  cbv zeta. intros Hr Ht.
  destruct (connect_prefix o w)
    as (-> & Hh & Hrt & Hsk & Hmk & _ & _ & Hra & Hrc & Hnt & Hq & _ & _ & Htm).
  set (wc := set_explicitlyDisconnected false _) in *.
  destruct (internalConnect_real o wc) as (R1&R2&R3&R4&R5&R6&S);
    [rewrite Hh; exact Hr | rewrite Hh; exact Ht |].
  settings S. rewrite Hsk, Hh in *.
  repeat split; try congruence.
  intros t Hin. apply Htm, R6, Hin.
Qed.

(** X11 (connect, ws.onerror, ws.onclose, scheduleReconnect): after
    connect({autoReconnect: false}) to a configured address, an error or a
    close of the socket before it opened leaves the state Error,
    respectively Closed, and arms no reconnect timer: the variable is null
    and no reconnect timer is pending. *)
Theorem no_reconnect_when_disabled
    (w : World) (o : ConnectOptions) (code : Z) (reason : string) (wasClean : bool) :
  reachable w ->
  realHost (host w) (path o) = true ->
  ctorThrows (host w) (Url.connectUrl (env (host w)) (path o)) = false ->
  autoReconnect o = Some false ->
  let w1 := exec (connect o) w in
  let i := length (sockets w) in
  let we := exec (transportError i) w1 in
  let wc := exec (transportClose i code reason wasClean) w1 in
  ws w1 = Some i
  /\ state we = Error /\ state wc = Closed
  /\ reconnectTimer we = None /\ reconnectTimer wc = None
  /\ pending isReconnect we = [] /\ pending isReconnect wc = []
  /\ emittedSince (length (trace w1)) "error" we = [("error", PError SocketError false)].
Proof.
  cbv zeta. intros Hreach Hr Ht Ha.
  assert (Hi1 : Inv (exec (connect o) w)).
  { apply (step_inv (Connect o)), reachable_inv, Hreach. }
  assert (Hie : Inv (exec (transportError (length (sockets w))) (exec (connect o) w))).
  { apply (step_inv (TransportError _)), Hi1. }
  assert (Hic : Inv (exec (transportClose (length (sockets w)) code reason wasClean)
                       (exec (connect o) w))).
  { apply (step_inv (TransportClose _ _ _ _)), Hi1. }
  destruct (connect_real o w Hr Ht) as (C1&C2&C3&C4&C5&C6&C7&C8&C9&C10&C11&C12&C13).
  rewrite Ha in C7.
  revert Hie Hic. set (w1 := exec (connect o) w) in *. intros Hie Hic.
  assert (He : exec (transportError (length (sockets w))) w1
               = set_trace (trace w1 ++ [("status", PStatus Error (orNull (lastUrl w1)) false);
                                         ("error", PError SocketError false)])
                   (set_state Error w1)).
  { rewrite (transportError_handler _ _ _ C3 eq_refl), ws_onerror_exec.
    apply scheduleReconnect_off. left. exact C7. }
  assert (Hc : reconnectTimer (exec (transportClose (length (sockets w)) code reason wasClean) w1)
               = None
               /\ state (exec (transportClose (length (sockets w)) code reason wasClean) w1)
                  = Closed).
  { rewrite (transportClose_handler _ _ _ _ _ _ C3 eq_refl).
    match goal with
    | |- context [exec (ws_onclose _ _ _) ?v] =>
        destruct (ws_onclose_disabled v code reason wasClean (or_introl C7)) as (D1&D2&_)
    end.
    split; [rewrite D2; exact C4 | exact D1]. }
  destruct Hc as [Hc1 Hc2].
  repeat split; try assumption.
  - rewrite He. reflexivity.
  - rewrite He. exact C4.
  - apply pending_reconnect_none; [exact Hie|]. rewrite He. exact C4.
  - apply pending_reconnect_none; assumption.
  - rewrite He. unfold emittedSince. wsimpl. rewrite drop_app_length. reflexivity.
Qed.

Lemma no_reconnect_when_disabled_witness :
  let o := {| path := Some "/ws"; protocols := None; autoReconnect := Some false |} in
  let w := init Examples.online in
  let w1 := exec (connect o) w in
  ws w1 = Some 0%nat
  /\ state (exec (transportError 0) w1) = Error
  /\ state (exec (transportClose 0 1006 "gone" false) w1) = Closed
  /\ reconnectTimer (exec (transportError 0) w1) = None
  /\ reconnectTimer (exec (transportClose 0 1006 "gone" false) w1) = None
  /\ pending isReconnect (exec (transportError 0) w1) = []
  /\ pending isReconnect (exec (transportClose 0 1006 "gone" false) w1) = []
  /\ emittedSince (length (trace w1)) "error" (exec (transportError 0) w1)
     = [("error", PError SocketError false)].
Proof.
  cbv zeta.
  apply (no_reconnect_when_disabled (init Examples.online)
           {| path := Some "/ws"; protocols := None; autoReconnect := Some false |}
           1006 "gone" false).
  - exists Examples.online, []. reflexivity.
  - vm_compute. reflexivity.
  - reflexivity.
  - reflexivity.
Defined.

End HandlerFacts.

(** ** The reconnect cycle and the queue across connections *)
Section CycleFacts.

Lemma fire_timeout w t :
  NoDup (map t_id (timers w)) -> t ∈ timers w -> t_repeat t = false ->
  exec (fire (t_id t)) w
  = exec (runCallback (t_callback t))
      (set_timers (filter (fun t' => t_id t' <> t_id t) (timers w)) w).
Proof.
  intros Hnd Hin Hrep. unfold fire. rewrite exec_gets, (find_fresh _ _ Hnd Hin), Hrep.
  rewrite exec_seq by (unfold clearTimer; apply safe_modify). reflexivity.
Qed.

(** X12 (scheduleReconnect, the function handed to setTimeout): when a
    pending reconnect timer comes due the attempt counter goes up by one
    and internalConnect runs with the options of the last connect(): with
    an address configured and a constructor that returns, a new socket to
    the same address is the current one, in state Connecting, the timer
    that fired is no longer pending, no timer was added and the queue is
    untouched. *)
Theorem reconnect_timer_reconnects (w : World) (id : nat) (delay : Z) (reason : string) :
  let o := connectOptions w in
  let url := Url.connectUrl (env (host w)) (path o) in
  reachable w ->
  {| t_id := id; t_callback := CbReconnect delay reason;
     t_delay := delay; t_repeat := false |} ∈ timers w ->
  realHost (host w) (path o) = true ->
  ctorThrows (host w) url = false ->
  let w' := exec (fire id) w in
  reconnectAttempt w' = S (reconnectAttempt w)
  /\ state w' = Connecting
  /\ ws w' = Some (length (sockets w))
  /\ sockets w' !! length (sockets w) = Some (freshSocket url (protocols o))
  /\ connectOptions w' = o
  /\ (forall t, t ∈ timers w' -> t ∈ timers w /\ t_id t <> id)
  /\ outboundQueue w' = outboundQueue w.
Proof.
  cbv zeta. intros Hreach Hin Hr Ht.
  destruct (reachable_fresh w Hreach) as [_ Hnd].
  pose proof (fire_timeout w _ Hnd Hin eq_refl) as Hf.
  cbn [t_callback t_id runCallback] in Hf. rewrite Hf. clear Hf.
  unfold reconnectTick. rewrite exec_modify, exec_gets. wsimpl.
  set (w2 := set_reconnectAttempt _ _).
  destruct (internalConnect_real (connectOptions w) w2 Hr Ht) as (R1&R2&R3&R4&R5&R6&S).
  settings S. subst w2. wsimpl.
  repeat split; try assumption.
  all: match goal with
       | Hx : _ ∈ timers _ |- _ => apply R6, list_elem_of_filter in Hx as [? ?]; assumption
       end.
Qed.

Lemma reconnect_timer_reconnects_witness :
  let w := run [Connect Examples.wsPath; TransportError 0] (init Examples.online) in
  reconnectAttempt (exec (fire 1) w) = S (reconnectAttempt w)
  /\ state (exec (fire 1) w) = Connecting
  /\ ws (exec (fire 1) w) = Some (length (sockets w))
  /\ sockets (exec (fire 1) w) !! length (sockets w)
     = Some (freshSocket (Url.connectUrl (env (host w)) (path (connectOptions w)))
               (protocols (connectOptions w)))
  /\ connectOptions (exec (fire 1) w) = connectOptions w
  /\ (forall t, t ∈ timers (exec (fire 1) w) -> t ∈ timers w /\ t_id t <> 1%nat)
  /\ outboundQueue (exec (fire 1) w) = outboundQueue w.
Proof.
  cbv zeta.
  apply (reconnect_timer_reconnects
           (run [Connect Examples.wsPath; TransportError 0] (init Examples.online))
           1 500 "error").
  - exists Examples.online, [Connect Examples.wsPath; TransportError 0]. reflexivity.
  - vm_compute. left.
  - vm_compute. reflexivity.
  - reflexivity.
Defined.

Lemma disconnect_keeps w :
  host (exec disconnect w) = host w
  /\ outboundQueue (exec disconnect w) = outboundQueue w
  /\ length (sockets (exec disconnect w)) = length (sockets w).
Proof.
  repeat split.
  - apply (host_stable Disconnect). reflexivity.
  - apply (frame_eq outboundQueue). frame.
  - apply (frame_eq (fun s => length (sockets s))).
    frame_with ltac:(rewrite ?length_alter; assumption).
Qed.

(** X13 (disconnect, connect, flushQueue): disconnect() does not clear the
    outbound queue. The frames queued before it are still queued after it
    and after the next connect(), and when the socket of that connection
    opens they are handed to it, oldest first, as the first frames it
    sends. *)
Theorem queue_survives_disconnect (w : World) (o : ConnectOptions) :
  realHost (host w) (path o) = true ->
  ctorThrows (host w) (Url.connectUrl (env (host w)) (path o)) = false ->
  (forall f, f ∈ outboundQueue w -> sendThrows (host w) f = false) ->
  let w1 := exec disconnect w in
  let w2 := exec (connect o) w1 in
  let i := length (sockets w) in
  let w3 := exec (transportOpen i) w2 in
  outboundQueue w1 = outboundQueue w
  /\ outboundQueue w2 = outboundQueue w
  /\ ws w2 = Some i
  /\ (exists s3, sockets w3 !! i = Some s3 /\ sent s3 = outboundQueue w)
  /\ outboundQueue w3 = []
  /\ state w3 = Open.
Proof.
  cbv zeta. intros Hr Ht Hf.
  destruct (disconnect_keeps w) as (Hh&Hq&Hl).
  destruct (connect_real o (exec disconnect w)) as (C1&C2&C3&C4&C5&C6&C7&C8&C9&C10&C11&C12&C13).
  { rewrite Hh. exact Hr. }
  { rewrite Hh. exact Ht. }
  rewrite Hl, Hh in *. rewrite Hq in C11.
  destruct (transportOpen_flushes _ _ _ C1 C3 eq_refl) as (F1&F2&F3).
  { rewrite C11, C12. exact Hf. }
  rewrite C11 in F1.
  repeat split; try assumption.
  eexists. split; [exact F1|].
  destruct (sent_pushed (outboundQueue w)
              (set_readyState OPEN
                 (freshSocket (Url.connectUrl (env (host w)) (path o)) (protocols o))))
    as [-> _].
  reflexivity.
Qed.

Lemma queue_survives_disconnect_witness :
  let w := run [Connect Examples.wsPath; Send (MString "a"); Send (MString "b")]
               (init Examples.online) in
  let w2 := exec (connect Examples.wsPath) (exec disconnect w) in
  outboundQueue (exec disconnect w) = outboundQueue w
  /\ outboundQueue w2 = outboundQueue w
  /\ ws w2 = Some (length (sockets w))
  /\ (exists s3, sockets (exec (transportOpen (length (sockets w))) w2)
                   !! length (sockets w) = Some s3
                 /\ sent s3 = outboundQueue w)
  /\ outboundQueue (exec (transportOpen (length (sockets w))) w2) = []
  /\ state (exec (transportOpen (length (sockets w))) w2) = Open.
Proof.
  cbv zeta.
  apply (queue_survives_disconnect
           (run [Connect Examples.wsPath; Send (MString "a"); Send (MString "b")]
                (init Examples.online)) Examples.wsPath).
  - vm_compute. reflexivity.
  - reflexivity.
  - intros f _. reflexivity.
Defined.

End CycleFacts.

(** ** Mock mode *)
Section MockFacts.

Lemma pending_heartbeat_none w :
  Inv w -> heartbeatTimer w = None -> pending isHeartbeat w = [].
Proof.
  intros (_&_&_&Ht) Hn. apply (pending_none _ _ (heartbeatTimer w)); [|exact Hn].
  intros t Hin Hk. apply Ht; assumption.
Qed.

Lemma mockIsOpen_inv w :
  mockIsOpen w = true ->
  exists m k, mockWs w = Some m /\ mocks w !! m = Some k
              /\ mk_open k = true /\ mk_closed k = false.
Proof.
  unfold mockIsOpen, mock_readyState.
  destruct (mockWs w) as [m|]; [|discriminate].
  destruct (mocks w !! m) as [k|] eqn:Ek; [|discriminate].
  destruct (mk_closed k) eqn:Ec, (mk_open k) eqn:Eo; cbn; try discriminate.
  intros _. exists m, k. repeat split; auto.
Qed.

(** X14 (internalConnect, createMockSocket): when no address is configured,
    no WebSocket is available or the address is empty, connect() from any
    reachable state enters Mock mode: the state and getStatus().isMock say
    so, a new mock socket is the only transport, automatic reconnection is
    off, the attempt counter is zero, no reconnect or heartbeat timer is
    pending, and the only timer added is the mock's 10 ms opening timer. When
    that timer fires the mock is open and exactly one event, open, is
    emitted. *)
Theorem mock_mode_entry (w : World) (o : ConnectOptions) :
  reachable w ->
  realHost (host w) (path o) = false ->
  let w1 := exec (connect o) w in
  let m := length (mocks w) in
  let w2 := exec (fire (nextTimerId w)) w1 in
  state w1 = Mock /\ ws w1 = None /\ mockWs w1 = Some m
  /\ st_isMock (getStatus w1) = true
  /\ shouldReconnect w1 = false /\ reconnectAttempt w1 = 0%nat
  /\ reconnectTimer w1 = None /\ heartbeatTimer w1 = None
  /\ pending isReconnect w1 = [] /\ pending isHeartbeat w1 = []
  /\ last (timers w1)
     = Some {| t_id := nextTimerId w; t_callback := CbMockOpen m;
               t_delay := 10; t_repeat := false |}
  /\ last (trace w1)
     = Some ("status",
             PStatus Mock (orNull (Url.connectUrl (env (host w)) (path o))) true)
  /\ mockIsOpen w1 = false /\ mockIsOpen w2 = true
  /\ trace w2 = trace w1 ++ [("open", POpenMock)]
  /\ state w2 = Mock.
Proof.
  cbv zeta. intros Hreach Hr.
  assert (Hi1 : Inv (exec (connect o) w)).
  { apply (step_inv (Connect o)), reachable_inv, Hreach. }
  assert (Hf1 : TimerFresh (exec (connect o) w)).
  { apply (step_fresh (Connect o)), reachable_fresh, Hreach. }
  revert Hi1 Hf1.
  destruct (connect_prefix o w)
    as (-> & Hh & Hrt & Hsk & Hmk & _ & _ & Hra & Hrc & Hnt & Hq & _ & _ & Htm).
  set (wc := set_explicitlyDisconnected false _) in *.
  destruct (internalConnect_mock o wc) as (w3 & -> & M1 & M2 & M3 & M4 & M5 & M6 & M7 & S);
    [rewrite Hh; exact Hr|].
  settings S. rewrite startMock_exec. intros Hi1 [_ Hnd].
  set (T := {| t_id := nextTimerId w3; t_callback := CbMockOpen (length (mocks w3));
               t_delay := 10; t_repeat := false |}) in *.
  set (K := {| mk_open := false; mk_closed := false; mk_id := nextTimerId w3 |}) in *.
  set (w1 := set_trace _ _) in *.
  assert (Hm : mocks w1 !! length (mocks w3) = Some K).
  { subst w1. wsimpl. apply lookup_snoc_length. reflexivity. }
  assert (Hn3 : nextTimerId w3 = nextTimerId w) by congruence.
  assert (Hl3 : length (mocks w3) = length (mocks w)) by congruence.
  assert (Hfire : exec (fire (nextTimerId w)) w1
                  = set_trace (trace w1 ++ [("open", POpenMock)])
                      (set_mocks (alter (fun k => {| mk_open := true; mk_closed := mk_closed k;
                                                      mk_id := mk_id k |})
                                    (length (mocks w3)) (mocks w1))
                         (set_timers (filter (fun t' => t_id t' <> nextTimerId w3) (timers w1))
                            w1))).
  { rewrite <- Hn3.
    pose proof (fire_timeout w1 T Hnd) as Hf. cbn [t_id t_callback t_repeat T] in Hf.
    rewrite Hf; [|subst w1; wsimpl; apply elem_of_app; right; left|reflexivity].
    cbn [runCallback]. unfold mock_timeout. rewrite exec_gets. wsimpl.
    rewrite Hm. cbn [K mk_closed]. reflexivity. }
  rewrite Hfire.
  assert (Hst : state w1 = Mock) by (subst w1; wsimpl; assumption).
  repeat split.
  - exact Hst.
  - subst w1; wsimpl; assumption.
  - subst w1; wsimpl; congruence.
  - unfold getStatus; cbn [st_isMock]. rewrite Hst. reflexivity.
  - subst w1; wsimpl; assumption.
  - subst w1; wsimpl; assumption.
  - subst w1; wsimpl; assumption.
  - subst w1; wsimpl; assumption.
  - apply pending_reconnect_none; [exact Hi1|]. subst w1; wsimpl; assumption.
  - apply pending_heartbeat_none; [exact Hi1|]. subst w1; wsimpl; assumption.
  - subst w1; wsimpl. rewrite last_snoc. subst T. congruence.
  - subst w1; wsimpl. rewrite last_snoc. congruence.
  - unfold mockIsOpen. replace (mockWs w1) with (Some (length (mocks w3))) by reflexivity.
    rewrite Hm. reflexivity.
  - unfold mockIsOpen. wsimpl.
    replace (mockWs w1) with (Some (length (mocks w3))) by reflexivity.
    rewrite list_lookup_alter_eq, Hm. reflexivity.
  - wsimpl. exact Hst.
Qed.

Lemma mock_mode_entry_witness :
  let w := init Examples.offline in
  let o := Examples.defaultOptions in
  let w1 := exec (connect o) w in
  let m := length (mocks w) in
  let w2 := exec (fire (nextTimerId w)) w1 in
  state w1 = Mock /\ ws w1 = None /\ mockWs w1 = Some m
  /\ st_isMock (getStatus w1) = true
  /\ shouldReconnect w1 = false /\ reconnectAttempt w1 = 0%nat
  /\ reconnectTimer w1 = None /\ heartbeatTimer w1 = None
  /\ pending isReconnect w1 = [] /\ pending isHeartbeat w1 = []
  /\ last (timers w1)
     = Some {| t_id := nextTimerId w; t_callback := CbMockOpen m;
               t_delay := 10; t_repeat := false |}
  /\ last (trace w1)
     = Some ("status",
             PStatus Mock (orNull (Url.connectUrl (env (host w)) (path o))) true)
  /\ mockIsOpen w1 = false /\ mockIsOpen w2 = true
  /\ trace w2 = trace w1 ++ [("open", POpenMock)]
  /\ state w2 = Mock.
Proof.
  cbv zeta. apply (mock_mode_entry (init Examples.offline) Examples.defaultOptions).
  - exists Examples.offline, []. reflexivity.
  - reflexivity.
Defined.

Lemma find_app_fresh (l : list Timer) (t : Timer) :
  (forall t', t' ∈ l -> (t_id t' < t_id t)%nat) ->
  find (fun t' => (t_id t' =? t_id t)%nat) (l ++ [t]) = Some t.
Proof.
  induction l as [|a l IH]; intros H; cbn [app find].
  - rewrite Nat.eqb_refl. reflexivity.
  - pose proof (H a ltac:(left)) as Ha.
    destruct (Nat.eqb_spec (t_id a) (t_id t)); [lia|].
    apply IH. intros t' Ht'. apply H. right. exact Ht'.
Qed.

(** X15 (createMockSocket.send, sendFrame): while the mock is open, send()
    of a string queues nothing and emits nothing at once; it arms one 0 ms
    timer, and when that timer fires exactly one event is emitted, message,
    carrying the frame unchanged with isMock true. The frame is not parsed:
    no event named after an event field of the frame is emitted. *)
Theorem mock_echoes_frame (w : World) (f : string) :
  reachable w ->
  mockIsOpen w = true ->
  let w1 := exec (send (MString f)) w in
  let w2 := exec (fire (nextTimerId w)) w1 in
  outboundQueue w1 = outboundQueue w
  /\ trace w1 = trace w
  /\ (exists m, mockWs w = Some m
        /\ timers w1 = timers w ++ [{| t_id := nextTimerId w; t_callback := CbMockEcho m f;
                                       t_delay := 0; t_repeat := false |}])
  /\ trace w2 = trace w ++ [("message", PMessage f true)]
  /\ timers w2 = timers w
  /\ outboundQueue w2 = outboundQueue w.
Proof.
  cbv zeta. intros Hreach Ho.
  destruct (reachable_inv w Hreach) as (_&_&Hone&_).
  destruct (reachable_fresh w Hreach) as [Hlt _].
  destruct (mockIsOpen_inv w Ho) as (m&k&Hm&Hk&Hop&Hcl).
  assert (Hws : ws w = None) by (destruct Hone as [H|H]; [exact H|congruence]).
  set (T := {| t_id := nextTimerId w; t_callback := CbMockEcho m f;
               t_delay := 0; t_repeat := false |}).
  assert (Hsend : exec (send (MString f)) w
                  = set_nextTimerId (S (nextTimerId w)) (set_timers (timers w ++ [T]) w)).
  { cbn [send]. unfold sendFrame, transmit, mock_send, setTimer. crun.
    rewrite Ho, orb_true_r. cbn [negb]. rewrite Hws, Hm, Hk, Hop, Hcl. reflexivity. }
  rewrite Hsend. wsimpl.
  assert (Hfire : exec (fire (nextTimerId w))
                    (set_nextTimerId (S (nextTimerId w)) (set_timers (timers w ++ [T]) w))
                  = set_trace (trace w ++ [("message", PMessage f true)])
                      (set_nextTimerId (S (nextTimerId w)) w)).
  { unfold fire. rewrite exec_gets. wsimpl.
    pose proof (find_app_fresh (timers w) T Hlt) as Hfind. cbn [t_id T] in Hfind.
    rewrite Hfind. cbn [t_repeat t_callback T runCallback].
    rewrite exec_seq by (unfold clearTimer; apply safe_modify).
    unfold clearTimer, mock_echo. change (exec (modify ?g) ?s) with (g s).
    rewrite exec_gets. wsimpl. rewrite Hk, Hop, Hcl. cbn [negb orb].
    rewrite exec_emit. wsimpl.
    rewrite filter_app, (filter_fresh _ _ Hlt), filter_cons, decide_False, filter_nil, app_nil_r
      by (cbn; congruence).
    reflexivity. }
  rewrite Hfire. wsimpl.
  repeat split. exists m. auto.
Qed.

Lemma mock_echoes_frame_witness :
  let w := run [Connect Examples.defaultOptions; Fire 1] (init Examples.offline) in
  let w1 := exec (send (MString "hello")) w in
  let w2 := exec (fire (nextTimerId w)) w1 in
  outboundQueue w1 = outboundQueue w
  /\ trace w1 = trace w
  /\ (exists m, mockWs w = Some m
        /\ timers w1 = timers w ++ [{| t_id := nextTimerId w; t_callback := CbMockEcho m "hello";
                                       t_delay := 0; t_repeat := false |}])
  /\ trace w2 = trace w ++ [("message", PMessage "hello" true)]
  /\ timers w2 = timers w
  /\ outboundQueue w2 = outboundQueue w.
Proof.
  cbv zeta.
  apply (mock_echoes_frame
           (run [Connect Examples.defaultOptions; Fire 1] (init Examples.offline)) "hello").
  - exists Examples.offline, [Connect Examples.defaultOptions; Fire 1]. reflexivity.
  - reflexivity.
Defined.

End MockFacts.

(** ** The open handler and the heartbeat *)
Section OpenFacts.

Lemma ws_onopen_exec url protos w :
  exec (ws_onopen url protos) w
  = exec flushQueue
      (exec startHeartbeat
         (set_trace (trace w ++ [("status", PStatus Open (orNull (lastUrl w)) false);
                                 ("open", POpen url protos)])
            (set_lastInboundAt (now w)
               (set_lastOpenAt (now w)
                  (set_reconnectAttempt 0 (set_state Open w)))))).
Proof.
  unfold ws_onopen, nowMs.
  rewrite !exec_modify, exec_gets, exec_modify, exec_gets, exec_modify.
  rewrite (exec_seq (emitStatus false)) by apply emitStatus_safe.
  rewrite (exec_seq (emit _ _)) by apply emit_safe.
  rewrite (exec_seq startHeartbeat) by apply startHeartbeat_safe.
  rewrite exec_emitStatus, exec_emit. wsimpl. rewrite <- app_assoc. reflexivity.
Qed.

Lemma startHeartbeat_refs w :
  let w' := exec startHeartbeat w in
  heartbeatTimer w' = Some (nextTimerId w)
  /\ {| t_id := nextTimerId w; t_callback := CbHeartbeat;
        t_delay := DEFAULTS.heartbeatIntervalMs; t_repeat := true |} ∈ timers w'
  /\ lastInboundAt w' = now w
  /\ ws w' = ws w /\ mockWs w' = mockWs w /\ sockets w' = sockets w
  /\ outboundQueue w' = outboundQueue w /\ host w' = host w
  /\ state w' = state w /\ reconnectAttempt w' = reconnectAttempt w
  /\ lastOpenAt w' = lastOpenAt w /\ trace w' = trace w
  /\ reconnectTimer w' = reconnectTimer w.
Proof.
  cbv zeta. unfold startHeartbeat, clearHeartbeatTimer, clearTimer, nowMs, setTimer.
  crun. cases. all: repeat split; wsimpl; auto.
  all: apply elem_of_app; right; left.
Qed.




End OpenFacts.

(** ** Inbound frames and stale sockets *)
Section InboundFacts.

Lemma ws_onmessage_exec ev w :
  exec (ws_onmessage ev) w
  = set_trace
      (trace w ++ ("message", PMessage (me_text ev) false)
         :: (if Js.truthy (Url.safeTrim (me_event ev))
             then [(Url.safeTrim (me_event ev), PData (me_data ev))] else []))
      (set_lastInboundAt (now w) w).
Proof.
  unfold ws_onmessage, nowMs. rewrite exec_gets, exec_modify.
  rewrite (exec_seq (emit _ _)) by apply emit_safe. rewrite exec_emit. cbv zeta.
  destruct (Js.truthy (Url.safeTrim (me_event ev))).
  - rewrite exec_emit. wsimpl. rewrite <- app_assoc. reflexivity.
  - wsimpl. reflexivity.
Qed.

(** X17 (ws.onmessage, startHeartbeat's interval function): an inbound
    frame on the open current socket sets lastInboundAt to the current
    time and emits message with the raw text and then, when the frame is
    an object whose event field is a string that is not blank, one more
    event named by that field trimmed, carrying the data field. A heartbeat
    tick up to 45000 ms later is then not stale: it sends one ping (which
    the transport is taken to accept), emits nothing, closes nothing and
    leaves the state, the timers and the queue alone. *)
Theorem inbound_frame_defers_staleness
    (w : World) (i : nat) (ev : MessageEvent) (dt : Z) :
  reachable w ->
  ws w = Some i ->
  socketIsOpen w = true ->
  0 <= dt <= DEFAULTS.staleThresholdMs ->
  sendThrows (host w) (pingFrame (now w + dt)) = false ->
  let evtName := Url.safeTrim (me_event ev) in
  let w1 := exec (transportMessage i ev) w in
  let w2 := exec (step (Elapse dt)) w1 in
  let w3 := exec heartbeatTick w2 in
  lastInboundAt w1 = now w
  /\ trace w1 = trace w ++ ("message", PMessage (me_text ev) false)
                  :: (if Js.truthy evtName then [(evtName, PData (me_data ev))] else [])
  /\ trace w3 = trace w1
  /\ sockets w3 = alter (push_sent (pingFrame (now w + dt))) i (sockets w)
  /\ state w3 = state w
  /\ timers w3 = timers w
  /\ outboundQueue w3 = outboundQueue w.
Proof.
  cbv zeta. intros Hreach Hws Hopen [Hdt0 Hdt] Hsend.
  destruct (reachable_inv w Hreach) as ((_&Hcur)&_).
  destruct (Hcur i Hws) as (s&Hs&Hw).
  destruct (socketIsOpen_inv w i Hws Hopen) as (s'&Hs'&Hrs).
  assert (s' = s) as -> by congruence.
  assert (Hm : onmessage s = true).
  { unfold wired in Hw. destruct (onopen s), (onclose s), (onerror s), (onmessage s);
      cbn in Hw; congruence. }
  rewrite (transportMessage_handler w i s ev Hs Hm), ws_onmessage_exec.
  cbn [step]. change (exec (modify ?g) ?v) with (g v). wsimpl.
  rewrite Z.max_r by exact Hdt0.
  set (w2 := set_now _ _).
  assert (Ht : exec heartbeatTick w2
               = set_sockets (alter (push_sent (pingFrame (now w + dt))) i (sockets w)) w2).
  { unfold heartbeatTick, nowMs. rewrite !exec_gets.
    assert (Ho2 : socketIsOpen w2 = true) by exact Hopen.
    rewrite Ho2, exec_gets. cbv zeta.
    rewrite (exec_seq (sendFrame _)) by apply sendFrame_safe.
    assert (Hlt : Z.ltb DEFAULTS.staleThresholdMs (now w2 - lastInboundAt w2) = false).
    { subst w2. wsimpl. apply Z.ltb_ge. lia. }
    rewrite Hlt.
    change (exec (ret tt) ?v) with v.
    subst w2. wsimpl.
    rewrite (sendFrame_open _ i s); wsimpl; auto. }
  rewrite Ht. subst w2. wsimpl. repeat split.
Qed.

Lemma inbound_frame_defers_staleness_witness :
  let w := run [Connect Examples.wsPath; TransportOpen 0; Elapse 40000] (init Examples.online) in
  let ev := {| me_text := "{...}"; me_event := Some " roomJoined "; me_data := "{}" |} in
  let w1 := exec (transportMessage 0 ev) w in
  let w3 := exec heartbeatTick (exec (step (Elapse 45000)) w1) in
  lastInboundAt w1 = now w
  /\ trace w1 = trace w ++ ("message", PMessage (me_text ev) false)
                  :: (if Js.truthy (Url.safeTrim (me_event ev))
                      then [(Url.safeTrim (me_event ev), PData (me_data ev))] else [])
  /\ trace w3 = trace w1
  /\ sockets w3 = alter (push_sent (pingFrame (now w + 45000))) 0%nat (sockets w)
  /\ state w3 = state w
  /\ timers w3 = timers w
  /\ outboundQueue w3 = outboundQueue w.
Proof.
  cbv zeta.
  apply (inbound_frame_defers_staleness
           (run [Connect Examples.wsPath; TransportOpen 0; Elapse 40000] (init Examples.online))
           0 {| me_text := "{...}"; me_event := Some " roomJoined "; me_data := "{}" |} 45000).
  - exists Examples.online, [Connect Examples.wsPath; TransportOpen 0; Elapse 40000].
    reflexivity.
  - reflexivity.
  - reflexivity.
  - vm_compute. split; discriminate.
  - reflexivity.
Defined.

Lemma stale_socket w j ev code reason wasClean :
  Inv w -> ws w <> Some j ->
  exec (transportError j) w = w
  /\ exec (transportMessage j ev) w = w
  /\ exec (transportOpen j) w
     = set_sockets (alter (set_readyState OPEN) j (sockets w)) w
  /\ exec (transportClose j code reason wasClean) w
     = set_sockets (alter (set_readyState CLOSED) j (sockets w)) w.
Proof.
  intros ((Hold&_)&_) Hne.
  assert (Hu : forall s, sockets w !! j = Some s ->
                 onopen s = false /\ onclose s = false /\ onerror s = false
                 /\ onmessage s = false).
  { intros s Hs. apply unwired_handlers. apply bool_not_true. intros Ha.
    apply Hne. exact (Hold j s Hs Ha). }
  unfold transportError, transportMessage, transportOpen, transportClose, alterSocket.
  rewrite !exec_modify, !exec_gets. wsimpl. rewrite !list_lookup_alter_eq.
  destruct (sockets w !! j) as [s|] eqn:Hs; cbn [fmap option_fmap option_map].
  - destruct (Hu s eq_refl) as (H1&H2&H3&H4).
    cbn [set_readyState onopen onclose]. rewrite H1, H2, H3, H4. repeat split.
  - repeat split.
Qed.

(** X18 (cleanupSocketRefs, internalConnect): the events of a socket that
    is not the current one are ignored. In every reachable state an error
    or a message of such a socket changes nothing, and its open or close
    changes nothing but the socket's own readyState: no event is emitted,
    no variable of the manager is written, no timer is armed. *)
Theorem stale_socket_events_are_ignored
    (w : World) (j : nat) (ev : MessageEvent) (code : Z) (reason : string) (wasClean : bool) :
  reachable w ->
  ws w <> Some j ->
  exec (transportError j) w = w
  /\ exec (transportMessage j ev) w = w
  /\ exec (transportOpen j) w
     = set_sockets (alter (set_readyState OPEN) j (sockets w)) w
  /\ exec (transportClose j code reason wasClean) w
     = set_sockets (alter (set_readyState CLOSED) j (sockets w)) w.
Proof.
  intros Hreach Hne. apply stale_socket; [apply reachable_inv, Hreach|exact Hne].
Qed.

Lemma stale_socket_events_are_ignored_witness :
  let w := run [Connect Examples.wsPath; TransportError 0; Fire 1] (init Examples.online) in
  let ev := {| me_text := "x"; me_event := Some "open"; me_data := "y" |} in
  exec (transportError 0) w = w
  /\ exec (transportMessage 0 ev) w = w
  /\ exec (transportOpen 0) w
     = set_sockets (alter (set_readyState OPEN) 0%nat (sockets w)) w
  /\ exec (transportClose 0 1006 "" false) w
     = set_sockets (alter (set_readyState CLOSED) 0%nat (sockets w)) w.
Proof.
  cbv zeta.
  apply (stale_socket_events_are_ignored
           (run [Connect Examples.wsPath; TransportError 0; Fire 1] (init Examples.online))
           0 {| me_text := "x"; me_event := Some "open"; me_data := "y" |} 1006 "" false).
  - exists Examples.online, [Connect Examples.wsPath; TransportError 0; Fire 1]. reflexivity.
  - discriminate.
Defined.

End InboundFacts.

(** ** The queue *)
Section QueuePolicy.

Lemma sendFrame_refused w i s f :
  ws w = Some i -> sockets w !! i = Some s -> readyState s = OPEN ->
  sendThrows (host w) f = true ->
  exec (sendFrame (Some f)) w
  = set_trace (trace w ++ [("error", PError SendFailed (hasMock w))])
      (set_outboundQueue (outboundQueue w ++ [f]) w).
Proof.
  intros Hw Hs Hr Hf.
  unfold sendFrame, transmit, ws_send, alterSocket, socketIsOpen, push, emit. crun.
  repeat (wsimpl;
          first [ rewrite Hw | rewrite Hs | rewrite Hr | rewrite Hf
                | progress change (OPEN =? OPEN)%Z with true
                | progress cbn [orb negb] ]).
  reflexivity.
Qed.

Lemma flush_partition i fs : forall w s,
  ws w = Some i -> sockets w !! i = Some s -> readyState s = OPEN ->
  let refused := List.filter (sendThrows (host w)) fs in
  let accepted := List.filter (fun f => negb (sendThrows (host w) f)) fs in
  let w' := exec (forEach fs (fun f => sendFrame (Some f))) w in
  sockets w' !! i = Some (fold_left (fun s f => push_sent f s) accepted s)
  /\ outboundQueue w' = outboundQueue w ++ refused
  /\ trace w' = trace w ++ map (fun _ => ("error", PError SendFailed (hasMock w))) refused.
Proof.
  induction fs as [|f fs IH]; intros w s Hw Hs Hr; cbn zeta;
    cbn [forEach fold_left List.filter map].
  - rewrite !app_nil_r. auto.
  - rewrite exec_seq by apply sendFrame_safe.
    destruct (sendThrows (host w) f) eqn:Hf; cbn [negb fold_left map].
    + rewrite (sendFrame_refused w i s f Hw Hs Hr Hf).
      match goal with |- context [exec _ ?w1] =>
        destruct (IH w1 s) as (H1 & H2 & H3) end; try assumption.
      rewrite H1, H2, H3. wsimpl. rewrite <- !app_assoc. auto.
    + rewrite (sendFrame_open w i s f Hw Hs Hr Hf).
      match goal with |- context [exec _ ?w1] =>
        destruct (IH w1 (push_sent f s)) as (H1 & H2 & H3) end; try assumption.
      * wsimpl. rewrite list_lookup_alter_eq, Hs. reflexivity.
      * rewrite H1, H2, H3. auto.
Qed.

Lemma filter_errors (l : list string) (p : Payload) (pre : list Event) :
  (forall e, e ∈ pre -> fst e <> "error") ->
  filter (fun e : Event => fst e = "error") (pre ++ map (fun _ => ("error", p)) l)
  = map (fun _ => ("error", p)) l.
Proof.
  intros Hpre. rewrite filter_app.
  assert (filter (fun e : Event => fst e = "error") pre = []) as ->.
  { induction pre as [|a pre IH]; [reflexivity|].
    rewrite filter_cons, decide_False by (apply Hpre; left).
    apply IH. intros e He. apply Hpre. right. exact He. }
  cbn [app]. induction l as [|x l IH]; [reflexivity|].
  cbn [map]. rewrite filter_cons, decide_True by reflexivity. f_equal. exact IH.
Qed.

(** X19 (ws.onopen, flushQueue, sendFrame): when the current socket opens,
    every queued frame is offered to it once, in order. The frames the
    transport accepts are sent in their order, the frames it refuses are
    the queue afterwards, in their order, and one error event is emitted
    for each refused frame: no frame is lost, duplicated or reordered. *)
Theorem flush_partitions_queue (w : World) (i : nat) :
  reachable w ->
  ws w = Some i ->
  let refused := List.filter (sendThrows (host w)) (outboundQueue w) in
  let accepted := List.filter (fun f => negb (sendThrows (host w) f)) (outboundQueue w) in
  let w' := exec (transportOpen i) w in
  outboundQueue w' = refused
  /\ (exists s s', sockets w !! i = Some s /\ sockets w' !! i = Some s'
                   /\ sent s' = sent s ++ accepted)
  /\ emittedSince (length (trace w)) "error" w'
     = map (fun _ => ("error", PError SendFailed false)) refused.
Proof.
  cbv zeta. intros Hreach Hws.
  destruct (reachable_inv w Hreach) as ((_&Hcur)&_&Hone&_).
  destruct (Hcur i Hws) as (s&Hs&Hw).
  assert (Hmk : mockWs w = None) by (destruct Hone as [H|H]; [congruence|exact H]).
  rewrite (transportOpen_handler w i s Hs (wired_onopen s Hw)), ws_onopen_exec.
  set (w1 := set_trace _ _).
  destruct (startHeartbeat_refs w1) as (B1&B2&B3&B4&B5&B6&B7&B8&B9&B10&B11&B12&B13).
  set (wh := exec startHeartbeat w1) in *.
  assert (Hsh : sockets wh !! i = Some (set_readyState OPEN s)).
  { rewrite B6. subst w1. wsimpl. rewrite list_lookup_alter_eq, Hs. reflexivity. }
  assert (Hqh : outboundQueue wh = outboundQueue w) by (rewrite B7; reflexivity).
  assert (Hhh : host wh = host w) by (rewrite B8; reflexivity).
  assert (Hth : trace wh = trace w ++ [("status", PStatus Open (orNull (lastUrl w)) false);
                                       ("open", POpen (sk_url s) (sk_protocols s))]).
  { rewrite B12. reflexivity. }
  assert (Hwh : ws wh = Some i) by (rewrite B4; exact Hws).
  assert (Hmh : hasMock wh = false) by (unfold hasMock; rewrite B5; subst w1; wsimpl; rewrite Hmk; reflexivity).
  assert (Hflush :
    sockets (exec flushQueue wh) !! i
      = Some (fold_left (fun s f => push_sent f s)
                (List.filter (fun f => negb (sendThrows (host w) f)) (outboundQueue w))
                (set_readyState OPEN s))
    /\ outboundQueue (exec flushQueue wh) = List.filter (sendThrows (host w)) (outboundQueue w)
    /\ trace (exec flushQueue wh)
       = trace wh ++ map (fun _ => ("error", PError SendFailed false))
                       (List.filter (sendThrows (host w)) (outboundQueue w))).
  { unfold flushQueue. rewrite exec_gets, Hqh.
    destruct (outboundQueue w) as [|f q] eqn:Hq; cbn [length Nat.eqb].
    - cbn. rewrite app_nil_r. auto.
    - rewrite exec_modify.
      destruct (flush_partition i (f :: q) (set_outboundQueue [] wh) (set_readyState OPEN s))
        as (H1 & H2 & H3); try assumption; [reflexivity|].
      wsimpl. rewrite Hhh in *.
      replace (hasMock (set_outboundQueue [] wh)) with false in H3 by (symmetry; exact Hmh).
      rewrite H1, H2, H3. auto. }
  destruct Hflush as (H1 & H2 & H3).
  repeat split.
  - exact H2.
  - exists s. eexists. split; [exact Hs|]. split; [exact H1|].
    destruct (sent_pushed
                (List.filter (fun f => negb (sendThrows (host w) f)) (outboundQueue w))
                (set_readyState OPEN s)) as [-> _].
    reflexivity.
  - unfold emittedSince. rewrite H3, Hth, <- app_assoc, drop_app_length.
    apply filter_errors.
    intros e [->| ->%list_elem_of_singleton]%elem_of_cons; discriminate.
Qed.

Lemma flush_partitions_queue_witness :
  let h := {| env := env Examples.online; ctorThrows := fun _ => false; syncClose := false;
              sendThrows := fun f => String.eqb f "b"; random := fun _ => 1 # 2 |} in
  let w := run [Connect Examples.wsPath; Send (MString "a"); Send (MString "b");
                Send (MString "c")] (init h) in
  let w' := exec (transportOpen 0) w in
  outboundQueue w' = List.filter (sendThrows (host w)) (outboundQueue w)
  /\ (exists s s', sockets w !! 0%nat = Some s /\ sockets w' !! 0%nat = Some s'
        /\ sent s' = sent s
                     ++ List.filter (fun f => negb (sendThrows (host w) f)) (outboundQueue w))
  /\ emittedSince (length (trace w)) "error" w'
     = map (fun _ => ("error", PError SendFailed false))
         (List.filter (sendThrows (host w)) (outboundQueue w)).
Proof.
  cbv zeta.
  apply (flush_partitions_queue
           (run [Connect Examples.wsPath; Send (MString "a"); Send (MString "b");
                 Send (MString "c")]
              (init {| env := env Examples.online; ctorThrows := fun _ => false;
                       syncClose := false; sendThrows := fun f => String.eqb f "b";
                       random := fun _ => 1 # 2 |})) 0).
  - eexists _, _. reflexivity.
  - reflexivity.
Defined.

(** X20 (sendFrame, the branch taken while no transport is open): send()
    of a string while neither the socket nor the mock is open appends the
    frame to the queue and touches nothing else. A queue below the capacity
    of 200 grows by one; a queue at the capacity first loses its 40 oldest
    frames at once, so that it holds 161 frames afterwards, the new one
    last. *)
Theorem enqueue_drops_oldest_forty (w : World) (f : string) :
  socketIsOpen w || mockIsOpen w = false ->
  let q := outboundQueue w in
  let w' := exec (send (MString f)) w in
  w' = set_outboundQueue (outboundQueue w') w
  /\ ((length q < 200)%nat -> outboundQueue w' = q ++ [f])
  /\ (length q = 200%nat ->
        outboundQueue w' = drop 40 q ++ [f] /\ length (outboundQueue w') = 161%nat)
  /\ ((length q <= 200)%nat -> (length (outboundQueue w') <= 200)%nat).
Proof.
  cbv zeta. intros Hc. cbn [send]. rewrite (sendFrame_closed w f Hc). wsimpl.
  unfold enqueued.
  change DEFAULTS.maxQueueSize with 200%nat. change keptOnOverflow with 160%nat.
  split; [reflexivity|]. split; [|split].
  - intros Hl. destruct (Nat.leb_spec 200 (length (outboundQueue w))); [lia|reflexivity].
  - intros Hl. rewrite Hl. cbn [Nat.leb]. unfold sliceFromEnd. cbn [Nat.eqb].
    rewrite Hl. change (200 - 160)%nat with 40%nat.
    split; [reflexivity|]. rewrite length_app, length_drop, Hl. reflexivity.
  - intros Hl. destruct (Nat.leb_spec 200 (length (outboundQueue w))).
    + unfold sliceFromEnd. cbn [Nat.eqb]. rewrite length_app, length_drop. cbn [length]. lia.
    + rewrite length_app. cbn [length]. lia.
Qed.

Lemma enqueue_drops_oldest_forty_witness :
  let w := run (Connect Examples.wsPath :: repeat (Send (MString "x")) 200)
               (init Examples.online) in
  let w' := exec (send (MString "new")) w in
  w' = set_outboundQueue (outboundQueue w') w
  /\ ((length (outboundQueue w) < 200)%nat -> outboundQueue w' = outboundQueue w ++ ["new"])
  /\ (length (outboundQueue w) = 200%nat ->
        outboundQueue w' = drop 40 (outboundQueue w) ++ ["new"]
        /\ length (outboundQueue w') = 161%nat)
  /\ ((length (outboundQueue w) <= 200)%nat -> (length (outboundQueue w') <= 200)%nat).
Proof.
  cbv zeta.
  apply (enqueue_drops_oldest_forty
           (run (Connect Examples.wsPath :: repeat (Send (MString "x")) 200)
                (init Examples.online)) "new").
  vm_compute. reflexivity.
Defined.

End QueuePolicy.

(** ** The capacity of the queue *)
Section CapacityFacts.

Lemma bounded_lift {A} (m : M World A) :
  preserves Inv m ->
  preserves (fun s => forall f, sendThrows (host s) f = false) m ->
  preserves (fun s => (length (outboundQueue s) <= DEFAULTS.maxQueueSize)%nat) m ->
  preserves Bounded m.
Proof.
  intros H1 H2 H3 s (B1&B2&B3).
  split; [apply H2|split; [apply H1|apply H3]]; assumption.
Qed.

Lemma transmit_accepted w f :
  Bounded w -> socketIsOpen w || mockIsOpen w = true ->
  outcome (transmit f) w = Ok tt.
Proof.
  intros (Hf&(_&_&Hone&_)&_) Ho. unfold transmit, ws_send, mock_send, alterSocket, setTimer.
  unfold socketIsOpen, mockIsOpen in Ho. crun.
  destruct (ws w) as [i|] eqn:Hw.
  - assert (Hm : mockWs w = None) by (destruct Hone; congruence).
    rewrite Hm, orb_false_r in Ho.
    destruct (sockets w !! i) as [s|] eqn:Hs; [|discriminate]. wsimpl.
    rewrite Ho. cbn [negb]. rewrite Hf. reflexivity.
  - cbn [orb] in Ho. destruct (mockWs w) as [m|]; [|discriminate].
    destruct (mocks w !! m) as [k|]; [|discriminate]. wsimpl.
    destruct (negb (mk_open k) || mk_closed k); reflexivity.
Qed.

Lemma transmit_inv f : preserves Inv (transmit f).
Proof. repeat inv_step. Qed.

Lemma sendFrame_bounded fr : preserves Bounded (sendFrame fr).
Proof.
  destruct fr as [f|]; [|apply preserves_ret].
  intros w HB. pose proof HB as (Hf&Hi&Hq).
  destruct (socketIsOpen w || mockIsOpen w) eqn:Ho.
  - assert (He : exec (sendFrame (Some f)) w = exec (transmit f) w).
    { unfold sendFrame. rewrite exec_gets, Ho. cbn [negb].
      rewrite exec_try, (transmit_accepted w f HB Ho). reflexivity. }
    rewrite He. split; [|split].
    + assert (Hh : host (exec (transmit f) w) = host w) by (apply (frame_eq host); frame).
      rewrite Hh. exact Hf.
    + apply transmit_inv, Hi.
    + assert (Hh : outboundQueue (exec (transmit f) w) = outboundQueue w)
        by (apply (frame_eq outboundQueue); frame).
      rewrite Hh. exact Hq.
  - rewrite (sendFrame_closed w f Ho). split; [exact Hf|split; [exact Hi|]].
    wsimpl. unfold enqueued. change keptOnOverflow with 160%nat.
    change DEFAULTS.maxQueueSize with 200%nat in *.
    destruct (Nat.leb_spec 200 (length (outboundQueue w))).
    + unfold sliceFromEnd. cbn [Nat.eqb]. rewrite length_app, length_drop. cbn [length]. lia.
    + rewrite length_app. cbn [length]. lia.
Qed.

Ltac bounded_lifted :=
  apply bounded_lift; [inv_step | frame | frame].

Ltac bounded_step :=
  lazymatch goal with
  | |- preserves _ (sendFrame _) => apply sendFrame_bounded
  | |- preserves _ (clearTimer _) => bounded_lifted
  | |- preserves _ clearReconnectTimer => bounded_lifted
  | |- preserves _ clearHeartbeatTimer => bounded_lifted
  | |- preserves _ startHeartbeat => bounded_lifted
  | |- preserves _ (scheduleReconnect _) => bounded_lifted
  | |- preserves _ (mock_send _ _) => bounded_lifted
  | |- preserves _ (internalConnect _) => bounded_lifted
  | |- preserves _ cleanupSocketRefs => bounded_lifted
  | |- preserves _ (alterSocket _ _) => bounded_lifted
  | |- preserves _ (alterMock _ _) => bounded_lifted
  | |- preserves _ (modify _) =>
      apply preserves_modify; intros ? (?&?&?);
      (split; [assumption|split; [assumption|wsimpl; first [assumption | cbn; lia]]])
  | |- preserves _ ?m =>
      first [ eff_step | let h := head m in unfold h ]
  end.

Lemma step_bounded l : preserves Bounded (step l).
Proof. repeat bounded_step. Qed.

(** X21 (sendFrame, flushQueue, send): with a transport whose send() never
    raises, the outbound queue never holds more than 200 frames, in any
    state reachable by calls of connect, disconnect and send, timer firings,
    transport events and elapsed time. *)
Theorem queue_within_capacity (w : World) :
  reachable w ->
  (forall f, sendThrows (host w) f = false) ->
  (length (outboundQueue w) <= DEFAULTS.maxQueueSize)%nat.
Proof.
  intros (h&ls&->) Hf.
  assert (Hh : forall ls w0, host (run ls w0) = host w0).
  { clear. intros ls. induction ls as [|l ls IH]; intros w0; [reflexivity|].
    cbn [run fold_left]. fold (run ls (exec (step l) w0)). rewrite IH.
    apply (host_stable l). reflexivity. }
  rewrite Hh in Hf.
  assert (HB : Bounded (init h)).
  { split; [exact Hf|split; [apply init_inv|cbn; lia]]. }
  revert HB. generalize (init h). clear Hf Hh.
  induction ls as [|l ls IH]; intros w HB; [apply HB|].
  cbn [run fold_left]. apply IH, step_bounded, HB.
Qed.

Lemma queue_within_capacity_witness :
  (length (outboundQueue
             (run (Connect Examples.wsPath :: repeat (Send (MString "x")) 201
                   ++ [TransportOpen 0; Send (MString "y")])
                  (init Examples.online))) <= DEFAULTS.maxQueueSize)%nat.
Proof.
  apply queue_within_capacity.
  - eexists _, _. reflexivity.
  - intros f. reflexivity.
Defined.

End CapacityFacts.

(** ** disconnect() and the invariants, as a caller sees them *)
Section CallerFacts.

Lemma disconnect_stops_reconnect w : shouldReconnect (exec disconnect w) = false.
Proof.
  unfold disconnect. rewrite !exec_modify.
  match goal with
  | |- shouldReconnect (exec ?m ?v) = _ =>
      transitivity (shouldReconnect v); [apply (frame_eq shouldReconnect); frame | reflexivity]
  end.
Qed.

Lemma disconnect_again w :
  ws w = None -> mockWs w = None ->
  reconnectTimer w = None -> heartbeatTimer w = None ->
  explicitlyDisconnected w = true -> shouldReconnect w = false -> state w = Closed ->
  exec disconnect w
  = set_trace (trace w ++ [("status", PStatus Closing (orNull (lastUrl w)) false);
                           ("status", PStatus Closed (orNull (lastUrl w)) false)]) w.
Proof.
  destruct w. cbn. intros -> -> -> -> -> -> ->.
  unfold disconnect, clearReconnectTimer, clearHeartbeatTimer, cleanupSocketRefs, emitStatus,
    emit, hasMock.
  crun. rewrite <- app_assoc. reflexivity.
Qed.

(** X22 (disconnect): disconnect() is idempotent on the state of the
    manager. Called in any reachable state it leaves the state Closed with
    no transport, no reconnect or heartbeat timer and reconnection off; a
    second call changes no variable, no socket and no timer: all it does is
    emit the status events closing and closed again. *)
Theorem disconnect_is_idempotent (w : World) :
  reachable w ->
  let w1 := exec disconnect w in
  let url := orNull (lastUrl w1) in
  state w1 = Closed /\ ws w1 = None /\ mockWs w1 = None
  /\ shouldReconnect w1 = false /\ explicitlyDisconnected w1 = true
  /\ reconnectTimer w1 = None /\ heartbeatTimer w1 = None
  /\ exec disconnect w1
     = set_trace (trace w1 ++ [("status", PStatus Closing url false);
                               ("status", PStatus Closed url false)]) w1.
Proof.
  cbv zeta. intros Hreach. pose proof (reachable_inv w Hreach) as Hi.
  destruct (disconnect_detaches w Hi) as (_&D2&_&D4).
  destruct (disconnect_halts w Hi) as (H1&H2&H3).
  pose proof (disconnect_closed w) as Hc.
  pose proof (disconnect_stops_reconnect w) as Hs.
  repeat split; try assumption.
  apply disconnect_again; assumption.
Qed.

Lemma disconnect_is_idempotent_witness :
  let w := run [Connect Examples.wsPath; TransportOpen 0; Send (MString "a")]
               (init Examples.online) in
  let w1 := exec disconnect w in
  let url := orNull (lastUrl w1) in
  state w1 = Closed /\ ws w1 = None /\ mockWs w1 = None
  /\ shouldReconnect w1 = false /\ explicitlyDisconnected w1 = true
  /\ reconnectTimer w1 = None /\ heartbeatTimer w1 = None
  /\ exec disconnect w1
     = set_trace (trace w1 ++ [("status", PStatus Closing url false);
                               ("status", PStatus Closed url false)]) w1.
Proof.
  cbv zeta. apply disconnect_is_idempotent.
  eexists _, _. reflexivity.
Defined.

(** X23 (connect, disconnect, send, the timer functions, the four socket
    handlers): no call of the public functions and no callback of the
    manager lets an exception escape, whatever the WebSocket constructor,
    send() and close() of the transport do: every turn of the event loop
    returns normally, from every state. *)
Theorem no_exception_escapes (l : Label) (w : World) :
  outcome (step l) w = Ok tt.
Proof. apply safe_unit, step_safe. Qed.

(** X24 (internalConnect, cleanupSocketRefs, disconnect): in every
    reachable state there is at most one transport, a socket or a mock;
    the current socket exists and has its four handlers; every other
    socket ever constructed has none of them, so that nothing it does can
    reach the manager; and every mock but the current one is closed. *)
Theorem one_live_transport (w : World) :
  reachable w ->
  (ws w = None \/ mockWs w = None)
  /\ (forall i, ws w = Some i ->
        exists s, sockets w !! i = Some s
                  /\ onopen s = true /\ onclose s = true
                  /\ onerror s = true /\ onmessage s = true)
  /\ (forall j s, sockets w !! j = Some s -> ws w <> Some j ->
        onopen s = false /\ onclose s = false /\ onerror s = false /\ onmessage s = false)
  /\ (forall m k, mocks w !! m = Some k -> mockWs w <> Some m -> mk_closed k = true).
Proof.
  intros Hreach. destruct (reachable_inv w Hreach) as ((Hold&Hcur)&Hmk&Hone&_).
  split; [|split; [|split]].
  - exact Hone.
  - intros i Hi. destruct (Hcur i Hi) as (s&Hs&Hw). exists s. split; [exact Hs|].
    unfold wired in Hw.
    destruct (onopen s), (onclose s), (onerror s), (onmessage s); cbn in Hw;
      try discriminate; auto.
  - intros j s Hs Hne. apply unwired_handlers, bool_not_true. intros Ha.
    apply Hne. exact (Hold j s Hs Ha).
  - intros m k Hk Hne. destruct (mk_closed k) eqn:E; [reflexivity|].
    exfalso. apply Hne. exact (Hmk m k Hk E).
Qed.

Lemma one_live_transport_witness :
  let w := run [Connect Examples.wsPath; TransportError 0; Fire 1; TransportOpen 1;
                Disconnect; Connect Examples.wsPath]
               (init Examples.online) in
  (ws w = None \/ mockWs w = None)
  /\ (forall i, ws w = Some i ->
        exists s, sockets w !! i = Some s
                  /\ onopen s = true /\ onclose s = true
                  /\ onerror s = true /\ onmessage s = true)
  /\ (forall j s, sockets w !! j = Some s -> ws w <> Some j ->
        onopen s = false /\ onclose s = false /\ onerror s = false /\ onmessage s = false)
  /\ (forall m k, mocks w !! m = Some k -> mockWs w <> Some m -> mk_closed k = true).
Proof.
  cbv zeta. apply one_live_transport.
  eexists _, _. reflexivity.
Defined.

End CallerFacts.

(** ** Mock mode and the mock socket *)
Section MockInvariant.










End MockInvariant.

(** ** Status events *)
Section StatusFacts.

Lemma announcedState_snoc tr n p :
  announcedState (tr ++ [(n, p)])
  = match p with PStatus st _ _ => Some st | _ => announcedState tr end.
Proof.
  unfold announcedState. rewrite omap_app.
  destruct p; cbn; rewrite ?app_nil_r, ?last_snoc; reflexivity.
Qed.

Lemma announced_emitStatus b w : Announced (exec (emitStatus b) w).
Proof.
  rewrite exec_emitStatus. unfold Announced. wsimpl.
  rewrite announcedState_snoc. reflexivity.
Qed.

Lemma emit_keeps n p : notStatus p -> preserves Announced (emit n p).
Proof.
  intros Hp w Hw. rewrite exec_emit. unfold Announced in *. wsimpl.
  rewrite announcedState_snoc. destruct p; try contradiction; exact Hw.
Qed.

Lemma settles_emitStatus b :
  establishes (fun _ => True) (emitStatus b) Announced.
Proof. intros w _. apply announced_emitStatus. Qed.

Lemma settles_emitStatus_then {A} b (k : unit -> M World A) :
  preserves Announced (k tt) ->
  establishes (fun _ => True) (bind (emitStatus b) k) Announced.
Proof.
  intros Hk w _. rewrite exec_bind.
  rewrite (safe_unit _ w (emitStatus_safe b)). apply Hk, announced_emitStatus.
Qed.

Lemma settles_bind {A B} (m : M World A) (k : A -> M World B) :
  safe m -> (forall a, establishes (fun _ => True) (k a) Announced) ->
  establishes (fun _ => True) (bind m k) Announced.
Proof.
  intros Hm Hk w _. rewrite exec_bind. destruct (Hm w) as [a ->]. apply Hk. exact I.
Qed.

Lemma preserves_set_state {A} st (k : unit -> M World A) :
  establishes (fun _ => True) (k tt) Announced ->
  preserves Announced (bind (modify (set_state st)) k).
Proof. intros Hk w _. rewrite exec_bind. cbn [outcome modify fst]. apply Hk. exact I. Qed.

Lemma preserves_emitStatus b : preserves Announced (emitStatus b).
Proof. intros w _. apply announced_emitStatus. Qed.

Ltac status_step :=
  lazymatch goal with
  | |- establishes _ (bind (emitStatus _) _) _ => apply settles_emitStatus_then
  | |- establishes _ (emitStatus _) _ => apply settles_emitStatus
  | |- establishes _ (bind _ _) _ => apply settles_bind; [solve [safety] | intros ?]
  | |- establishes _ (match ?x with _ => _ end) _ => destruct x
  | |- establishes _ ?m _ => let h := head m in unfold h
  | |- preserves _ (bind (modify (set_state _)) _) => apply preserves_set_state
  | |- preserves _ (emit _ _) => apply emit_keeps; exact I
  | |- preserves _ (emitStatus _) => apply preserves_emitStatus
  | |- preserves _ (modify _) => apply preserves_modify; intros ? ?; assumption
  | |- preserves _ ?m => first [ eff_step | let h := head m in unfold h ]
  end.

Lemma step_announced l : preserves Announced (step l).
Proof. repeat (status_step; cbv beta). Qed.

(** X26 (emitStatus and every assignment to state): every change of the
    state is announced. In every reachable state the last status event the
    manager emitted carries the current state; before the first status
    event the state is the initial one, idle. *)
Theorem state_changes_are_announced (w : World) :
  reachable w ->
  match announcedState (trace w) with
  | Some st => st = state w
  | None => state w = Idle
  end.
Proof.
  intros (h&ls&->).
  assert (H0 : Announced (init h)) by reflexivity.
  revert H0. generalize (init h).
  induction ls as [|l ls IH]; intros w Hw; [exact Hw|].
  cbn [run fold_left]. apply IH, step_announced, Hw.
Qed.

Lemma state_changes_are_announced_witness :
  match announcedState
          (trace (run [Connect Examples.wsPath; TransportOpen 0;
                       TransportMessage 0 {| me_text := "x"; me_event := Some "status";
                                             me_data := "y" |};
                       Elapse 50000; Fire 1] (init Examples.online))) with
  | Some st => st = state (run [Connect Examples.wsPath; TransportOpen 0;
                       TransportMessage 0 {| me_text := "x"; me_event := Some "status";
                                             me_data := "y" |};
                       Elapse 50000; Fire 1] (init Examples.online))
  | None => state (run [Connect Examples.wsPath; TransportOpen 0;
                       TransportMessage 0 {| me_text := "x"; me_event := Some "status";
                                             me_data := "y" |};
                       Elapse 50000; Fire 1] (init Examples.online)) = Idle
  end.
Proof.
  apply state_changes_are_announced.
  eexists _, _. reflexivity.
Defined.

End StatusFacts.

(** ** What becomes of the socket *)
Section SocketFate.

Lemma cleanupSocketRefs_socket w i :
  ws w = Some i -> mockWs w = None ->
  exec cleanupSocketRefs w
  = set_mockWs None
      (set_ws None (set_sockets (alter (set_handlersOf false) i (sockets w)) w)).
Proof.
  intros Hw Hm. unfold cleanupSocketRefs, alterSocket. crun. rewrite Hw. wsimpl.
  rewrite Hm. reflexivity.
Qed.

Lemma clearHeartbeatTimer_none w : heartbeatTimer w = None -> exec clearHeartbeatTimer w = w.
Proof. intros H. unfold clearHeartbeatTimer. rewrite exec_gets, H. reflexivity. Qed.

(** X27 (connect, cleanupSocketRefs): connect() called while a socket is
    current abandons that socket without closing it. Its four handlers are
    removed, its close() is not called and its readyState is what it was,
    open if it was open; no close event is emitted; the new socket is the
    current one. *)
Theorem connect_abandons_socket_unclosed
    (w : World) (o : ConnectOptions) (i : nat) (s : Socket) :
  ws w = Some i -> mockWs w = None -> sockets w !! i = Some s ->
  realHost (host w) (path o) = true ->
  ctorThrows (host w) (Url.connectUrl (env (host w)) (path o)) = false ->
  let w' := exec (connect o) w in
  (exists s', sockets w' !! i = Some s'
     /\ closeCalls s' = closeCalls s /\ readyState s' = readyState s /\ sent s' = sent s
     /\ anyHandler s' = false)
  /\ ws w' = Some (length (sockets w))
  /\ i <> length (sockets w)
  /\ trace w' = trace w ++ [("status",
                            PStatus Connecting
                              (orNull (Url.connectUrl (env (host w)) (path o))) false)].
Proof.
  cbv zeta. intros Hws Hmk Hs Hr Ht.
  destruct (connect_prefix o w)
    as (-> & Hh & Hrt & Hsk & Hmk' & Hws' & Hmw & _ & _ & _ & _ & _ & Htr & _).
  set (wc := set_explicitlyDisconnected false _) in *.
  rewrite internalConnect_real_branch by (rewrite Hh; exact Hr).
  rewrite exec_emitStatus.
  set (w2 := set_trace _ _).
  assert (Hw2 : ws w2 = Some i) by (subst w2; unfold entered; wsimpl; congruence).
  assert (Hm2 : mockWs w2 = None) by (subst w2; unfold entered; wsimpl; congruence).
  rewrite (cleanupSocketRefs_socket w2 i Hw2 Hm2).
  set (w3 := set_mockWs None _).
  destruct (clearHeartbeatTimer_refs w3) as (B1&B2&B3&B4&B5&B6&B7&B8).
  pose proof (clearHeartbeatTimer_same w3 w3 (sameSettings_refl w3)) as S.
  destruct S as (S1&_).
  set (w4 := exec clearHeartbeatTimer w3) in *.
  rewrite constructSocket_ok
    by (rewrite S1; subst w3 w2; unfold entered; wsimpl; rewrite Hh; exact Ht).
  wsimpl. rewrite B5, B7. subst w3 w2. unfold entered. wsimpl.
  rewrite length_alter, Hsk, Htr, Hh.
  assert (Hlt : (i < length (sockets w))%nat) by (apply lookup_lt_is_Some; eauto).
  repeat split.
  - exists (set_handlersOf false s). split; [|repeat split].
    rewrite lookup_app_l by (rewrite length_alter; exact Hlt).
    rewrite list_lookup_alter_eq, Hs. reflexivity.
  - lia.
Qed.

Lemma connect_abandons_socket_unclosed_witness :
  let w := run [Connect Examples.wsPath; TransportOpen 0] (init Examples.online) in
  let w' := exec (connect Examples.wsPath) w in
  (exists s', sockets w' !! 0%nat = Some s'
     /\ closeCalls s' = closeCalls (freshSocket "ws://example.test/ws" None)
     /\ readyState s' = readyState (set_readyState OPEN (freshSocket "ws://example.test/ws" None))
     /\ sent s' = sent (set_readyState OPEN (freshSocket "ws://example.test/ws" None))
     /\ anyHandler s' = false)
  /\ ws w' = Some (length (sockets w))
  /\ 0%nat <> length (sockets w)
  /\ trace w' = trace w ++ [("status",
                            PStatus Connecting
                              (orNull (Url.connectUrl (env (host w)) (path Examples.wsPath)))
                              false)].
Proof.
  cbv zeta.
  apply (connect_abandons_socket_unclosed
           (run [Connect Examples.wsPath; TransportOpen 0] (init Examples.online))
           Examples.wsPath 0 (set_readyState OPEN (freshSocket "ws://example.test/ws" None))).
  - reflexivity.
  - reflexivity.
  - reflexivity.
  - vm_compute. reflexivity.
  - reflexivity.
Defined.

End SocketFate.

(** Rewrites the trace of the state in the goal with an equation that holds
    of it up to conversion. *)
Ltac retrace F :=
  match type of F with
  | _ = ?R =>
      match goal with
      | |- context [trace ?X] => replace (trace X) with R by (symmetry; exact F)
      end
  end.

(** ** disconnect() and the socket *)
Section DisconnectSocket.

(** socket.close inside the try of the caller, whatever the readyState. *)
Lemma ws_close_any w i s code reason :
  sockets w !! i = Some s ->
  let pushed := set_sockets (alter (push_closeCall code reason) i (sockets w)) w in
  let closed v :=
    set_sockets (alter (set_readyState v) i
                   (alter (push_closeCall code reason) i (sockets w))) w in
  exec (try_catch (ws_close i code reason) (fun _ => ret tt)) w
  = if syncClose (host w)
    then if onclose s then exec (ws_onclose code reason true) (closed CLOSED)
         else closed CLOSED
    else if Z.eqb (readyState s) CLOSING || Z.eqb (readyState s) CLOSED then pushed
    else closed CLOSING.
Proof.
  intros Hs. cbn zeta. unfold ws_close.
  change (exec (try_catch (bind (gets ?f) ?k) ?h) w)
    with (exec (try_catch (k (f w)) h) w).
  cbn beta.
  change (exec (try_catch (bind (gets ?f) ?k) ?h) w)
    with (exec (try_catch (k (f w)) h) w).
  cbn beta. rewrite Hs.
  rewrite exec_try.
  match goal with |- context [outcome ?m w] =>
    rewrite (safe_unit m w) by safety
  end.
  rewrite exec_seq by safety.
  change (exec (alterSocket i (push_closeCall code reason)) w)
    with (set_sockets (alter (push_closeCall code reason) i (sockets w)) w).
  destruct (syncClose (host w)).
  - rewrite exec_seq by safety. destruct (onclose s); reflexivity.
  - destruct (Z.eqb (readyState s) CLOSING || Z.eqb (readyState s) CLOSED); reflexivity.
Qed.

Lemma disconnect_prefix w :
  let w0 := set_shouldReconnect false (set_explicitlyDisconnected true w) in
  let w2 := exec clearHeartbeatTimer (exec clearReconnectTimer w0) in
  let w3 := set_trace (trace w ++ [("status", PStatus Closing (orNull (lastUrl w)) (hasMock w))])
              (set_state Closing w2) in
  exec disconnect w
  = exec (s <- gets ws ;;
          (match s with
           | Some i => try ws_close i 1000 "client_disconnect" catch (fun _ => ret tt)
           | None => ret tt
           end) ;;
          k <- gets mockWs ;;
          (match k with
           | Some m => try mock_close m catch (fun _ => ret tt)
           | None => ret tt
           end) ;;
          cleanupSocketRefs ;;
          modify (set_state Closed) ;;
          isMock <- gets hasMock ;;
          emitStatus isMock)%eff w3
  /\ ws w3 = ws w /\ mockWs w3 = mockWs w /\ sockets w3 = sockets w
  /\ host w3 = host w /\ heartbeatTimer w3 = None /\ reconnectTimer w3 = None
  /\ explicitlyDisconnected w3 = true /\ lastUrl w3 = lastUrl w.
Proof.
  cbv zeta.
  set (w0 := set_shouldReconnect false (set_explicitlyDisconnected true w)).
  destruct (clearReconnectTimer_refs w0) as (A1&A2&A3&A4&A5&A6&A7&A8).
  pose proof (clearReconnectTimer_same w0 w0 (sameSettings_refl w0)) as SA.
  set (w1 := exec clearReconnectTimer w0) in *.
  destruct (clearHeartbeatTimer_refs w1) as (B1&B2&B3&B4&B5&B6&B7&B8).
  pose proof (clearHeartbeatTimer_same w0 w1 SA) as SB.
  set (w2 := exec clearHeartbeatTimer w1) in *.
  destruct SB as (S1&_&_&S4&_&_&S7&_).
  assert (Hm2 : hasMock (set_state Closing w2) = hasMock w).
  { unfold hasMock. wsimpl. rewrite B4, A4. reflexivity. }
  split.
  - unfold disconnect. rewrite !exec_modify. fold w0.
    rewrite (exec_seq clearReconnectTimer) by apply clearReconnectTimer_safe. fold w1.
    rewrite (exec_seq clearHeartbeatTimer) by apply clearHeartbeatTimer_safe. fold w2.
    rewrite exec_modify, exec_gets.
    rewrite (exec_seq (emitStatus _)) by apply emitStatus_safe.
    rewrite exec_emitStatus, Hm2. wsimpl. rewrite S4, B7, A7. reflexivity.
  - wsimpl. rewrite B3, B4, B5, B1, B2, A3, A4, A5, A1, S1, S4, S7. repeat split.
Qed.

(** X28 (disconnect, cleanupSocketRefs): disconnect() with a socket
    current calls its close(1000, "client_disconnect") exactly once and
    removes its handlers before it returns. The close event is therefore
    emitted only by a transport that delivers it inside close(), as the
    test double does: with a transport that delivers it later, as browsers
    do, the later close of the socket is ignored and an explicit
    disconnect emits no close event at all, only the status events closing
    and closed. *)
Theorem disconnect_closes_socket_once
    (w : World) (i : nat) (code : Z) (reason : string) (wasClean : bool) :
  reachable w ->
  ws w = Some i ->
  let w' := exec disconnect w in
  (exists s s', sockets w !! i = Some s /\ sockets w' !! i = Some s'
      /\ closeCalls s' = closeCalls s ++ [(1000, "client_disconnect")]
      /\ anyHandler s' = false)
  /\ emittedSince (length (trace w)) "close" w'
     = (if syncClose (host w)
        then [("close", PClose 1000 "client_disconnect" true false)] else [])
  /\ emittedSince (length (trace w)) "status" w'
     = ("status", PStatus Closing (orNull (lastUrl w)) false)
         :: (if syncClose (host w)
             then [("status", PStatus Closed (orNull (lastUrl w)) false)] else [])
         ++ [("status", PStatus Closed (orNull (lastUrl w)) false)]
  /\ trace (exec (transportClose i code reason wasClean) w') = trace w'
  /\ state (exec (transportClose i code reason wasClean) w') = Closed.
Proof.
  cbv zeta. intros Hreach Hws.
  pose proof (reachable_inv w Hreach) as Hi.
  assert (Hi' : Inv (exec disconnect w)) by apply (step_inv Disconnect), Hi.
  destruct (disconnect_detaches w Hi) as (_&D2&_&_).
  pose proof (disconnect_closed w) as Hcl.
  assert (Hstale := stale_socket (exec disconnect w) i
                      {| me_text := ""; me_event := None; me_data := "" |}
                      code reason wasClean Hi' ltac:(rewrite D2; discriminate)).
  destruct Hstale as (_&_&_&Hclose). rewrite Hclose. wsimpl. clear Hclose Hi' D2.
  revert Hcl.
  destruct Hi as ((_&Hcur)&_&Hone&_).
  destruct (Hcur i Hws) as (s&Hs&Hw).
  assert (Hmk : mockWs w = None) by (destruct Hone; congruence).
  destruct (disconnect_prefix w) as (-> & P1 & P2 & P3 & P4 & P5 & P6 & P7 & P8).
  assert (Hhm : hasMock w = false) by (unfold hasMock; rewrite Hmk; reflexivity).
  rewrite Hhm in *.
  set (w3 := set_trace _ _) in *.
  rewrite exec_gets, P1, Hws.
  rewrite exec_seq by (apply safe_try; intros ?; apply safe_ret).
  rewrite (ws_close_any w3 i s 1000 "client_disconnect") by (rewrite P3; exact Hs).
  rewrite (wired_onclose s Hw), P4, P3.
  set (pushed := alter (push_closeCall 1000 "client_disconnect") i (sockets w)).
  assert (Hp : pushed !! i = Some (push_closeCall 1000 "client_disconnect" s)).
  { subst pushed. rewrite list_lookup_alter_eq, Hs. reflexivity. }
  assert (Hfin : forall v : World,
            ws v = Some i -> mockWs v = None -> lastUrl v = lastUrl w ->
            (exists s4, sockets v !! i = Some s4
                        /\ closeCalls s4 = closeCalls s ++ [(1000, "client_disconnect")]) ->
            forall tail, trace v = trace w ++ tail ->
            let v' := exec (k <- gets mockWs ;;
                       (match k with
                        | Some m => try mock_close m catch (fun _ => ret tt)
                        | None => ret tt
                        end) ;;
                       cleanupSocketRefs ;;
                       modify (set_state Closed) ;;
                       isMock <- gets hasMock ;;
                       emitStatus isMock)%eff v in
            (exists s', sockets v' !! i = Some s'
                /\ closeCalls s' = closeCalls s ++ [(1000, "client_disconnect")]
                /\ anyHandler s' = false)
            /\ trace v' = trace w ++ tail
                            ++ [("status", PStatus Closed (orNull (lastUrl w)) false)]).
  { intros v Hv1 Hv2 Hv3 (s4&Hs4&Hc4) tail Hv4. cbv zeta.
    rewrite exec_gets, Hv2.
    change (exec (ret tt ;; ?k)%eff v) with (exec k v).
    rewrite (exec_seq cleanupSocketRefs) by apply cleanupSocketRefs_safe.
    rewrite (cleanupSocketRefs_socket v i Hv1 Hv2).
    rewrite exec_modify, exec_gets, exec_emitStatus. wsimpl.
    rewrite Hv3, Hv4, <- app_assoc. split; [|reflexivity].
    exists (set_handlersOf false s4). rewrite list_lookup_alter_eq, Hs4.
    repeat split. exact Hc4. }
  assert (Htr3 : trace w3 = trace w ++ [("status", PStatus Closing (orNull (lastUrl w)) false)])
    by reflexivity.
  destruct (syncClose (host w)).
  - rewrite ws_onclose_exec.
    set (v0 := set_sockets _ w3).
    rewrite (clearHeartbeatTimer_none v0) by exact P5.
    assert (He : explicitlyDisconnected v0 = true) by exact P7.
    rewrite He. cbn [negb andb].
    set (v := set_trace _ _).
    destruct (Hfin v) with (tail := [("status", PStatus Closing (orNull (lastUrl w)) false);
                                     ("status", PStatus Closed (orNull (lastUrl w)) false);
                                     ("close", PClose 1000 "client_disconnect" true false)])
      as ((s'&F1&F2&F3)&F4).
    + subst v v0; wsimpl; congruence.
    + subst v v0; wsimpl; congruence.
    + exact P8.
    + exists (set_readyState CLOSED (push_closeCall 1000 "client_disconnect" s)).
      subst v v0. wsimpl. fold pushed. rewrite list_lookup_alter_eq, Hp. split; reflexivity.
    + subst v v0. wsimpl. rewrite Htr3, P8, <- app_assoc. reflexivity.
    + intros Hcl. repeat split.
      * exists s, s'. auto.
      * unfold emittedSince. retrace F4. rewrite drop_app_length. reflexivity.
      * unfold emittedSince. retrace F4. rewrite drop_app_length. reflexivity.
      * exact Hcl.
  - assert (Hv : exists v,
        (if Z.eqb (readyState s) CLOSING || Z.eqb (readyState s) CLOSED
         then set_sockets pushed w3
         else set_sockets (alter (set_readyState CLOSING) i pushed) w3) = v
        /\ ws v = Some i /\ mockWs v = None /\ lastUrl v = lastUrl w
        /\ (exists s4, sockets v !! i = Some s4
                       /\ closeCalls s4 = closeCalls s ++ [(1000, "client_disconnect")])
        /\ trace v = trace w ++ [("status", PStatus Closing (orNull (lastUrl w)) false)]).
    { eexists. split; [reflexivity|].
      destruct (Z.eqb (readyState s) CLOSING || Z.eqb (readyState s) CLOSED); wsimpl.
      - repeat split; try congruence. eexists. split; [exact Hp|reflexivity].
      - repeat split; try congruence. eexists.
        rewrite list_lookup_alter_eq, Hp. split; reflexivity. }
    destruct Hv as (v&->&V1&V2&V3&V4&V5).
    destruct (Hfin v V1 V2 V3 V4 _ V5) as ((s'&F1&F2&F3)&F4).
    intros Hcl. repeat split.
    + exists s, s'. auto.
    + unfold emittedSince. retrace F4. rewrite drop_app_length. reflexivity.
    + unfold emittedSince. retrace F4. rewrite drop_app_length. reflexivity.
    + exact Hcl.
Qed.

Lemma disconnect_closes_socket_once_witness :
  let w := run [Connect Examples.wsPath; TransportOpen 0] (init Examples.online) in
  let w' := exec disconnect w in
  (exists s s', sockets w !! 0%nat = Some s /\ sockets w' !! 0%nat = Some s'
      /\ closeCalls s' = closeCalls s ++ [(1000, "client_disconnect")]
      /\ anyHandler s' = false)
  /\ emittedSince (length (trace w)) "close" w'
     = (if syncClose (host w)
        then [("close", PClose 1000 "client_disconnect" true false)] else [])
  /\ emittedSince (length (trace w)) "status" w'
     = ("status", PStatus Closing (orNull (lastUrl w)) false)
         :: (if syncClose (host w)
             then [("status", PStatus Closed (orNull (lastUrl w)) false)] else [])
         ++ [("status", PStatus Closed (orNull (lastUrl w)) false)]
  /\ trace (exec (transportClose 0 1000 "client_disconnect" true) w') = trace w'
  /\ state (exec (transportClose 0 1000 "client_disconnect" true) w') = Closed.
Proof.
  cbv zeta. apply disconnect_closes_socket_once.
  - eexists _, _. reflexivity.
  - reflexivity.
Defined.

End DisconnectSocket.

(** ** disconnect() and the mock *)
Section MockDisconnect.

Lemma mock_close_open w m k :
  mocks w !! m = Some k -> mk_closed k = false ->
  exec (try_catch (mock_close m) (fun _ => ret tt)) w
  = set_mocks (alter (fun k => {| mk_open := false; mk_closed := mk_closed k;
                                  mk_id := mk_id k |}) m
                 (alter (fun k => {| mk_open := mk_open k; mk_closed := true;
                                     mk_id := mk_id k |}) m (mocks w)))
      (set_trace (trace w ++ (if mk_open k
                               then [("close", PClose 1000 "mock closed" true true)]
                               else []))
         (set_timers (filter (fun t => t_id t <> mk_id k) (timers w)) w)).
Proof.
  intros Hk Hc. unfold mock_close, alterMock, clearTimer, emit. crun.
  rewrite Hk, Hc. wsimpl. destruct (mk_open k); wsimpl; rewrite ?app_nil_r; reflexivity.
Qed.

Lemma mock_close_closed w m k :
  mocks w !! m = Some k -> mk_closed k = true ->
  exec (try_catch (mock_close m) (fun _ => ret tt)) w = w.
Proof.
  intros Hk Hc. unfold mock_close. crun. rewrite Hk, Hc. reflexivity.
Qed.

(** X29 (disconnect, createMockSocket.close): disconnect() in mock mode
    closes the mock once. It emits the status closing with isMock true,
    then the close event (1000, "mock closed") if and only if the mock had
    opened, then the status closed; the mock's opening timer is cancelled;
    afterwards there is no transport, and the mock's timer functions do
    nothing: an opening timer or the echo of a frame sent before the
    disconnect emits no event. *)
Theorem mock_disconnect_closes_mock
    (w : World) (m : nat) (k : MockSocket) (payload : string) :
  ws w = None -> mockWs w = Some m -> mocks w !! m = Some k -> mk_closed k = false ->
  let w' := exec disconnect w in
  let url := orNull (lastUrl w) in
  trace w' = trace w ++ ("status", PStatus Closing url true)
                 :: (if mk_open k
                     then [("close", PClose 1000 "mock closed" true true)] else [])
                 ++ [("status", PStatus Closed url false)]
  /\ state w' = Closed /\ ws w' = None /\ mockWs w' = None
  /\ mocks w' !! m = Some {| mk_open := false; mk_closed := true; mk_id := mk_id k |}
  /\ (forall t, t ∈ timers w' -> t ∈ timers w /\ t_id t <> mk_id k)
  /\ exec (runCallback (CbMockOpen m)) w' = w'
  /\ exec (runCallback (CbMockEcho m payload)) w' = w'.
Proof.
  cbv zeta. intros Hws Hmk Hk Hc.
  destruct (disconnect_prefix w) as (-> & P1 & P2 & P3 & P4 & P5 & P6 & P7 & P8).
  assert (Hhm : hasMock w = true) by (unfold hasMock; rewrite Hmk; reflexivity).
  rewrite Hhm in *.
  set (w3 := set_trace _ _) in *.
  assert (Hm3 : mocks w3 = mocks w).
  { subst w3. wsimpl.
    destruct (clearReconnectTimer_refs
                (set_shouldReconnect false (set_explicitlyDisconnected true w)))
      as (_&_&_&_&_&A6&_).
    match goal with
    | |- mocks (exec clearHeartbeatTimer ?v) = _ =>
        destruct (clearHeartbeatTimer_refs v) as (_&_&_&_&_&B6&_); rewrite B6
    end.
    exact A6. }
  assert (Ht3 : forall t, t ∈ timers w3 -> t ∈ timers w).
  { subst w3. wsimpl. intros t Ht.
    destruct (clearReconnectTimer_refs
                (set_shouldReconnect false (set_explicitlyDisconnected true w)))
      as (_&_&_&_&_&_&_&A8).
    match type of Ht with
    | _ ∈ timers (exec clearHeartbeatTimer ?v) =>
        destruct (clearHeartbeatTimer_refs v) as (_&_&_&_&_&_&_&B8); apply B8 in Ht
    end.
    exact (A8 t Ht). }
  rewrite exec_gets, P1, Hws.
  change (exec (ret tt ;; ?c)%eff w3) with (exec c w3).
  rewrite exec_gets, P2, Hmk.
  rewrite exec_seq by (apply safe_try; intros ?; apply safe_ret).
  rewrite (mock_close_open w3 m k) by (rewrite ?Hm3; assumption).
  set (K := {| mk_open := false; mk_closed := true; mk_id := mk_id k |}).
  set (w4 := set_mocks _ _).
  assert (Hk4 : mocks w4 !! m = Some K).
  { subst w4. wsimpl. rewrite !list_lookup_alter_eq, Hm3, Hk. reflexivity. }
  assert (Hw4 : ws w4 = None) by (subst w4; wsimpl; congruence).
  assert (Hm4 : mockWs w4 = Some m) by (subst w4; wsimpl; congruence).
  assert (Hc4 : exec cleanupSocketRefs w4 = set_mockWs None (set_ws None w4)).
  { unfold cleanupSocketRefs. rewrite exec_gets, Hw4.
    change (exec (ret tt ;; ?c)%eff w4) with (exec c w4).
    rewrite exec_modify, exec_gets. wsimpl. rewrite Hm4.
    rewrite exec_seq by (apply safe_try; intros ?; apply safe_ret).
    rewrite (mock_close_closed _ m K) by (wsimpl; auto). reflexivity. }
  rewrite (exec_seq cleanupSocketRefs) by apply cleanupSocketRefs_safe.
  rewrite Hc4, exec_modify, exec_gets, exec_emitStatus. wsimpl.
  assert (Hu4 : lastUrl w4 = lastUrl w) by (subst w4; wsimpl; exact P8).
  assert (Htr : trace w4 = trace w ++ ("status", PStatus Closing (orNull (lastUrl w)) true)
                             :: (if mk_open k
                                 then [("close", PClose 1000 "mock closed" true true)]
                                 else [])).
  { subst w4 w3. wsimpl. rewrite <- app_assoc. reflexivity. }
  rewrite Hu4, Htr, <- app_assoc. cbn [app].
  split; [reflexivity|]. split; [reflexivity|]. split; [reflexivity|]. split; [reflexivity|].
  split; [exact Hk4|]. split; [|split].
  - subst w4. wsimpl. intros t [Hne Ht]%list_elem_of_filter. split; [exact (Ht3 t Ht)|exact Hne].
  - cbn [runCallback]. unfold mock_timeout. rewrite exec_gets. wsimpl. rewrite Hk4. reflexivity.
  - cbn [runCallback]. unfold mock_echo. rewrite exec_gets. wsimpl. rewrite Hk4. reflexivity.
Qed.

Lemma mock_disconnect_closes_mock_witness :
  let w := run [Connect Examples.defaultOptions; Fire 1; Send (MString "late")]
               (init Examples.offline) in
  let k := {| mk_open := true; mk_closed := false; mk_id := 1 |} in
  let w' := exec disconnect w in
  let url := orNull (lastUrl w) in
  trace w' = trace w ++ ("status", PStatus Closing url true)
                 :: (if mk_open k
                     then [("close", PClose 1000 "mock closed" true true)] else [])
                 ++ [("status", PStatus Closed url false)]
  /\ state w' = Closed /\ ws w' = None /\ mockWs w' = None
  /\ mocks w' !! 0%nat = Some {| mk_open := false; mk_closed := true; mk_id := mk_id k |}
  /\ (forall t, t ∈ timers w' -> t ∈ timers w /\ t_id t <> mk_id k)
  /\ exec (runCallback (CbMockOpen 0)) w' = w'
  /\ exec (runCallback (CbMockEcho 0 "late")) w' = w'.
Proof.
  cbv zeta.
  apply (mock_disconnect_closes_mock
           (run [Connect Examples.defaultOptions; Fire 1; Send (MString "late")]
                (init Examples.offline))
           0 {| mk_open := true; mk_closed := false; mk_id := 1 |} "late");
    reflexivity.
Defined.

End MockDisconnect.

(** ** What connect() resets *)
Section ConnectEffect.

(** X30 (connect, internalConnect): connect() to a configured address, in
    any reachable state, starts from a clean slate except for the backoff:
    the reconnect and heartbeat timers of the previous connection are
    cancelled (both variables are null and no such timer is pending), the
    explicit-disconnect flag is cleared, automatic reconnection is what the
    options say (on by default), the options are recorded, and the new
    socket, with the joined address and the protocols of the options, is
    the current one; the reconnect attempt counter and the outbound queue
    are what they were, and no timer is added. *)
Theorem connect_cancels_timers_keeps_backoff (w : World) (o : ConnectOptions) :
  let url := Url.connectUrl (env (host w)) (path o) in
  reachable w ->
  realHost (host w) (path o) = true ->
  ctorThrows (host w) url = false ->
  let w' := exec (connect o) w in
  reconnectTimer w' = None /\ heartbeatTimer w' = None
  /\ pending isReconnect w' = [] /\ pending isHeartbeat w' = []
  /\ (forall t, t ∈ timers w' -> t ∈ timers w)
  /\ explicitlyDisconnected w' = false
  /\ shouldReconnect w' = match autoReconnect o with Some b => b | None => true end
  /\ connectOptions w' = o
  /\ reconnectAttempt w' = reconnectAttempt w
  /\ outboundQueue w' = outboundQueue w
  /\ state w' = Connecting
  /\ ws w' = Some (length (sockets w))
  /\ sockets w' !! length (sockets w) = Some (freshSocket url (protocols o)).
Proof.
  cbv zeta. intros Hreach Hr Ht.
  assert (Hi : Inv (exec (connect o) w)).
  { apply (step_inv (Connect o)), reachable_inv, Hreach. }
  destruct (connect_real o w Hr Ht) as (C1&C2&C3&C4&C5&C6&C7&C8&C9&C10&C11&C12&C13).
  split; [exact C4|]. split; [exact C5|].
  split; [apply pending_reconnect_none; assumption|].
  split; [apply pending_heartbeat_none; assumption|].
  repeat split; assumption.
Qed.

Lemma connect_cancels_timers_keeps_backoff_witness :
  let w := run [Connect Examples.wsPath; TransportError 0; Fire 1; TransportOpen 1;
                TransportClose 1 1006 "" false; Send (MString "a")]
               (init Examples.online) in
  let o := {| path := Some "/play"; protocols := Some "v1"; autoReconnect := None |} in
  let w' := exec (connect o) w in
  reconnectTimer w' = None /\ heartbeatTimer w' = None
  /\ pending isReconnect w' = [] /\ pending isHeartbeat w' = []
  /\ (forall t, t ∈ timers w' -> t ∈ timers w)
  /\ explicitlyDisconnected w' = false
  /\ shouldReconnect w' = match autoReconnect o with Some b => b | None => true end
  /\ connectOptions w' = o
  /\ reconnectAttempt w' = reconnectAttempt w
  /\ outboundQueue w' = outboundQueue w
  /\ state w' = Connecting
  /\ ws w' = Some (length (sockets w))
  /\ sockets w' !! length (sockets w)
     = Some (freshSocket (Url.connectUrl (env (host w)) (path o)) (protocols o)).
Proof.
  cbv zeta.
  apply (connect_cancels_timers_keeps_backoff
           (run [Connect Examples.wsPath; TransportError 0; Fire 1; TransportOpen 1;
                 TransportClose 1 1006 "" false; Send (MString "a")]
                (init Examples.online))
           {| path := Some "/play"; protocols := Some "v1"; autoReconnect := None |}).
  - eexists _, _. reflexivity.
  - vm_compute. reflexivity.
  - reflexivity.
Defined.

End ConnectEffect.
